(** * lib_mysqludf_preg: the shared call-lifecycle and buffer layer (preg.c)
      and the PREG_CHECK init hook (lib_mysqludf_preg_check.c)

    A shallow embedding of the C functions
      pregCompileRegexArg, initPtrInfo, pregCreateOffsetsVector,
      pregSkipToOccurence, destroyPtrInfo, pregDeInit, pregInit,
      pregCopyToReturnBuffer, pregMoveToReturnValues, pregGetGroupNum,
      preg_check_init, preg_check, preg_check_deinit.

    Conventions.
    - A C [int] is a [Z] kept in range by [wrap32]; an [unsigned long] /
      [size_t] is a [Z] kept in range by [to_ulong] (LP64).
    - A [char] buffer is a [list byte]; its list length is the extent of the
      underlying object, so an access past it is a [Fault].  The same holds
      for a store into the host's type array [arg_type].
    - A pointer to a heap block is [option addr] ([None] is NULL) paired with
      the contents of the block it owns.
    - The allocator, the free list and the log are threaded explicitly
      through a [world]; library calls that the repository only links against
      (libpcre, the argument helpers of ghmysql.c, compileRegex of from_php.c)
      are section variables. *)

From Stdlib Require Import ZArith List Bool Lia.
From Stdlib.Strings Require Import String Byte.
Import ListNotations.
Local Open Scope Z_scope.

(** ** Machine integers *)

Definition INT_MAX : Z := 2147483647.
Definition INT_MIN : Z := -2147483648.

(** Conversion to a 32-bit signed [int] (two's complement wrap-around). *)
Definition wrap32 (z : Z) : Z := (z + 2147483648) mod 4294967296 - 2147483648.

(** Conversion to a 64-bit [unsigned long] / [size_t]. *)
Definition to_ulong (z : Z) : Z := z mod 18446744073709551616.

(** ** Outcomes of a run *)

(** [Fault] is undefined behaviour in the C source (a NULL dereference, an
    access past a buffer, a free of a block that is not live); [Timeout] is a
    loop that outlived its fuel. *)
Inductive res (A : Type) : Type :=
| Ok (a : A)
| Fault
| Timeout.
Arguments Ok {A} a.
Arguments Fault {A}.
Arguments Timeout {A}.

(** ** C strings and buffers *)

Definition cstr (s : string) : list byte := list_byte_of_string s.

Definition NUL : byte := x00.

(** [store_bytes dst src]: write [src] over the front of the object [dst];
    [None] when [dst] is too short to take it. *)
Definition store_bytes (dst src : list byte) : option (list byte) :=
  if (List.length src <=? List.length dst)%nat
  then Some (src ++ skipn (List.length src) dst)
  else None.

(** What [strncpy(dst, src, n)] stores: the characters of [src] cut at [n],
    padded with NUL up to exactly [n] bytes. *)
Definition strncpy_image (src : list byte) (n : Z) : list byte :=
  let k := Z.to_nat n in
  firstn k src ++ repeat NUL (k - List.length src).

(** [strncpy(dst, src, n)] with [n] already a [size_t]. *)
Definition strncpy (dst src : list byte) (n : Z) : option (list byte) :=
  if n <=? Z.of_nat (List.length dst)
  then store_bytes dst (strncpy_image src n)
  else None.

(** What [strcpy(dst, src)] stores: the characters and the terminator. *)
Definition strcpy (dst src : list byte) : option (list byte) :=
  store_bytes dst (src ++ [NUL]).

(** [*p = c] on a [char *]. *)
Definition poke0 (dst : list byte) (c : byte) : option (list byte) :=
  store_bytes dst [c].

(** [p[i] = c]. *)
Definition store_at (dst : list byte) (i : nat) (c : byte) : option (list byte) :=
  if (i <? List.length dst)%nat
  then Some (firstn i dst ++ c :: skipn (S i) dst)
  else None.

(** ** Occurrence walker *)

Section Walker.

(** A compiled pattern of the engine. *)
Variable pcre : Type.

(** [pcre_exec re subject off len ovector oveccount] stands for the call
    [pcre_exec(re, &extra, subject + off, len, 0, 0, ovector, oveccount)]:
    it yields the return code and the offsets vector after the call. *)
Variable pcre_exec : pcre -> list byte -> Z -> Z -> list Z -> Z -> Z * list Z.

(** What the walker hands back: the returned [char *] as an offset into
    [subject] ([None] is NULL), the cell behind [rc], the offsets vector,
    and, as a ghost, the [(offset, length)] of every engine call made. *)
Record walk : Type := mkWalk {
  wk_ret : option Z;
  wk_rc : option Z;
  wk_ovector : list Z;
  wk_attempts : list (Z * Z)
}.

(** State at the exit of the [while] loop: [ex_subject] (as an offset),
    [*rc], the vector and the ghost list of attempts. *)
Definition loop_exit : Type := (Z * Z * list Z * list (Z * Z))%type.

(** The loop
<<
    while( occurence-- && subject_offset <= subject_len ) {
        *rc = pcre_exec(re, &extra, subject + subject_offset,
                        subject_len - subject_offset, 0,0, ovector, oveccount);
        if( *rc <= 0 ) break ;
        ex_subject = subject + subject_offset ;
        subject_offset += ovector[1] ;
    }
>>
    entered with a non-NULL [rc] whose cell holds [rcv]. *)
Fixpoint skip_loop (fuel : nat) (re : pcre) (subject : list byte)
    (subject_len oveccount : Z) (occurence subject_offset ex_subject : Z)
    (rcv : Z) (ovector : list Z) (att : list (Z * Z)) : res loop_exit :=
  match fuel with
  | O => Timeout
  | S fuel' =>
    if occurence =? 0 then Ok (ex_subject, rcv, ovector, att)
    else if negb (subject_offset <=? subject_len)
    then Ok (ex_subject, rcv, ovector, att)
    else
      let len := wrap32 (subject_len - subject_offset) in
      let '(r, ov) :=
        pcre_exec re subject subject_offset len ovector oveccount in
      let att' := att ++ [(subject_offset, len)] in
      if r <=? 0 then Ok (ex_subject, r, ov, att')
      else
        match nth_error ov 1 with
        | None => Fault
        | Some e =>
          skip_loop fuel' re subject subject_len oveccount
            (wrap32 (occurence - 1)) (wrap32 (subject_offset + e))
            subject_offset r ov att'
        end
  end.

(** [pregSkipToOccurence].  [rc] is the [int *rc] parameter: [None] for a
    NULL pointer, [Some v] for a pointer to a cell holding [v].  The final
    test of the source is [if( rc > 0 )], on the pointer itself, so it
    holds exactly when [rc] is not NULL. *)
Definition pregSkipToOccurence (fuel : nat) (re : pcre)
    (subject : list byte) (subject_len : Z) (ovector : list Z)
    (oveccount occurence : Z) (rc : option Z) : res walk :=
  match rc with
  | None =>
    (* no cell to write: the loop can only be left before its first call *)
    if (occurence =? 0) || negb (0 <=? subject_len)
    then Ok (mkWalk None None ovector [])
    else Fault
  | Some rcv =>
    match skip_loop fuel re subject subject_len oveccount
                    occurence 0 0 rcv ovector [] with
    | Ok (ex_subject, rcv', ov, att) =>
      Ok (mkWalk (Some ex_subject) (Some rcv') ov att)
    | Fault => Fault
    | Timeout => Timeout
    end
  end.

End Walker.

(** ** The world: allocator, live blocks and log *)

Definition addr : Type := nat.

Inductive event : Type :=
| EvMalloc (size : Z) (p : option addr)   (* malloc(size) returned p *)
| EvCalloc (p : option addr)              (* calloc(1, sizeof(struct preg_s)) *)
| EvCompile (a : addr)                    (* the engine allocated a pattern *)
| EvFree (a : addr)                       (* free(a), a not NULL *)
| EvPcreFree (a : addr)                   (* pcre_free(a) *)
| EvStderr                                (* fprintf(stderr, ...) *)
| EvLog (code : Z).                       (* ghlogprintf(..., code, ...) *)

(** [w_oracle] decides the coming allocation requests, first come first
    served, an exhausted oracle granting every request; [w_fill] is what a
    fresh [malloc] block happens to hold. *)
Record world : Type := mkWorld {
  w_next : addr;
  w_live : list addr;
  w_oracle : list bool;
  w_fill : byte;
  w_trace : list event
}.

Definition M (A : Type) : Type := world -> res (A * world).

Definition ret {A : Type} (a : A) : M A := fun w => Ok (a, w).

Definition bind {A B : Type} (m : M A) (k : A -> M B) : M B :=
  fun w =>
    match m w with
    | Ok (a, w') => k a w'
    | Fault => Fault
    | Timeout => Timeout
    end.

Definition fault {A : Type} : M A := fun _ => Fault.

Notation "x <- m ;; k" := (bind m (fun x => k))
  (at level 61, m at next level, right associativity).
Notation "' pat <- m ;; k" := (bind m (fun x => match x with pat => k end))
  (at level 61, pat pattern, m at next level, right associativity).
Notation "m ;; k" := (bind m (fun _ => k))
  (at level 61, right associativity).

(** A store that went past its object is undefined behaviour. *)
Definition stored {A : Type} (o : option A) : M A :=
  match o with
  | Some a => ret a
  | None => fault
  end.

Definition emit (e : event) : M unit :=
  fun w => Ok (tt, mkWorld (w_next w) (w_live w) (w_oracle w) (w_fill w)
                           (w_trace w ++ [e])).

(** One request to the allocator: a fresh live address, or NULL when the
    oracle refuses. *)
Definition alloc : M (option addr) :=
  fun w =>
    let fresh := Ok (Some (w_next w),
                     mkWorld (S (w_next w)) (w_next w :: w_live w)
                             (tl (w_oracle w)) (w_fill w) (w_trace w)) in
    match w_oracle w with
    | false :: rest =>
      Ok (None, mkWorld (w_next w) (w_live w) rest (w_fill w) (w_trace w))
    | _ => fresh
    end.

(** Giving a block back: it has to be live. *)
Definition release (a : addr) : M unit :=
  fun w =>
    if existsb (Nat.eqb a) (w_live w)
    then Ok (tt, mkWorld (w_next w)
                         (filter (fun b => negb (Nat.eqb a b)) (w_live w))
                         (w_oracle w) (w_fill w) (w_trace w))
    else Fault.

Definition fill_byte : M byte := fun w => Ok (w_fill w, w).

(** A heap block of characters: where it is and what it holds. *)
Definition block : Type := (addr * list byte)%type.

Definition malloc_raw (size : Z) : M (option addr) :=
  p <- alloc ;;
  emit (EvMalloc size p) ;;
  ret p.

(** [malloc(size)] for a [char] buffer. *)
Definition malloc (size : Z) : M (option block) :=
  p <- malloc_raw size ;;
  c <- fill_byte ;;
  ret (option_map (fun a => (a, repeat c (Z.to_nat size))) p).

(** The engine allocating a compiled pattern of its own. *)
Definition engine_alloc : M addr :=
  fun w =>
    Ok (w_next w,
        mkWorld (S (w_next w)) (w_next w :: w_live w) (w_oracle w) (w_fill w)
                (w_trace w ++ [EvCompile (w_next w)])).

(** [free(p)]; [free(NULL)] does nothing. *)
Definition free {A : Type} (p : option (addr * A)) : M unit :=
  match p with
  | None => ret tt
  | Some (a, _) => release a ;; emit (EvFree a)
  end.

Definition pcre_free {A : Type} (p : option (addr * A)) : M unit :=
  match p with
  | None => ret tt
  | Some (a, _) => release a ;; emit (EvPcreFree a)
  end.

(** The frees recorded in a log, in order. *)
Definition freed (t : list event) : list addr :=
  flat_map (fun e => match e with
                     | EvFree a => [a]
                     | EvPcreFree a => [a]
                     | _ => []
                     end) t.

(** The sizes asked of [malloc] in a log, in order. *)
Definition malloc_requests (t : list event) : list Z :=
  flat_map (fun e => match e with
                     | EvMalloc n _ => [n]
                     | _ => []
                     end) t.

(** ** The host's argument list (UDF_ARGS of the MySQL UDF interface) *)

Inductive Item_result : Type :=
| STRING_RESULT | REAL_RESULT | INT_RESULT | ROW_RESULT | DECIMAL_RESULT.

Record UDF_ARGS : Type := mkArgs {
  arg_count : Z;
  arg_type : list Item_result;
  args : list (option (list byte));
  lengths : list Z
}.

(** [args->args[i]] and [args->lengths[i]]; an index the host did not fill
    reads as NULL and 0. *)
Definition arg_at (a : UDF_ARGS) (i : nat) : option (list byte) :=
  nth i (args a) None.

Definition length_at (a : UDF_ARGS) (i : nat) : Z := nth i (lengths a) 0.

(** The list [l] with entry [i] replaced by [x], for an [i] within [l]. *)
Fixpoint set_nth {A : Type} (i : nat) (x : A) (l : list A) : list A :=
  match l, i with
  | [], _ => []
  | _ :: l', O => x :: l'
  | y :: l', S i' => y :: set_nth i' x l'
  end.

Definition set_arg_type (a : UDF_ARGS) (i : nat) (t : Item_result) : UDF_ARGS :=
  mkArgs (arg_count a) (set_nth i t (arg_type a)) (args a) (lengths a).

(** [args->arg_type[i] = t]: the entry has to be inside the host's array; a
    store past it is undefined behaviour and yields nothing. *)
Definition store_arg_type (a : UDF_ARGS) (i : nat) (t : Item_result)
  : option UDF_ARGS :=
  if (i <? List.length (arg_type a))%nat then Some (set_arg_type a i t) else None.

Definition MYSQL_ERRMSG_SIZE : Z := 512.

(** Modelled from the spec: ghargdup (ghmysql.c) is not among the sources.
    Section 4.1: the argument is a raw buffer, possibly not NUL-terminated,
    possibly absent; duplication yields nothing for an absent or zero-length
    argument and can fail for want of memory.  The copy is NUL-terminated,
    since that is what pregCompileRegexArg needs it for. *)
Definition ghargdup (a : UDF_ARGS) (argnum : nat) : M (option block) :=
  if negb (Z.of_nat argnum <? arg_count a) then ret None
  else
    match arg_at a argnum with
    | None => ret None
    | Some bytes =>
      let len := length_at a argnum in
      if len =? 0 then ret None
      else
        b <- malloc (to_ulong (len + 1)) ;;
        match b with
        | None => ret None
        | Some (p, _) => ret (Some (p, firstn (Z.to_nat len) bytes ++ [NUL]))
        end
    end.

Definition is_some {A : Type} (o : option A) : bool :=
  match o with
  | Some _ => true
  | None => false
  end.

(** ** preg.c *)

Section Preg.

(** A compiled pattern of the engine. *)
Variable pcre : Type.

(** compileRegex (from_php.c): the terminated pattern text, its length, the
    message buffer and its size; yields the pattern, if any, and the message
    buffer after the call. *)
Variable compileRegex :
  list byte -> Z -> list byte -> Z -> option pcre * list byte.

(** [pcre_fullinfo(re, extra, PCRE_INFO_CAPTURECOUNT, &n)]: the return code
    and the count stored in [n]. *)
Variable pcre_fullinfo_capturecount : pcre -> Z * Z.

(** ghargIsNullConstant (ghmysql.c, not among the sources): any predicate
    on the argument list. *)
Variable ghargIsNullConstant : UDF_ARGS -> nat -> bool.

(** Whether the build defines GH_1_0_NULL_HANDLING. *)
Variable GH_1_0_NULL_HANDLING : bool.

Definition pcre_ptr : Type := option (addr * pcre).

(** Modelled from the spec: struct preg_s is declared in preg.h, which is not
    among the sources.  Section 3 gives the call context a compiled pattern,
    a constant-pattern flag, an output buffer and a capacity of an unsigned
    size type; the field names are the ones preg.c uses. *)
Record preg_s : Type := mkPreg {
  re : pcre_ptr;
  constant_pattern : Z;
  return_buffer : option block;
  return_buffer_size : Z
}.

(** The fields of the host's UDF_INIT that this code touches; [ptr] owns the
    context block it points to. *)
Record UDF_INIT : Type := mkInit {
  maybe_null : Z;
  max_length : Z;
  ptr : option (addr * preg_s)
}.

Definition set_re (p : preg_s) (r : pcre_ptr) : preg_s :=
  mkPreg r (constant_pattern p) (return_buffer p) (return_buffer_size p).

Definition set_constant_pattern (p : preg_s) (c : Z) : preg_s :=
  mkPreg (re p) c (return_buffer p) (return_buffer_size p).

Definition set_return_buffer (p : preg_s) (b : option block) : preg_s :=
  mkPreg (re p) (constant_pattern p) b (return_buffer_size p).

Definition set_return_buffer_size (p : preg_s) (n : Z) : preg_s :=
  mkPreg (re p) (constant_pattern p) (return_buffer p) n.

Definition set_ptr (i : UDF_INIT) (p : option (addr * preg_s)) : UDF_INIT :=
  mkInit (maybe_null i) (max_length i) p.

Definition set_maybe_null (i : UDF_INIT) (b : Z) : UDF_INIT :=
  mkInit b (max_length i) (ptr i).

(** The call of compileRegex, with the address of what it allocated. *)
Definition compile (val : list byte) (len : Z) (msg : list byte) (msglen : Z)
  : M (pcre_ptr * list byte) :=
  let '(r, msg') := compileRegex val len msg msglen in
  match r with
  | None => ret (None, msg')
  | Some c => a <- engine_alloc ;; ret (Some (a, c), msg')
  end.

(** [pregCompileRegexArg(args, msg, msglen)]: the pattern (or NULL) and the
    message buffer. *)
Definition pregCompileRegexArg (a : UDF_ARGS) (msg : list byte) (msglen : Z)
  : M (pcre_ptr * list byte) :=
  msg0 <- stored (poke0 msg NUL) ;;
  val <- ghargdup a 0 ;;
  match val with
  | None =>
    if negb (length_at a 0 =? 0) && is_some (arg_at a 0)
    then
      m <- stored (strncpy msg0 (cstr "Out of memory") (to_ulong msglen)) ;;
      ret (None, m)
    else
      m <- stored (strncpy msg0 (cstr "Empty pattern") (to_ulong msglen)) ;;
      ret (None, m)
  | Some (_, text) =>
    '(r, m) <- compile text (length_at a 0) msg0 msglen ;;
    free val ;;
    ret (r, m)
  end.

(** [initPtrInfo(ptr, args, message)]. *)
Definition initPtrInfo (p : preg_s) (a : UDF_ARGS) (message : list byte)
  : M (Z * preg_s * list byte) :=
  '(r, m) <- pregCompileRegexArg a message 128 ;;
  let p' := set_re p r in
  if is_some r then ret (0, p', m) else ret (1, p', m).

(** [pregCreateOffsetsVector(re, extra, &count, msg, msglen)]: the vector
    (or NULL), the value left in [count] and the message buffer. *)
Definition pregCreateOffsetsVector (r : pcre) (msg : list byte) (msglen : Z)
  : M (option (addr * list Z) * Z * list byte) :=
  let '(rc, n) := pcre_fullinfo_capturecount r in
  if rc <? 0 then
    m <- stored (strncpy msg
                   (cstr "preg: error retrieving information about pattern")
                   (to_ulong msglen)) ;;
    ret (None, 0, m)
  else
    let oveccount := wrap32 (wrap32 (n + 1) * 3) in
    ovec <- malloc_raw (to_ulong (4 * oveccount)) ;;
    match ovec with
    | None =>
      m <- stored (strncpy msg (cstr "preg: out of memory") (to_ulong msglen)) ;;
      ret (None, 0, m)
    | Some v => ret (Some (v, repeat 0 (Z.to_nat oveccount)), oveccount, msg)
    end.

(** [destroyPtrInfo(ptr)]. *)
Definition destroyPtrInfo (p : preg_s) : M preg_s :=
  p1 <- (if is_some (re p)
         then pcre_free (re p) ;; ret (set_re p None)
         else ret p) ;;
  if is_some (return_buffer p1)
  then free (return_buffer p1) ;; ret (set_return_buffer p1 None)
  else ret p1.

(** [pregDeInit(initid)]. *)
Definition pregDeInit (i : UDF_INIT) : M UDF_INIT :=
  match ptr i with
  | Some (a, p) =>
    p' <- destroyPtrInfo p ;;
    free (Some (a, p')) ;;
    ret (set_ptr i None)
  | None => ret i
  end.

(** The tail of pregInit: size and allocate the return buffer.  The test is
    made on [(int)initid->max_length]. *)
Definition init_return_buffer (i : UDF_INIT) (a : addr) (p : preg_s)
  : M UDF_INIT :=
  let size := if wrap32 (max_length i) >? 0
              then to_ulong (max_length i + 1)
              else 1024000 in
  buf <- malloc size ;;
  ret (set_ptr i (Some (a, set_return_buffer (set_return_buffer_size p size) buf))).

(** [pregInit(initid, args, message)]: the return value, and [initid],
    [args] and [message] as the call leaves them.  The loop over the first
    two argument types stores [arg_type[0]] and [arg_type[1]] whatever
    [arg_count] is. *)
Definition pregInit (i : UDF_INIT) (a : UDF_ARGS) (message : list byte)
  : M (Z * UDF_INIT * UDF_ARGS * list byte) :=
  c <- alloc ;;
  emit (EvCalloc c) ;;
  match c with
  | None =>
    m <- stored (strcpy message (cstr "not enough memory")) ;;
    ret (1, set_ptr i None, a, m)
  | Some ca =>
    let p0 := mkPreg None 0 None 0 in
    let nullc := ghargIsNullConstant a 0 in
    let p1 := if nullc then set_constant_pattern p0 1 else p0 in
    if nullc && GH_1_0_NULL_HANDLING then
      m <- stored (strcpy message (cstr "NULL pattern")) ;;
      ret (1, set_ptr i (Some (ca, p1)), a, m)
    else
      a0 <- stored (store_arg_type a 0 STRING_RESULT) ;;
      a1 <- stored (store_arg_type a0 1 STRING_RESULT) ;;
      if negb (arg_count a1 =? 0) && is_some (arg_at a1 0) then
        '(r, p2, m) <- initPtrInfo p1 a1 message ;;
        if negb (r =? 0) then ret (1, set_ptr i (Some (ca, p2)), a1, m)
        else
          i' <- init_return_buffer i ca (set_constant_pattern p2 1) ;;
          ret (0, i', a1, m)
      else
        i' <- init_return_buffer i ca (set_constant_pattern p1 0) ;;
        ret (0, i', a1, message)
  end.

(** [pregCopyToReturnBuffer(ptr, s, l)]: the return value and the context.
    [l + 1] is computed as an [int] and compared with, stored in and passed
    on as an unsigned size. *)
Definition pregCopyToReturnBuffer (p : preg_s) (s : option block) (l : Z)
  : M (Z * preg_s) :=
  let need := to_ulong (wrap32 (l + 1)) in
  grown <-
    (if need >? return_buffer_size p then
       newbuf <- malloc need ;;
       match newbuf with
       | None => emit EvStderr ;; ret None
       | Some nb =>
         free (return_buffer p) ;;
         ret (Some (set_return_buffer_size (set_return_buffer p (Some nb)) need))
       end
     else ret (Some p)) ;;
  match grown with
  | None => ret (-1, p)
  | Some p1 =>
    match return_buffer p1, s with
    | Some (ba, buf), Some (_, src) =>
      if (0 <=? l) && (l <=? Z.of_nat (List.length src)) then
        buf1 <- stored (store_bytes buf (firstn (Z.to_nat l) src)) ;;
        buf2 <- stored (store_at buf1 (Z.to_nat l) NUL) ;;
        ret (l, set_return_buffer p1 (Some (ba, buf2)))
      else fault
    | _, _ => fault
    end
  end.

(** What pregMoveToReturnValues leaves behind: the returned pointer (the
    address of the return buffer, or NULL), [*length], [*is_null], [*error]
    and [initid]. *)
Record moved : Type := mkMoved {
  mv_ret : option addr;
  mv_length : Z;
  mv_is_null : Z;
  mv_error : Z;
  mv_initid : UDF_INIT
}.

(** [pregMoveToReturnValues(initid, length, is_null, error, s, s_len)];
    [is_null0] is what [*is_null] holds on entry. *)
Definition pregMoveToReturnValues (i : UDF_INIT) (is_null0 : Z)
    (s : option block) (s_len : Z) : M moved :=
  match ptr i with
  | None => fault
  | Some (ca, p) =>
    match return_buffer p with
    | None => fault
    | Some (ba, buf) =>
      buf0 <- stored (poke0 buf NUL) ;;
      let p0 := set_return_buffer p (Some (ba, buf0)) in
      let is_null1 := if negb (maybe_null i =? 0) then 1 else is_null0 in
      '(p1, len, is_null, error) <-
        (if s_len >=? 0 then
           if is_some s then
             '(l, p1) <- pregCopyToReturnBuffer p0 s s_len ;;
             free s ;;
             if l >=? 0 then ret (p1, to_ulong l, 0, 0)
             else ret (p1, 0, is_null1, 1)
           else ret (p0, 0, 0, 0)
         else
           emit (EvLog s_len) ;;
           ret (p0, 0, is_null1, 1)) ;;
      ret (mkMoved (if negb (is_null =? 0) then None
                    else option_map fst (return_buffer p1))
                   len is_null error (set_ptr i (Some (ca, p1))))
    end
  end.

(** ** lib_mysqludf_preg_check.c *)

(** [preg_check_init(initid, args, message)]. *)
Definition preg_check_init (i : UDF_INIT) (a : UDF_ARGS) (message : list byte)
  : M (Z * UDF_INIT * UDF_ARGS * list byte) :=
  if negb (arg_count a =? 1) then
    m <- stored (strncpy message
                   (cstr "preg_check: needs exactly one argument")
                   MYSQL_ERRMSG_SIZE) ;;
    ret (1, i, a, m)
  else
    '(_, i', a', m) <- pregInit (set_maybe_null i 0) a message ;;
    ret (0, i', a', m).

End Preg.

Arguments mkPreg {pcre}.
Arguments re {pcre}.
Arguments constant_pattern {pcre}.
Arguments return_buffer {pcre}.
Arguments return_buffer_size {pcre}.
Arguments mkInit {pcre}.
Arguments maybe_null {pcre}.
Arguments max_length {pcre}.
Arguments ptr {pcre}.
Arguments mkMoved {pcre}.
Arguments mv_ret {pcre}.
Arguments mv_length {pcre}.
Arguments mv_is_null {pcre}.
Arguments mv_error {pcre}.
Arguments mv_initid {pcre}.
Arguments set_ptr {pcre}.
Arguments set_re {pcre}.
Arguments set_return_buffer {pcre}.
Arguments set_return_buffer_size {pcre}.
Arguments set_constant_pattern {pcre}.
Arguments set_maybe_null {pcre}.
Arguments destroyPtrInfo {pcre}.
Arguments pregDeInit {pcre}.
Arguments pregCopyToReturnBuffer {pcre}.
Arguments pregMoveToReturnValues {pcre}.
Arguments pregCompileRegexArg {pcre}.
Arguments initPtrInfo {pcre}.
Arguments pregCreateOffsetsVector {pcre}.
Arguments pregInit {pcre}.
Arguments preg_check_init {pcre}.
Arguments init_return_buffer {pcre}.
Arguments compile {pcre}.
Arguments pregSkipToOccurence {pcre}.
Arguments skip_loop {pcre}.

(** ** Ownership *)

(** The addresses a call context owns, in the order pregDeInit gives them
    back: the compiled pattern, the return buffer, the context block. *)
Definition owned_preg {pcre : Type} (p : preg_s pcre) : list addr :=
  match re p with Some (a, _) => [a] | None => [] end ++
  match return_buffer p with Some (a, _) => [a] | None => [] end.

Definition owned {pcre : Type} (i : UDF_INIT pcre) : list addr :=
  match ptr i with
  | Some (ca, p) => owned_preg p ++ [ca]
  | None => []
  end.

Definition context_block {pcre : Type} (i : UDF_INIT pcre) : list addr :=
  match ptr i with
  | Some (ca, _) => [ca]
  | None => []
  end.

(** Every owned block is live, and no two of them are the same block. *)
Definition wf_init {pcre : Type} (i : UDF_INIT pcre) (w : world) : Prop :=
  NoDup (owned i) /\ forall a, In a (owned i) -> In a (w_live w).

(** The return buffer is there, live, and as large as the context says. *)
Definition wf_buffer {pcre : Type} (p : preg_s pcre) (w : world) : Prop :=
  match return_buffer p with
  | Some (ba, buf) =>
    In ba (w_live w) /\ Z.of_nat (List.length buf) = return_buffer_size p /\
    1 <= return_buffer_size p
  | None => False
  end.

(** The allocator has not handed out any address from [w_next] on. *)
Definition wf_world (w : world) : Prop :=
  forall a, In a (w_live w) -> (a < w_next w)%nat.

(** ** A stand-in engine for running the code on concrete inputs

    A pattern is a literal between two [/] delimiters; it matches where the
    literal first occurs, and declares one group per opening parenthesis. *)
Module Toy.

Definition pcre : Type := list byte.

Definition slash : byte := x2f.
Definition paren : byte := x28.

Fixpoint until_slash (l : list byte) : option (list byte) :=
  match l with
  | [] => None
  | c :: r =>
    if Byte.eqb c slash then Some []
    else option_map (cons c) (until_slash r)
  end.

Definition diagnose (msg : list byte) (msglen : Z) : list byte :=
  match strncpy msg (cstr "No ending delimiter") (to_ulong msglen) with
  | Some m => m
  | None => msg
  end.

Definition compileRegex (val : list byte) (len : Z) (msg : list byte)
    (msglen : Z) : option pcre * list byte :=
  match val with
  | c :: r =>
    if Byte.eqb c slash then
      match until_slash r with
      | Some lit => (Some lit, msg)
      | None => (None, diagnose msg msglen)
      end
    else (None, diagnose msg msglen)
  | [] => (None, diagnose msg msglen)
  end.

Fixpoint starts_with (needle hay : list byte) : bool :=
  match needle, hay with
  | [], _ => true
  | _ :: _, [] => false
  | c :: n', d :: h' => Byte.eqb c d && starts_with n' h'
  end.

Fixpoint find (needle hay : list byte) (at_ : Z) : option Z :=
  if starts_with needle hay then Some at_
  else
    match hay with
    | [] => None
    | _ :: h' => find needle h' (at_ + 1)
    end.

(** PCRE_ERROR_NOMATCH is -1. *)
Definition pcre_exec (r : pcre) (subject : list byte) (off len : Z)
    (ovector : list Z) (oveccount : Z) : Z * list Z :=
  let window := firstn (Z.to_nat len) (skipn (Z.to_nat off) subject) in
  match find r window 0 with
  | Some s => (1, s :: s + Z.of_nat (List.length r) :: skipn 2 ovector)
  | None => (-1, ovector)
  end.

Definition pcre_fullinfo_capturecount (r : pcre) : Z * Z :=
  (0, Z.of_nat (List.length (filter (Byte.eqb paren) r))).

Definition ghargIsNullConstant (a : UDF_ARGS) (i : nat) : bool := false.

(** An empty world whose allocator grants what [oracle] says. *)
Definition world0 (oracle : list bool) : world :=
  mkWorld 0%nat [] oracle xff [].

(** A host call passing one constant string argument. *)
Definition one_arg (s : string) : UDF_ARGS :=
  mkArgs 1 [STRING_RESULT] [Some (cstr s)] [Z.of_nat (List.length (cstr s))].

(** A host call passing a constant pattern and a subject. *)
Definition two_args (pattern subject : string) : UDF_ARGS :=
  mkArgs 2 [STRING_RESULT; STRING_RESULT]
         [Some (cstr pattern); Some (cstr subject)]
         [Z.of_nat (List.length (cstr pattern));
          Z.of_nat (List.length (cstr subject))].

(** A host call passing one constant string argument, in a type array that
    has room for a second entry. *)
Definition one_arg_spare (s : string) : UDF_ARGS :=
  mkArgs 1 [STRING_RESULT; STRING_RESULT] [Some (cstr s)]
         [Z.of_nat (List.length (cstr s))].

(** The host's message buffer. *)
Definition message : list byte := repeat NUL (Z.to_nat MYSQL_ERRMSG_SIZE).

End Toy.

(** ** Worlds reached by the allocator *)

(** The world after a granted request, after a refused one, and after a block
    was given back. *)
Definition granted (w : world) : world :=
  mkWorld (S (w_next w)) (w_next w :: w_live w) (tl (w_oracle w)) (w_fill w)
          (w_trace w).

Definition refused (w : world) : world :=
  mkWorld (w_next w) (w_live w) (tl (w_oracle w)) (w_fill w) (w_trace w).

Definition logged (w : world) (es : list event) : world :=
  mkWorld (w_next w) (w_live w) (w_oracle w) (w_fill w) (w_trace w ++ es).

Definition released (w : world) (a : addr) : world :=
  mkWorld (w_next w) (filter (fun b => negb (Nat.eqb a b)) (w_live w))
          (w_oracle w) (w_fill w) (w_trace w).

(** compileRegex keeps to the message buffer it was given, for a size that
    is a non-negative [int]: the object keeps its extent and every byte from
    index [msglen] on. *)
Definition compile_bounded {pcre : Type}
    (compileRegex : list byte -> Z -> list byte -> Z -> option pcre * list byte)
  : Prop :=
  forall val len msg msglen,
    0 <= msglen <= INT_MAX ->
    List.length (snd (compileRegex val len msg msglen)) = List.length msg /\
    skipn (Z.to_nat msglen) (snd (compileRegex val len msg msglen))
    = skipn (Z.to_nat msglen) msg.

(** The capacity pregInit settles on: the expression of its last [if]. *)
Definition init_size {pcre : Type} (i : UDF_INIT pcre) : Z :=
  if wrap32 (max_length i) >? 0 then to_ulong (max_length i + 1) else 1024000.

(** The block of a compiled pattern, if there is one. *)
Definition pattern_block {pcre : Type} (r : pcre_ptr pcre) : list addr :=
  match r with
  | Some (ra, _) => [ra]
  | None => []
  end.

(** ** The rest of preg.c and of lib_mysqludf_preg_check.c *)

(** Conversion to a 32-bit [unsigned int] and to a 64-bit [longlong]. *)
Definition to_uint (z : Z) : Z := z mod 4294967296.

Definition to_longlong (z : Z) : Z :=
  (z + 9223372036854775808) mod 18446744073709551616 - 9223372036854775808.

(** The number a run of bytes spells, least significant byte first (the host
    is little-endian), and the [n] bytes that spell a number. *)
Fixpoint le_value (bs : list byte) : Z :=
  match bs with
  | [] => 0
  | b :: rest => Z.of_N (Byte.to_N b) + 256 * le_value rest
  end.

Fixpoint le_bytes (n : nat) (z : Z) : list byte :=
  match n with
  | O => []
  | S n' =>
    match Byte.of_N (Z.to_N (z mod 256)) with
    | Some b => b :: le_bytes n' (z / 256)
    | None => x00 :: le_bytes n' (z / 256)
    end
  end.

(** A [longlong] read through a [char] pointer: the eight bytes there;
    reading a shorter object runs past it. *)
Definition read_longlong (bs : list byte) : option Z :=
  if (8 <=? List.length bs)%nat
  then Some (to_longlong (le_value (firstn 8 bs)))
  else None.

Definition is_INT_RESULT (t : Item_result) : bool :=
  match t with
  | INT_RESULT => true
  | _ => false
  end.

(** Two heaps holding the same blocks. *)
Definition same_blocks (l l' : list addr) : Prop :=
  forall x, In x l <-> In x l'.

Section PregRest.

Variable pcre : Type.
Variable compileRegex :
  list byte -> Z -> list byte -> Z -> option pcre * list byte.

(** [pcre_get_stringnumber(re, name)]: the number of the named group, or a
    negative code. *)
Variable pcre_get_stringnumber : pcre -> list byte -> Z.

Variable ghargIsNullConstant : UDF_ARGS -> nat -> bool.
Variable GH_1_0_NULL_HANDLING : bool.

(** [pregGetGroupNum(re, args, argnum)].  [argnum] is compared with the
    unsigned [arg_count] and selects the type looked at; the value is always
    taken from argument 2, as in the source.  An [arg_type] entry the host
    did not fill reads as a string type. *)
Definition pregGetGroupNum (r : pcre) (a : UDF_ARGS) (argnum : Z) : M Z :=
  if to_uint argnum >=? arg_count a then ret 0
  else if is_INT_RESULT (nth (Z.to_nat argnum) (arg_type a) STRING_RESULT) then
    match arg_at a 2 with
    | None => fault
    | Some bytes =>
      v <- stored (read_longlong bytes) ;;
      ret (wrap32 v)
    end
  else
    group <- ghargdup a 2 ;;
    match group with
    | None => emit EvStderr ;; ret (-1)
    | Some (_, name) =>
      let groupnum := pcre_get_stringnumber r name in
      free group ;;
      ret groupnum
    end.

(** [preg_check(initid, args, is_null, error)]: the return value and
    [*is_null], which holds [is_null0] on entry; [*error] is never written.
    [msg] is the local [char msg[255]], holding whatever the stack held. *)
Definition preg_check (i : UDF_INIT pcre) (a : UDF_ARGS) (is_null0 : Z)
  : M (Z * Z) :=
  if negb GH_1_0_NULL_HANDLING && ghargIsNullConstant a 0 then ret (0, 1)
  else if is_some (arg_at a 0) && negb (length_at a 0 =? 0) then
    c <- fill_byte ;;
    '(r, _) <- pregCompileRegexArg compileRegex a (repeat c 255) 255 ;;
    if is_some r then pcre_free r ;; ret (1, is_null0)
    else ret (0, is_null0)
  else ret (0, is_null0).

(** [preg_check_deinit(initid)]. *)
Definition preg_check_deinit (i : UDF_INIT pcre) : M (UDF_INIT pcre) :=
  pregDeInit i.

End PregRest.

Arguments pregGetGroupNum {pcre}.
Arguments preg_check {pcre}.
Arguments preg_check_deinit {pcre}.

(** An attempt made on a subject of length [subject_len]: it starts no later
    than the end and is given what is left from there. *)
Definition in_subject (subject_len : Z) (attempt : Z * Z) : Prop :=
  fst attempt <= subject_len /\
  snd attempt = wrap32 (subject_len - fst attempt).

(** An engine that, when it reports a match, leaves at least the two offsets
    of the whole match in the vector. *)
Definition fills_vector {pcre : Type}
    (pcre_exec : pcre -> list byte -> Z -> Z -> list Z -> Z -> Z * list Z)
  : Prop :=
  forall r subject off len ov oveccount,
    0 < fst (pcre_exec r subject off len ov oveccount) ->
    (2 <= List.length (snd (pcre_exec r subject off len ov oveccount)))%nat.

(** The block of a buffer, if there is one. *)
Definition buffer_block (b : option block) : list addr :=
  match b with
  | Some (ba, _) => [ba]
  | None => []
  end.

(** [*is_null] after pregMoveToReturnValues has set its defaults, and the
    pointer returned on a path that leaves it there. *)
Definition is_null_default {pcre : Type} (i : UDF_INIT pcre) (is_null0 : Z) : Z :=
  if negb (maybe_null i =? 0) then 1 else is_null0.

Definition ret_default {pcre : Type} (i : UDF_INIT pcre) (is_null0 : Z)
    (ba : addr) : option addr :=
  if negb (is_null_default i is_null0 =? 0) then None else Some ba.

(** A source string that can be handed to pregMoveToReturnValues: NULL, or a
    live block other than the return buffer that holds [s_len] bytes. *)
Definition source_ok (s : option block) (s_len : Z) (ba : addr) (w : world)
  : Prop :=
  match s with
  | Some (sa, src) =>
    In sa (w_live w) /\ sa <> ba /\ s_len <= Z.of_nat (List.length src)
  | None => True
  end.

(** * Properties *)

(** ** Machine integers *)

Lemma wrap32_id (z : Z) : INT_MIN <= z <= INT_MAX -> wrap32 z = z.
Proof.
  unfold wrap32, INT_MIN, INT_MAX. intros H.
  rewrite Z.mod_small by lia. lia.
Qed.

Lemma wrap32_range (z : Z) : INT_MIN <= wrap32 z <= INT_MAX.
Proof.
  unfold wrap32, INT_MIN, INT_MAX.
  pose proof (Z.mod_pos_bound (z + 2147483648) 4294967296 eq_refl). lia.
Qed.

Lemma to_ulong_id (z : Z) : 0 <= z < 18446744073709551616 -> to_ulong z = z.
Proof. unfold to_ulong. intros H. now apply Z.mod_small. Qed.

(** ** Occurrence walker *)

Section WalkerFacts.

Variable pcre : Type.
Variable pcre_exec : pcre -> list byte -> Z -> Z -> list Z -> Z -> Z * list Z.

(** With [occurence] calls' worth of fuel and one more, the loop comes to its
    end: the counter reaches zero first. *)
Lemma skip_loop_enough_fuel (fuel : nat) :
  forall r subject subject_len oveccount occurence off ex rcv ov att,
    0 <= occurence <= INT_MAX ->
    (Z.to_nat occurence < fuel)%nat ->
    skip_loop pcre_exec fuel r subject subject_len oveccount
              occurence off ex rcv ov att <> Timeout.
Proof.
  induction fuel as [|fuel IH]; intros r subject subject_len oveccount
    occurence off ex rcv ov att Hocc Hfuel; [lia|].
  cbn [skip_loop].
  destruct (occurence =? 0) eqn:E0; [discriminate|].
  apply Z.eqb_neq in E0.
  destruct (negb (off <=? subject_len)); [discriminate|].
  destruct (pcre_exec r subject off (wrap32 (subject_len - off)) ov oveccount)
    as [rc ov'].
  destruct (rc <=? 0); [discriminate|].
  destruct (nth_error ov' 1); [|discriminate].
  assert (Hdec : wrap32 (occurence - 1) = occurence - 1).
  { apply wrap32_id. unfold INT_MIN, INT_MAX in *. lia. }
  rewrite Hdec. apply IH; unfold INT_MAX in *; lia.
Qed.

(** Every call the loop makes adds one attempt, and no attempt is made once
    the counter is zero. *)
Lemma skip_loop_attempts (fuel : nat) :
  forall r subject subject_len oveccount occurence off ex rcv ov att
         ex' rcv' ov' att',
    0 <= occurence <= INT_MAX ->
    skip_loop pcre_exec fuel r subject subject_len oveccount
              occurence off ex rcv ov att = Ok (ex', rcv', ov', att') ->
    exists more, att' = att ++ more /\
                 Z.of_nat (List.length more) <= occurence.
Proof.
  induction fuel as [|fuel IH]; intros r subject subject_len oveccount
    occurence off ex rcv ov att ex' rcv' ov' att' Hocc Hrun; [discriminate|].
  cbn [skip_loop] in Hrun.
  destruct (occurence =? 0) eqn:E0.
  { inversion Hrun; subst. exists []. rewrite app_nil_r. split; [reflexivity|simpl; lia]. }
  apply Z.eqb_neq in E0.
  destruct (negb (off <=? subject_len)).
  { inversion Hrun; subst. exists []. rewrite app_nil_r. split; [reflexivity|simpl; lia]. }
  destruct (pcre_exec r subject off (wrap32 (subject_len - off)) ov oveccount)
    as [rc ov1].
  destruct (rc <=? 0).
  { inversion Hrun; subst. eexists. split; [reflexivity|]. simpl. lia. }
  destruct (nth_error ov1 1); [|discriminate].
  assert (Hdec : wrap32 (occurence - 1) = occurence - 1).
  { apply wrap32_id. unfold INT_MIN, INT_MAX in *. lia. }
  rewrite Hdec in Hrun.
  apply IH in Hrun; [|unfold INT_MAX in *; lia].
  destruct Hrun as [more [-> Hlen]].
  exists ((off, wrap32 (subject_len - off)) :: more).
  rewrite <- app_assoc. split; [reflexivity|].
  simpl List.length. lia.
Qed.

(** Whatever the loop did, a caller that passed a cell for [rc] gets
    [ex_subject] back, not NULL. *)
Lemma walker_returns_ex_subject :
  forall fuel r subject subject_len ov oveccount occurence rcv out,
    pregSkipToOccurence pcre_exec fuel r subject subject_len ov oveccount
                        occurence (Some rcv) = Ok out ->
    exists off, wk_ret out = Some off.
Proof.
  intros fuel r subject subject_len ov oveccount occurence rcv out.
  unfold pregSkipToOccurence.
  destruct (skip_loop pcre_exec fuel r subject subject_len oveccount
                      occurence 0 0 rcv ov []) as [[[[ex rcv'] ov'] att]| |];
    try discriminate.
  intros H. inversion H; subst. simpl. eauto.
Qed.

End WalkerFacts.

(** C1 (the code departs from the claim).  With [occurence = 0] and a cell
    for [rc], the walker makes no match attempt and leaves [*rc] and the
    vector alone, but it returns [subject] itself, not NULL: the closing test
    [if( rc > 0 )] looks at the pointer [rc], which is not NULL, where the
    result code [*rc] was meant.  This holds for every engine, pattern,
    subject and vector. *)
Theorem walker_occurence_zero_returns_subject :
  forall (pcre : Type)
         (pcre_exec : pcre -> list byte -> Z -> Z -> list Z -> Z -> Z * list Z)
         (fuel : nat) (r : pcre) (subject : list byte) (subject_len : Z)
         (ovector : list Z) (oveccount rcv : Z),
    pregSkipToOccurence pcre_exec (S fuel) r subject subject_len
                        ovector oveccount 0 (Some rcv)
    = Ok (mkWalk (Some 0) (Some rcv) ovector []).
Proof. intros. reflexivity. Qed.

(** C2 (the code departs from the claim).  The walker does stop at the first
    attempt that yields no match or an error, and [ex_subject] is where the
    last successful attempt started; but what it returns after a failed
    attempt is still [ex_subject], never NULL, for the same reason as in C1.
    For every engine: a walker that was given a cell for [rc] and returns,
    returns a non-NULL pointer; and when the very first attempt fails (the
    subject holds no match at all, [occurence] is not 0) it stops after that
    one attempt with the engine's code in [*rc] and returns [subject].  On
    the subject [a,b], which holds one comma, the second occurrence of [,] is
    answered with [subject + 0] and [*rc = -1]; on [abc], which holds none,
    the first occurrence is answered with [subject] as well. *)
Theorem walker_past_last_match_not_null :
  (forall (pcre : Type)
          (pcre_exec : pcre -> list byte -> Z -> Z -> list Z -> Z -> Z * list Z)
          (fuel : nat) (r : pcre) (subject : list byte) (subject_len : Z)
          (ovector : list Z) (oveccount occurence rcv : Z),
      match pregSkipToOccurence pcre_exec fuel r subject subject_len
                                ovector oveccount occurence (Some rcv) with
      | Ok out => is_some (wk_ret out) = true
      | Fault => True
      | Timeout => True
      end) /\
  (forall (pcre : Type)
          (pcre_exec : pcre -> list byte -> Z -> Z -> list Z -> Z -> Z * list Z)
          (fuel : nat) (r : pcre) (subject : list byte) (subject_len : Z)
          (ovector : list Z) (oveccount occurence rcv : Z),
      let '(code, ov) :=
        pcre_exec r subject 0 (wrap32 (subject_len - 0)) ovector oveccount in
      if (code <=? 0) && negb (occurence =? 0) && (0 <=? subject_len)
      then pregSkipToOccurence pcre_exec (S fuel) r subject subject_len
                               ovector oveccount occurence (Some rcv)
           = Ok (mkWalk (Some 0) (Some code) ov
                        [(0, wrap32 (subject_len - 0))])
      else True) /\
  pregSkipToOccurence Toy.pcre_exec 3 (cstr ",") (cstr "a,b") 3
                      [0; 0; 0] 3 2 (Some 0)
  = Ok (mkWalk (Some 0) (Some (-1)) [1; 2; 0] [(0, 3); (2, 1)]) /\
  pregSkipToOccurence Toy.pcre_exec 2 (cstr ",") (cstr "abc") 3
                      [0; 0; 0] 3 1 (Some 0)
  = Ok (mkWalk (Some 0) (Some (-1)) [0; 0; 0] [(0, 3)]).
Proof.
  split; [|split; [|split; reflexivity]].
  - intros pcre pcre_exec fuel r subject subject_len ovector oveccount
           occurence rcv.
    destruct (pregSkipToOccurence pcre_exec fuel r subject subject_len ovector
                                  oveccount occurence (Some rcv))
      as [out| |] eqn:E; trivial.
    apply walker_returns_ex_subject in E. destruct E as [off ->]. reflexivity.
  - intros pcre pcre_exec fuel r subject subject_len ovector oveccount
           occurence rcv.
    destruct (pcre_exec r subject 0 (wrap32 (subject_len - 0)) ovector oveccount)
      as [code ov] eqn:Hexec.
    destruct (code <=? 0) eqn:Hcode; cbn [andb]; trivial.
    destruct (occurence =? 0) eqn:Hocc; cbn [andb negb]; trivial.
    destruct (0 <=? subject_len) eqn:Hlen; trivial.
    unfold pregSkipToOccurence. cbn [skip_loop].
    rewrite Hocc, Hlen. cbn [negb]. rewrite Hexec, Hcode. reflexivity.
Qed.

(** ** The allocator *)

Lemma alloc_granted (w : world) :
  hd true (w_oracle w) = true -> alloc w = Ok (Some (w_next w), granted w).
Proof.
  unfold alloc, granted. destruct (w_oracle w) as [|[|] rest]; simpl;
    intros H; try reflexivity; discriminate.
Qed.

Lemma alloc_refused (w : world) :
  hd true (w_oracle w) = false -> alloc w = Ok (None, refused w).
Proof.
  unfold alloc, refused. destruct (w_oracle w) as [|[|] rest]; simpl;
    intros H; try reflexivity; discriminate.
Qed.

Lemma malloc_granted (n : Z) (w : world) :
  hd true (w_oracle w) = true ->
  malloc n w = Ok (Some (w_next w, repeat (w_fill w) (Z.to_nat n)),
                   logged (granted w) [EvMalloc n (Some (w_next w))]).
Proof.
  intros H. unfold malloc, malloc_raw, bind. rewrite (alloc_granted w H).
  reflexivity.
Qed.

Lemma malloc_refused (n : Z) (w : world) :
  hd true (w_oracle w) = false ->
  malloc n w = Ok (None, logged (refused w) [EvMalloc n None]).
Proof.
  intros H. unfold malloc, malloc_raw, bind. rewrite (alloc_refused w H).
  reflexivity.
Qed.

Lemma existsb_eqb_In (a : addr) (l : list addr) :
  In a l -> existsb (Nat.eqb a) l = true.
Proof.
  intros H. apply existsb_exists. exists a. split; [exact H|].
  apply Nat.eqb_refl.
Qed.

Lemma release_live (a : addr) (w : world) :
  In a (w_live w) -> release a w = Ok (tt, released w a).
Proof.
  intros H. unfold release. rewrite (existsb_eqb_In a _ H). reflexivity.
Qed.

Lemma free_live {A : Type} (a : addr) (x : A) (w : world) :
  In a (w_live w) ->
  free (Some (a, x)) w = Ok (tt, logged (released w a) [EvFree a]).
Proof.
  intros H. unfold free, bind. rewrite (release_live a w H). reflexivity.
Qed.

Lemma pcre_free_live {A : Type} (a : addr) (x : A) (w : world) :
  In a (w_live w) ->
  pcre_free (Some (a, x)) w = Ok (tt, logged (released w a) [EvPcreFree a]).
Proof.
  intros H. unfold pcre_free, bind. rewrite (release_live a w H). reflexivity.
Qed.

Lemma released_live (w : world) (a b : addr) :
  In b (w_live (released w a)) <-> In b (w_live w) /\ a <> b.
Proof.
  unfold released. simpl. rewrite filter_In, negb_true_iff, Nat.eqb_neq.
  reflexivity.
Qed.

Lemma freed_app (t u : list event) : freed (t ++ u) = freed t ++ freed u.
Proof. unfold freed. apply flat_map_app. Qed.

(** ** Buffers *)

(** Copying [pre] to the front of a longer buffer and terminating it. *)
Lemma copy_then_terminate (pre buf : list byte) :
  (List.length pre < List.length buf)%nat ->
  store_bytes buf pre = Some (pre ++ skipn (List.length pre) buf) /\
  store_at (pre ++ skipn (List.length pre) buf) (List.length pre) NUL
  = Some (pre ++ NUL :: skipn (S (List.length pre)) buf).
Proof.
  intros H. split.
  - unfold store_bytes.
    destruct (Nat.leb_spec (List.length pre) (List.length buf)); [reflexivity|lia].
  - unfold store_at.
    assert (Hlen : List.length (pre ++ skipn (List.length pre) buf)
                   = List.length buf).
    { rewrite length_app, length_skipn. lia. }
    rewrite Hlen.
    destruct (Nat.ltb_spec (List.length pre) (List.length buf)); [|lia].
    rewrite firstn_app, Nat.sub_diag, firstn_all. simpl firstn.
    rewrite app_nil_r.
    replace (S (List.length pre)) with (List.length pre + 1)%nat by lia.
    rewrite skipn_app.
    replace (List.length pre + 1 - List.length pre)%nat with 1%nat by lia.
    rewrite skipn_all2 by lia. rewrite app_nil_l.
    rewrite skipn_skipn.
    replace (1 + List.length pre)%nat with (List.length pre + 1)%nat by lia.
    reflexivity.
Qed.

Lemma skipn_repeat_all {A : Type} (c : A) (n : nat) : skipn n (repeat c n) = [].
Proof. apply skipn_all2. rewrite repeat_length. lia. Qed.

(** ** Output materializer *)

Lemma need_exact (l : Z) :
  0 <= l < INT_MAX -> to_ulong (wrap32 (l + 1)) = l + 1.
Proof.
  intros H. rewrite wrap32_id by (unfold INT_MIN, INT_MAX in *; lia).
  apply to_ulong_id. unfold INT_MAX in *. lia.
Qed.

Lemma firstn_src_length (src : list byte) (l : Z) :
  0 <= l -> l <= Z.of_nat (List.length src) ->
  List.length (firstn (Z.to_nat l) src) = Z.to_nat l.
Proof. intros H0 H1. rewrite length_firstn. lia. Qed.

Section CopyFacts.

Variable pcre : Type.
Implicit Types (p : preg_s pcre) (w : world).

(** The buffer is too small and the allocator grants the request. *)
Lemma copy_grows p sa src l w ba buf :
  return_buffer p = Some (ba, buf) ->
  In ba (w_live w) ->
  0 <= l < INT_MAX ->
  l <= Z.of_nat (List.length src) ->
  return_buffer_size p < l + 1 ->
  hd true (w_oracle w) = true ->
  pregCopyToReturnBuffer p (Some (sa, src)) l w
  = Ok ((l, mkPreg (re p) (constant_pattern p)
                   (Some (w_next w, firstn (Z.to_nat l) src ++ [NUL])) (l + 1)),
        logged (released (logged (granted w) [EvMalloc (l + 1) (Some (w_next w))])
                         ba)
               [EvFree ba]).
Proof.
  intros Hbuf Hlive Hl Hsrc Hsmall Hgrant.
  unfold pregCopyToReturnBuffer. rewrite (need_exact l Hl).
  destruct (Z.gtb_spec (l + 1) (return_buffer_size p)) as [_|]; [|lia].
  unfold bind at 1. unfold bind at 1.
  rewrite (malloc_granted _ w Hgrant).
  rewrite Hbuf. unfold bind at 1.
  rewrite free_live by (simpl; right; exact Hlive).
  unfold ret at 1. cbn [return_buffer set_return_buffer set_return_buffer_size].
  assert (Hin : (0 <=? l) && (l <=? Z.of_nat (List.length src)) = true).
  { apply andb_true_intro. split; apply Z.leb_le; lia. }
  rewrite Hin.
  pose proof (firstn_src_length src l (proj1 Hl) Hsrc) as Hpre.
  destruct (copy_then_terminate (firstn (Z.to_nat l) src)
              (repeat (w_fill w) (Z.to_nat (l + 1)))) as [Hs1 Hs2].
  { rewrite Hpre, repeat_length. lia. }
  rewrite Hpre in Hs2.
  unfold bind, stored. rewrite Hs1. unfold ret at 1. rewrite Hpre, Hs2.
  unfold ret.
  replace (Z.to_nat (l + 1)) with (S (Z.to_nat l)) by lia.
  rewrite skipn_repeat_all. reflexivity.
Qed.

(** The buffer is too small and the allocator refuses. *)
Lemma copy_refused p s l w :
  0 <= l < INT_MAX ->
  return_buffer_size p < l + 1 ->
  hd true (w_oracle w) = false ->
  pregCopyToReturnBuffer p s l w
  = Ok ((-1, p), logged (logged (refused w) [EvMalloc (l + 1) None]) [EvStderr]).
Proof.
  intros Hl Hsmall Hrefuse.
  unfold pregCopyToReturnBuffer. rewrite (need_exact l Hl).
  destruct (Z.gtb_spec (l + 1) (return_buffer_size p)) as [_|]; [|lia].
  unfold bind at 1. unfold bind at 1.
  rewrite (malloc_refused _ w Hrefuse). reflexivity.
Qed.

(** The buffer is large enough. *)
Lemma copy_fits p sa src l w ba buf :
  return_buffer p = Some (ba, buf) ->
  Z.of_nat (List.length buf) = return_buffer_size p ->
  0 <= l < INT_MAX ->
  l <= Z.of_nat (List.length src) ->
  l + 1 <= return_buffer_size p ->
  pregCopyToReturnBuffer p (Some (sa, src)) l w
  = Ok ((l, set_return_buffer p
              (Some (ba, firstn (Z.to_nat l) src
                         ++ NUL :: skipn (S (Z.to_nat l)) buf))), w).
Proof.
  intros Hbuf Hcap Hl Hsrc Hfit.
  unfold pregCopyToReturnBuffer. rewrite (need_exact l Hl).
  destruct (Z.gtb_spec (l + 1) (return_buffer_size p)) as [|_]; [lia|].
  unfold bind at 1. unfold ret at 1. rewrite Hbuf.
  assert (Hin : (0 <=? l) && (l <=? Z.of_nat (List.length src)) = true).
  { apply andb_true_intro. split; apply Z.leb_le; lia. }
  rewrite Hin.
  pose proof (firstn_src_length src l (proj1 Hl) Hsrc) as Hpre.
  destruct (copy_then_terminate (firstn (Z.to_nat l) src) buf) as [Hs1 Hs2].
  { rewrite Hpre. lia. }
  rewrite Hpre in Hs2.
  unfold bind, stored. rewrite Hs1. unfold ret at 1. rewrite Hpre, Hs2.
  unfold ret. reflexivity.
Qed.

End CopyFacts.

(** C4.  A copy of [l >= 0] bytes into the return buffer: when [l + 1] exceeds
    the capacity, [malloc] is asked once, for exactly [l + 1] bytes, and on
    success the new block of [l + 1] bytes replaces the old one and
    [l + 1] becomes the capacity; when it does not, nothing is allocated and
    the capacity stays.  After a successful copy (return value [l]) the buffer
    starts with the [l] copied bytes followed by NUL.  The copy fails (return
    value [-1], context untouched) only when the buffer had to grow and the
    allocator refused. *)
Theorem pregCopyToReturnBuffer_exact_growth :
  forall (pcre : Type) (p : preg_s pcre) (sa : addr) (src : list byte) (l : Z)
         (w : world) (ba : addr) (buf : list byte),
    return_buffer p = Some (ba, buf) ->
    wf_buffer p w ->
    0 <= l < INT_MAX ->
    l <= Z.of_nat (List.length src) ->
    exists r p' w' es,
      pregCopyToReturnBuffer p (Some (sa, src)) l w = Ok ((r, p'), w') /\
      w_trace w' = w_trace w ++ es /\
      malloc_requests es
      = (if return_buffer_size p <? l + 1 then [l + 1] else []) /\
      (r = l \/ r = -1) /\
      (l + 1 <= return_buffer_size p \/ hd true (w_oracle w) = true -> r = l) /\
      (r = -1 -> p' = p) /\
      (r = l ->
       return_buffer_size p'
       = (if return_buffer_size p <? l + 1 then l + 1 else return_buffer_size p) /\
       exists ba' rest,
         return_buffer p'
         = Some (ba', firstn (Z.to_nat l) src ++ NUL :: rest) /\
         Z.of_nat (List.length (firstn (Z.to_nat l) src ++ NUL :: rest))
         = return_buffer_size p').
Proof.
  intros pcre p sa src l w ba buf Hbuf Hwf Hl Hsrc.
  unfold wf_buffer in Hwf. rewrite Hbuf in Hwf. destruct Hwf as [Hlive [Hcap _]].
  pose proof (firstn_src_length src l (proj1 Hl) Hsrc) as Hpre.
  destruct (Z.ltb_spec (return_buffer_size p) (l + 1)) as [Hsmall|Hfit].
  - destruct (hd true (w_oracle w)) eqn:Horacle.
    + eexists _, _, _, _. split.
      { apply (copy_grows pcre p sa src l w ba buf); assumption. }
      split; [simpl; rewrite <- app_assoc; reflexivity|].
      split; [reflexivity|].
      split; [left; reflexivity|].
      split; [reflexivity|].
      split; [intros E; lia|].
      intros _. split; [reflexivity|].
      exists (w_next w), []. split; [reflexivity|].
      rewrite length_app, Hpre. simpl. lia.
    + eexists _, _, _, _. split.
      { apply (copy_refused pcre p (Some (sa, src)) l w); assumption. }
      split; [simpl; rewrite <- app_assoc; reflexivity|].
      split; [reflexivity|].
      split; [right; reflexivity|].
      split; [intros [E|E]; [lia|discriminate]|].
      split; [reflexivity|].
      intros E; lia.
  - eexists _, _, _, []. split.
    { apply (copy_fits pcre p sa src l w ba buf); assumption. }
    split; [rewrite app_nil_r; reflexivity|].
    split; [reflexivity|].
    split; [left; reflexivity|].
    split; [reflexivity|].
    split; [intros E; lia|].
    intros _. split; [reflexivity|].
    exists ba, (skipn (S (Z.to_nat l)) buf). split; [reflexivity|].
    simpl return_buffer_size.
    rewrite length_app, Hpre.
    change (List.length (NUL :: skipn (S (Z.to_nat l)) buf))
      with (S (List.length (skipn (S (Z.to_nat l)) buf))).
    rewrite length_skipn. lia.
Qed.

(** A buffer of four bytes takes the five bytes of [hello]: one request, of
    six bytes, and a capacity of six. *)
Lemma pregCopyToReturnBuffer_exact_growth_witness :
  exists r p' w' es,
    pregCopyToReturnBuffer
      (mkPreg (@None (addr * Toy.pcre)) 0 (Some (1%nat, repeat xff 4)) 4)
      (Some (2%nat, cstr "hello")) 5
      (mkWorld 3%nat [2%nat; 1%nat; 0%nat] [] xff []) = Ok ((r, p'), w') /\
    w_trace w' = [] ++ es /\
    malloc_requests es = [6] /\
    (r = 5 \/ r = -1) /\
    (5 + 1 <= 4 \/ true = true -> r = 5) /\
    (r = -1 -> p' = mkPreg None 0 (Some (1%nat, repeat xff 4)) 4) /\
    (r = 5 ->
     return_buffer_size p' = 6 /\
     exists ba' rest,
       return_buffer p' = Some (ba', cstr "hello" ++ NUL :: rest) /\
       Z.of_nat (List.length (cstr "hello" ++ NUL :: rest))
       = return_buffer_size p').
Proof.
  apply (pregCopyToReturnBuffer_exact_growth Toy.pcre
           (mkPreg None 0 (Some (1%nat, repeat xff 4)) 4)
           2%nat (cstr "hello") 5
           (mkWorld 3%nat [2%nat; 1%nat; 0%nat] [] xff []) 1%nat (repeat xff 4)).
  - reflexivity.
  - unfold wf_buffer. simpl. repeat split; auto; lia.
  - unfold INT_MAX. lia.
  - simpl. lia.
Defined.

Lemma geb_true (a b : Z) : b <= a -> (a >=? b) = true.
Proof. intros H. apply Z.geb_le. exact H. Qed.

Lemma geb_false (a b : Z) : a < b -> (a >=? b) = false.
Proof. intros H. rewrite Z.geb_leb. apply Z.leb_gt. exact H. Qed.

(** C3.  With the return buffer in place: a negative [s_len] sets [*error],
    sets [*is_null] when [initid->maybe_null] is set (and leaves it as it was
    otherwise), writes NUL to the first byte of the buffer and nothing else
    (the rest of its bytes, its address and its capacity stay; nothing is
    allocated or freed, the world only gains the log line); a non-negative
    [s_len] with a NULL [s] gives length 0, [*is_null = 0], [*error = 0] and
    the (emptied) buffer as the value. *)
Theorem pregMoveToReturnValues_negative_and_absent :
  forall (pcre : Type) (i : UDF_INIT pcre) (is_null0 : Z) (s : option block)
         (s_len : Z) (w : world) (ca : addr) (p : preg_s pcre) (ba : addr)
         (b0 : byte) (rest : list byte),
    ptr i = Some (ca, p) ->
    return_buffer p = Some (ba, b0 :: rest) ->
    (s_len < 0 ->
     pregMoveToReturnValues i is_null0 s s_len w
     = Ok (mkMoved
             (if maybe_null i =? 0
              then (if is_null0 =? 0 then Some ba else None)
              else None)
             0
             (if maybe_null i =? 0 then is_null0 else 1)
             1
             (set_ptr i (Some (ca, set_return_buffer p (Some (ba, NUL :: rest))))),
           logged w [EvLog s_len])) /\
    (0 <= s_len -> s = None ->
     pregMoveToReturnValues i is_null0 s s_len w
     = Ok (mkMoved (Some ba) 0 0 0
             (set_ptr i (Some (ca, set_return_buffer p (Some (ba, NUL :: rest))))),
           w)).
Proof.
  intros pcre i is_null0 s s_len w ca p ba b0 rest Hptr Hbuf.
  split.
  - intros Hneg. unfold pregMoveToReturnValues. rewrite Hptr, Hbuf.
    rewrite (geb_false s_len 0 Hneg).
    destruct (maybe_null i =? 0); [destruct (is_null0 =? 0) eqn:E|];
      cbv [bind stored poke0 store_bytes emit ret]; simpl; try rewrite E;
      reflexivity.
  - intros Hpos ->. unfold pregMoveToReturnValues. rewrite Hptr, Hbuf.
    rewrite (geb_true s_len 0 Hpos). reflexivity.
Qed.

(** A nullable context whose buffer holds [abc]: the code -1 empties it and
    reports an error and NULL; length 0 without a string reports an empty
    value. *)
Lemma pregMoveToReturnValues_negative_and_absent_witness :
  pregMoveToReturnValues
    (mkInit 1 3 (Some (0%nat, mkPreg (@None (addr * Toy.pcre)) 0
                                 (Some (1%nat, cstr "abc" ++ [NUL])) 4)))
    0 (Some (2%nat, cstr "xy")) (-1) (mkWorld 3%nat [2; 1; 0]%nat [] xff [])
  = Ok (mkMoved None 0 1 1
          (mkInit 1 3 (Some (0%nat, mkPreg None 0
                                       (Some (1%nat, NUL :: cstr "bc" ++ [NUL])) 4))),
        mkWorld 3%nat [2; 1; 0]%nat [] xff [EvLog (-1)]) /\
  pregMoveToReturnValues
    (mkInit 1 3 (Some (0%nat, mkPreg (@None (addr * Toy.pcre)) 0
                                 (Some (1%nat, cstr "abc" ++ [NUL])) 4)))
    0 None 0 (mkWorld 3%nat [2; 1; 0]%nat [] xff [])
  = Ok (mkMoved (Some 1%nat) 0 0 0
          (mkInit 1 3 (Some (0%nat, mkPreg None 0
                                       (Some (1%nat, NUL :: cstr "bc" ++ [NUL])) 4))),
        mkWorld 3%nat [2; 1; 0]%nat [] xff []).
Proof.
  split.
  - apply (proj1 (pregMoveToReturnValues_negative_and_absent Toy.pcre
                    (mkInit 1 3 (Some (0%nat, mkPreg None 0
                                                 (Some (1%nat, cstr "abc" ++ [NUL])) 4)))
                    0 (Some (2%nat, cstr "xy")) (-1)
                    (mkWorld 3%nat [2; 1; 0]%nat [] xff [])
                    0%nat _ 1%nat _ _ eq_refl eq_refl)).
    lia.
  - apply (proj2 (pregMoveToReturnValues_negative_and_absent Toy.pcre
                    (mkInit 1 3 (Some (0%nat, mkPreg None 0
                                                 (Some (1%nat, cstr "abc" ++ [NUL])) 4)))
                    0 None 0
                    (mkWorld 3%nat [2; 1; 0]%nat [] xff [])
                    0%nat _ 1%nat _ _ eq_refl eq_refl)).
    + lia.
    + reflexivity.
Defined.

Lemma poke0_cons (b0 : byte) (rest : list byte) (c : byte) :
  poke0 (b0 :: rest) c = Some (c :: rest).
Proof. reflexivity. Qed.

(** C9, as the code has it.  With a non-negative [s_len] and a string [s]
    (live, apart from the return buffer, holding at least [s_len] bytes), the
    materializer frees [s] after the copy attempt, as its last free, whether
    the copy succeeded ([*error = 0]) or failed because the buffer could not
    grow ([*error = 1]); afterwards [s] is not live.  With a negative [s_len]
    it frees nothing: [s] is still live and the list of frees is as before. *)
Theorem pregMoveToReturnValues_releases_source :
  forall (pcre : Type) (i : UDF_INIT pcre) (is_null0 : Z) (sa : addr)
         (src : list byte) (s_len : Z) (w : world) (ca : addr)
         (p : preg_s pcre) (ba : addr) (buf : list byte),
    ptr i = Some (ca, p) ->
    return_buffer p = Some (ba, buf) ->
    wf_buffer p w ->
    In sa (w_live w) ->
    sa <> ba ->
    s_len < INT_MAX ->
    s_len <= Z.of_nat (List.length src) ->
    exists out w',
      pregMoveToReturnValues i is_null0 (Some (sa, src)) s_len w = Ok (out, w') /\
      (0 <= s_len ->
       (exists fs, freed (w_trace w') = freed (w_trace w) ++ fs ++ [sa] /\
                   ~ In sa fs) /\
       ~ In sa (w_live w') /\
       (mv_error out = 0 \/
        mv_error out = 1 /\ return_buffer_size p < s_len + 1 /\
        hd true (w_oracle w) = false)) /\
      (s_len < 0 ->
       freed (w_trace w') = freed (w_trace w) /\ w_live w' = w_live w /\
       In sa (w_live w') /\ mv_error out = 1).
Proof.
  intros pcre i is_null0 sa src s_len w ca p ba buf Hptr Hbuf Hwf Hsa Hne
         Hmax Hsrc.
  unfold wf_buffer in Hwf. rewrite Hbuf in Hwf. destruct Hwf as [Hba [Hcap Hone]].
  destruct buf as [|b0 rest]; [simpl in Hcap; lia|].
  unfold pregMoveToReturnValues. rewrite Hptr, Hbuf.
  unfold bind at 1. unfold stored at 1. rewrite poke0_cons. unfold ret at 1.
  set (p0 := set_return_buffer p (Some (ba, NUL :: rest))).
  assert (Hbuf0 : return_buffer p0 = Some (ba, NUL :: rest)) by reflexivity.
  assert (Hcap0 : Z.of_nat (List.length (NUL :: rest)) = return_buffer_size p0)
    by exact Hcap.
  destruct (Z.lt_ge_cases s_len 0) as [Hneg|Hpos].
  - (* negative length: the log line and nothing else *)
    rewrite (geb_false s_len 0 Hneg).
    eexists _, _. split; [reflexivity|]. split; [lia|]. intros _.
    cbn [w_trace w_live logged mv_error]. rewrite freed_app. simpl freed.
    rewrite app_nil_r. repeat split; auto.
  - rewrite (geb_true s_len 0 Hpos). cbn [is_some].
    assert (Hl : 0 <= s_len < INT_MAX) by lia.
    destruct (Z.ltb_spec (return_buffer_size p0) (s_len + 1)) as [Hsmall|Hfit].
    + destruct (hd true (w_oracle w)) eqn:Horacle.
      * (* the buffer grows *)
        unfold bind.
        rewrite (copy_grows pcre p0 sa src s_len w ba (NUL :: rest)
                            Hbuf0 Hba Hl Hsrc Hsmall Horacle).
        rewrite free_live.
        2:{ cbn [w_live logged]. apply released_live. split; [|congruence].
            cbn [w_live logged granted]. right. exact Hsa. }
        rewrite (geb_true s_len 0 Hpos).
        eexists _, _. split; [reflexivity|]. split; [|lia]. intros _.
        cbn [w_trace w_live logged released granted mv_error].
        split; [|split; [|left; reflexivity]].
        -- exists [ba]. rewrite !freed_app. simpl freed.
           rewrite <- !app_assoc. simpl. split; [reflexivity|].
           intros [E|[]]. congruence.
        -- rewrite filter_In, negb_true_iff, Nat.eqb_neq. tauto.
      * (* the buffer cannot grow: the copy fails, the string goes all the same *)
        unfold bind.
        rewrite (copy_refused pcre p0 (Some (sa, src)) s_len w Hl Hsmall Horacle).
        rewrite free_live by (cbn [w_live logged refused]; exact Hsa).
        rewrite (geb_false (-1) 0) by lia.
        eexists _, _. split; [reflexivity|]. split; [|lia]. intros _.
        cbn [w_trace w_live logged released refused mv_error].
        split; [|split; [|right; auto]].
        -- exists []. rewrite !freed_app. simpl freed.
           rewrite !app_nil_r. split; [reflexivity|]. intros [].
        -- rewrite filter_In, negb_true_iff, Nat.eqb_neq. tauto.
    + (* the buffer is large enough *)
      unfold bind.
      rewrite (copy_fits pcre p0 sa src s_len w ba (NUL :: rest)
                         Hbuf0 Hcap0 Hl Hsrc Hfit).
      rewrite free_live by exact Hsa.
      rewrite (geb_true s_len 0 Hpos).
      eexists _, _. split; [reflexivity|]. split; [|lia]. intros _.
      cbn [w_trace w_live logged released mv_error].
      split; [|split; [|left; reflexivity]].
      * exists []. rewrite !freed_app. simpl freed.
        split; [reflexivity|]. intros [].
      * rewrite filter_In, negb_true_iff, Nat.eqb_neq. tauto.
Qed.

(** A four-byte buffer, the five bytes of [hello] and an allocator that
    refuses: the copy fails and [s] is freed all the same. *)
Lemma pregMoveToReturnValues_releases_source_witness :
  exists out w',
    pregMoveToReturnValues
      (mkInit 1 3 (Some (0%nat, mkPreg (@None (addr * Toy.pcre)) 0
                                   (Some (1%nat, repeat xff 4)) 4)))
      0 (Some (2%nat, cstr "hello")) 5
      (mkWorld 3%nat [2; 1; 0]%nat [false] xff []) = Ok (out, w') /\
    (0 <= 5 ->
     (exists fs, freed (w_trace w') = [] ++ fs ++ [2%nat] /\ ~ In 2%nat fs) /\
     ~ In 2%nat (w_live w') /\
     (mv_error out = 0 \/
      mv_error out = 1 /\ 4 < 5 + 1 /\ false = false)) /\
    (5 < 0 ->
     freed (w_trace w') = [] /\ w_live w' = [2; 1; 0]%nat /\
     In 2%nat (w_live w') /\ mv_error out = 1).
Proof.
  apply (pregMoveToReturnValues_releases_source Toy.pcre
           (mkInit 1 3 (Some (0%nat, mkPreg None 0 (Some (1%nat, repeat xff 4)) 4)))
           0 2%nat (cstr "hello") 5
           (mkWorld 3%nat [2; 1; 0]%nat [false] xff [])
           0%nat (mkPreg None 0 (Some (1%nat, repeat xff 4)) 4)
           1%nat (repeat xff 4)).
  - reflexivity.
  - reflexivity.
  - unfold wf_buffer. simpl. repeat split; auto; lia.
  - simpl. auto.
  - discriminate.
  - unfold INT_MAX. lia.
  - simpl. lia.
Defined.

(** C9 as stated fails.  A live string [xy] passed with [s_len = -1]: the
    call frees nothing, and the string is still live afterwards. *)
Lemma source_kept_on_negative_length :
  pregMoveToReturnValues
    (mkInit 1 3 (Some (0%nat, mkPreg (@None (addr * Toy.pcre)) 0
                                 (Some (1%nat, cstr "abc" ++ [NUL])) 4)))
    0 (Some (2%nat, cstr "xy")) (-1) (mkWorld 3%nat [2; 1; 0]%nat [] xff [])
  = Ok (mkMoved None 0 1 1
          (mkInit 1 3 (Some (0%nat, mkPreg None 0
                                       (Some (1%nat, NUL :: cstr "bc" ++ [NUL])) 4))),
        mkWorld 3%nat [2; 1; 0]%nat [] xff [EvLog (-1)]) /\
  freed [EvLog (-1)] = [] /\
  In 2%nat [2; 1; 0]%nat.
Proof. repeat split. simpl. auto. Qed.

(** ** Bounded diagnostics *)

Lemma strncpy_image_length (src : list byte) (n : Z) :
  List.length (strncpy_image src n) = Z.to_nat n.
Proof.
  unfold strncpy_image. rewrite length_app, length_firstn, repeat_length. lia.
Qed.

(** [strncpy] into an object of at least [n] bytes stores exactly [n] bytes
    and leaves every byte from index [n] on as it was. *)
Lemma strncpy_bounded (dst src : list byte) (n : Z) :
  0 <= n <= Z.of_nat (List.length dst) ->
  exists m, strncpy dst src n = Some m /\
            List.length m = List.length dst /\
            skipn (Z.to_nat n) m = skipn (Z.to_nat n) dst /\
            firstn (Z.to_nat n) m = strncpy_image src n.
Proof.
  intros H. unfold strncpy, store_bytes.
  destruct (Z.leb_spec n (Z.of_nat (List.length dst))); [|lia].
  rewrite strncpy_image_length.
  destruct (Nat.leb_spec (Z.to_nat n) (List.length dst)); [|lia].
  eexists. split; [reflexivity|].
  pose proof (strncpy_image_length src n) as Hlen.
  repeat split.
  - rewrite length_app, length_skipn, Hlen. lia.
  - rewrite skipn_app, Hlen, Nat.sub_diag. rewrite skipn_all2 by lia.
    reflexivity.
  - rewrite firstn_app, Hlen, Nat.sub_diag. rewrite firstn_all2 by lia.
    simpl. apply app_nil_r.
Qed.

Lemma msglen_ulong (msglen : Z) : 0 <= msglen <= INT_MAX -> to_ulong msglen = msglen.
Proof. intros H. apply to_ulong_id. unfold INT_MAX in *. lia. Qed.

(** ** Capture scratch allocator *)

(** C5.  For a pattern whose capture count the engine reports as [n] (with
    [3 * (n + 1)] an [int]): on success the vector has [3 * (n + 1)] entries,
    asked of [malloc] as [4 * (3 * (n + 1))] bytes, and [*count] is
    [3 * (n + 1)]; when the engine's query fails or the allocator refuses,
    the result is NULL and [*count] is 0. *)
Theorem pregCreateOffsetsVector_capacity :
  forall (pcre : Type) (pcre_fullinfo_capturecount : pcre -> Z * Z) (r : pcre)
         (msg : list byte) (msglen : Z) (w : world) (rc n : Z),
    pcre_fullinfo_capturecount r = (rc, n) ->
    0 <= n ->
    3 * (n + 1) <= INT_MAX ->
    0 <= msglen <= INT_MAX ->
    msglen <= Z.of_nat (List.length msg) ->
    exists v count m w' es,
      pregCreateOffsetsVector pcre_fullinfo_capturecount r msg msglen w
      = Ok ((v, count, m), w') /\
      w_trace w' = w_trace w ++ es /\
      (0 <= rc -> hd true (w_oracle w) = true ->
       v = Some (w_next w, repeat 0 (Z.to_nat (3 * (n + 1)))) /\
       count = 3 * (n + 1) /\
       m = msg /\
       malloc_requests es = [4 * (3 * (n + 1))]) /\
      (rc < 0 \/ hd true (w_oracle w) = false -> v = None /\ count = 0).
Proof.
  intros pcre fullinfo r msg msglen w rc n Hinfo Hn Hcap Hmsglen Hmsg.
  unfold pregCreateOffsetsVector. rewrite Hinfo.
  rewrite (msglen_ulong msglen Hmsglen).
  assert (Hcount : wrap32 (wrap32 (n + 1) * 3) = 3 * (n + 1)).
  { rewrite (wrap32_id (n + 1)) by (unfold INT_MIN, INT_MAX in *; lia).
    rewrite wrap32_id by (unfold INT_MIN, INT_MAX in *; lia). lia. }
  assert (Hbytes : to_ulong (4 * (3 * (n + 1))) = 4 * (3 * (n + 1))).
  { apply to_ulong_id. unfold INT_MAX in *. lia. }
  rewrite Hcount, Hbytes.
  destruct (Z.ltb_spec rc 0) as [Hfail|Hok].
  - destruct (strncpy_bounded msg
                (cstr "preg: error retrieving information about pattern") msglen)
      as [m [Hm _]]; [lia|].
    unfold bind, stored. rewrite Hm.
    exists None, 0, m, w, []. split; [reflexivity|].
    split; [symmetry; apply app_nil_r|]. split; [lia|]. auto.
  - destruct (hd true (w_oracle w)) eqn:Horacle.
    + unfold bind, malloc_raw, bind. rewrite (alloc_granted w Horacle).
      eexists _, _, _, _, _. split; [reflexivity|].
      split; [reflexivity|]. split; [auto|].
      intros [H|H]; [lia|discriminate].
    + destruct (strncpy_bounded msg (cstr "preg: out of memory") msglen)
        as [m [Hm _]]; [lia|].
      unfold bind, malloc_raw, bind. rewrite (alloc_refused w Horacle).
      cbn [emit ret]. unfold stored. rewrite Hm.
      eexists _, _, _, _, _. split; [reflexivity|].
      split; [reflexivity|]. split; [intros _ H; discriminate|]. auto.
Qed.

(** The stand-in pattern [a(b)(c)] declares two groups: nine entries, 36
    bytes. *)
Lemma pregCreateOffsetsVector_capacity_witness :
  exists v count m w' es,
    pregCreateOffsetsVector Toy.pcre_fullinfo_capturecount (cstr "a(b)(c)")
                            (repeat NUL 64) 64 (Toy.world0 [])
    = Ok ((v, count, m), w') /\
    w_trace w' = [] ++ es /\
    (0 <= 0 -> true = true ->
     v = Some (0%nat, repeat 0 9) /\ count = 9 /\ m = repeat NUL 64 /\
     malloc_requests es = [36]) /\
    (0 < 0 \/ true = false -> v = None /\ count = 0).
Proof.
  apply (pregCreateOffsetsVector_capacity Toy.pcre
           Toy.pcre_fullinfo_capturecount (cstr "a(b)(c)")
           (repeat NUL 64) 64 (Toy.world0 []) 0 2).
  - reflexivity.
  - lia.
  - unfold INT_MAX. lia.
  - unfold INT_MAX. lia.
  - simpl. lia.
Defined.

(** ** Pattern compiler entry *)

Lemma ghargdup_absent (a : UDF_ARGS) (w : world) :
  arg_at a 0 = None \/ length_at a 0 = 0 -> ghargdup a 0 w = Ok (None, w).
Proof.
  intros H. unfold ghargdup.
  destruct (negb (Z.of_nat 0 <? arg_count a)); [reflexivity|].
  destruct (arg_at a 0) as [bytes|]; [|reflexivity].
  destruct H as [H|H]; [discriminate|]. rewrite H. reflexivity.
Qed.

(** What duplicating argument 0 can do: nothing (no request made), a granted
    request, or a refused one; a request is only made for a present,
    non-empty argument. *)
Lemma ghargdup_outcome (a : UDF_ARGS) (w : world) :
  ghargdup a 0 w = Ok (None, w) \/
  (arg_at a 0 <> None /\ length_at a 0 <> 0 /\
   ((exists text,
       ghargdup a 0 w
       = Ok (Some (w_next w, text),
             logged (granted w)
                    [EvMalloc (to_ulong (length_at a 0 + 1)) (Some (w_next w))])) \/
    (hd true (w_oracle w) = false /\
     ghargdup a 0 w
     = Ok (None, logged (refused w)
                        [EvMalloc (to_ulong (length_at a 0 + 1)) None])))).
Proof.
  unfold ghargdup.
  destruct (negb (Z.of_nat 0 <? arg_count a)); [left; reflexivity|].
  destruct (arg_at a 0) as [bytes|]; [|left; reflexivity].
  destruct (length_at a 0 =? 0) eqn:E; [left; reflexivity|].
  apply Z.eqb_neq in E. right. split; [discriminate|]. split; [exact E|].
  unfold bind. destruct (hd true (w_oracle w)) eqn:Horacle.
  - left. rewrite (malloc_granted _ w Horacle). eexists. reflexivity.
  - right. rewrite (malloc_refused _ w Horacle). split; reflexivity.
Qed.

Lemma skipn_after_first (b0 c : byte) (rest : list byte) (n : nat) :
  (1 <= n)%nat -> skipn n (c :: rest) = skipn n (b0 :: rest).
Proof. destruct n; [lia|reflexivity]. Qed.

(** What pregCompileRegexArg returns and leaves in the message buffer, case
    by case on argument 0 and on its duplication. *)
Lemma pregCompileRegexArg_outcome :
  forall (pcre : Type)
         (compileRegex : list byte -> Z -> list byte -> Z -> option pcre * list byte)
         (a : UDF_ARGS) (msg : list byte) (msglen : Z) (w : world),
    compile_bounded compileRegex ->
    0 < msglen <= INT_MAX ->
    msglen <= Z.of_nat (List.length msg) ->
    exists r m w',
      pregCompileRegexArg compileRegex a msg msglen w = Ok ((r, m), w') /\
      List.length m = List.length msg /\
      skipn (Z.to_nat msglen) m = skipn (Z.to_nat msglen) msg /\
      (arg_at a 0 = None \/ length_at a 0 = 0 ->
       r = None /\
       firstn (Z.to_nat msglen) m = strncpy_image (cstr "Empty pattern") msglen) /\
      (arg_at a 0 <> None -> length_at a 0 <> 0 ->
       forall w1, ghargdup a 0 w = Ok (None, w1) ->
       r = None /\
       firstn (Z.to_nat msglen) m = strncpy_image (cstr "Out of memory") msglen) /\
      (forall va text w1,
         ghargdup a 0 w = Ok (Some (va, text), w1) ->
         option_map snd r
         = fst (compileRegex text (length_at a 0) (NUL :: tl msg) msglen) /\
         m = snd (compileRegex text (length_at a 0) (NUL :: tl msg) msglen)).
Proof.
  intros pcre compileRegex a msg msglen w Hbounded Hmsglen Hmsg.
  destruct msg as [|b0 rest]; [simpl in Hmsg; lia|].
  assert (Hn : (1 <= Z.to_nat msglen)%nat) by lia.
  assert (Hu : to_ulong msglen = msglen)
    by (apply msglen_ulong; lia).
  assert (Hmsg0 : 0 <= msglen <= Z.of_nat (List.length (NUL :: rest)))
    by (simpl List.length in *; lia).
  unfold pregCompileRegexArg.
  unfold bind at 1. unfold stored at 1. rewrite poke0_cons. unfold ret at 1.
  unfold bind at 1. rewrite Hu. cbn [tl].
  destruct (ghargdup_outcome a w) as [Hnone|[Hsome [Hlen [[text Hdup]|[Horacle Hdup]]]]].
  - (* nothing to duplicate, or no argument 0 at all *)
    rewrite Hnone.
    destruct (negb (length_at a 0 =? 0) && is_some (arg_at a 0)) eqn:Htest.
    + destruct (strncpy_bounded (NUL :: rest) (cstr "Out of memory") msglen Hmsg0)
        as [m [Hm [Hl [Hs Hf]]]].
      unfold bind, stored. rewrite Hm.
      exists None, m, w. split; [reflexivity|].
      split; [exact Hl|].
      split; [rewrite Hs; apply skipn_after_first; exact Hn|].
      apply andb_true_iff in Htest. destruct Htest as [Ht1 Ht2].
      apply negb_true_iff, Z.eqb_neq in Ht1.
      split; [intros [E|E]; [rewrite E in Ht2; discriminate|contradiction]|].
      split; [intros _ _ w1 _; split; [reflexivity|exact Hf]|].
      intros va t w1 E. discriminate.
    + destruct (strncpy_bounded (NUL :: rest) (cstr "Empty pattern") msglen Hmsg0)
        as [m [Hm [Hl [Hs Hf]]]].
      unfold bind, stored. rewrite Hm.
      exists None, m, w. split; [reflexivity|].
      split; [exact Hl|].
      split; [rewrite Hs; apply skipn_after_first; exact Hn|].
      split; [intros _; split; [reflexivity|exact Hf]|].
      split.
      * intros Hp Hz. exfalso. apply andb_false_iff in Htest.
        destruct Htest as [Ht|Ht].
        -- apply negb_false_iff, Z.eqb_eq in Ht. contradiction.
        -- destruct (arg_at a 0); [discriminate|contradiction].
      * intros va t w1 E. discriminate.
  - (* duplicated: compile the copy, free it *)
    rewrite Hdup. unfold compile.
    destruct (Hbounded text (length_at a 0) (NUL :: rest) msglen) as [Hl Hs];
      [lia|].
    destruct (compileRegex text (length_at a 0) (NUL :: rest) msglen)
      as [[c|] m] eqn:Hc; cbn [snd] in Hl, Hs.
    + unfold bind at 1. unfold bind at 1. unfold engine_alloc. unfold ret at 1.
      unfold bind at 1.
      rewrite free_live by (simpl; auto).
      eexists _, m, _. split; [reflexivity|].
      split; [exact Hl|].
      split; [rewrite Hs; apply skipn_after_first; exact Hn|].
      split; [intros [E|E]; contradiction|].
      split; [intros _ _ w1 E; discriminate|].
      intros va t w1 E. inversion E; subst. rewrite Hc. split; reflexivity.
    + unfold bind at 1. unfold ret at 1. unfold bind at 1.
      rewrite free_live by (simpl; auto).
      eexists _, m, _. split; [reflexivity|].
      split; [exact Hl|].
      split; [rewrite Hs; apply skipn_after_first; exact Hn|].
      split; [intros [E|E]; contradiction|].
      split; [intros _ _ w1 E; discriminate|].
      intros va t w1 E. inversion E; subst. rewrite Hc. split; reflexivity.
  - (* the duplicate could not be allocated *)
    rewrite Hdup.
    assert (Htest : negb (length_at a 0 =? 0) && is_some (arg_at a 0) = true).
    { apply andb_true_iff. split.
      - apply negb_true_iff, Z.eqb_neq. exact Hlen.
      - destruct (arg_at a 0); [reflexivity|contradiction]. }
    rewrite Htest.
    destruct (strncpy_bounded (NUL :: rest) (cstr "Out of memory") msglen Hmsg0)
      as [m [Hm [Hl [Hs Hf]]]].
    unfold bind, stored. rewrite Hm.
    eexists None, m, _. split; [reflexivity|].
    split; [exact Hl|].
    split; [rewrite Hs; apply skipn_after_first; exact Hn|].
    split; [intros [E|E]; contradiction|].
    split; [intros _ _ w1 _; split; [reflexivity|exact Hf]|].
    intros va t w1 E. discriminate.
Qed.

(** C6.  With a message buffer of at least [msglen >= 1] bytes and a
    compileRegex that keeps to it, pregCompileRegexArg always returns, and
    what it leaves in the buffer differs from what was there only below index
    [msglen].  An absent or zero-length argument 0 gives NULL and the text
    [Empty pattern] (as [strncpy] stores it in [msglen] bytes); a present,
    non-empty argument whose duplication fails gives NULL and
    [Out of memory]; when duplication succeeds the result and the message are
    what compileRegex made of the duplicate, so a compile error is NULL with
    the engine's diagnostic. *)
Theorem pregCompileRegexArg_diagnostics :
  forall (pcre : Type)
         (compileRegex : list byte -> Z -> list byte -> Z -> option pcre * list byte)
         (a : UDF_ARGS) (msg : list byte) (msglen : Z) (w : world),
    compile_bounded compileRegex ->
    0 < msglen <= INT_MAX ->
    msglen <= Z.of_nat (List.length msg) ->
    exists r m w',
      pregCompileRegexArg compileRegex a msg msglen w = Ok ((r, m), w') /\
      List.length m = List.length msg /\
      skipn (Z.to_nat msglen) m = skipn (Z.to_nat msglen) msg /\
      (arg_at a 0 = None \/ length_at a 0 = 0 ->
       r = None /\
       firstn (Z.to_nat msglen) m = strncpy_image (cstr "Empty pattern") msglen) /\
      (arg_at a 0 <> None -> length_at a 0 <> 0 ->
       forall w1, ghargdup a 0 w = Ok (None, w1) ->
       r = None /\
       firstn (Z.to_nat msglen) m = strncpy_image (cstr "Out of memory") msglen) /\
      (forall va text w1,
         ghargdup a 0 w = Ok (Some (va, text), w1) ->
         option_map snd r
         = fst (compileRegex text (length_at a 0) (NUL :: tl msg) msglen) /\
         m = snd (compileRegex text (length_at a 0) (NUL :: tl msg) msglen)).
Proof. exact pregCompileRegexArg_outcome. Qed.

Lemma toy_diagnose_bounded (msg : list byte) (msglen : Z) :
  0 <= msglen <= INT_MAX ->
  List.length (Toy.diagnose msg msglen) = List.length msg /\
  skipn (Z.to_nat msglen) (Toy.diagnose msg msglen) = skipn (Z.to_nat msglen) msg.
Proof.
  intros H. unfold Toy.diagnose. rewrite (msglen_ulong msglen H).
  destruct (Z.le_gt_cases msglen (Z.of_nat (List.length msg))) as [Hfits|Hnot].
  - destruct (strncpy_bounded msg (cstr "No ending delimiter") msglen)
      as [m [Hm [Hl [Hs _]]]]; [lia|].
    rewrite Hm. split; assumption.
  - unfold strncpy.
    destruct (Z.leb_spec msglen (Z.of_nat (List.length msg))); [lia|].
    split; reflexivity.
Qed.

Lemma toy_compile_bounded : compile_bounded Toy.compileRegex.
Proof.
  intros val len msg msglen H. unfold Toy.compileRegex.
  destruct val as [|c r]; [apply toy_diagnose_bounded; exact H|].
  destruct (Byte.eqb c Toy.slash); [|apply toy_diagnose_bounded; exact H].
  destruct (Toy.until_slash r); [split; reflexivity|].
  apply toy_diagnose_bounded; exact H.
Qed.

(** An empty pattern argument, the host's 512-byte message buffer and the size
    128 that initPtrInfo passes: NULL and [Empty pattern]. *)
Lemma pregCompileRegexArg_diagnostics_witness :
  exists r m w',
    pregCompileRegexArg Toy.compileRegex (Toy.one_arg "") Toy.message 128
                        (Toy.world0 []) = Ok ((r, m), w') /\
    List.length m = List.length Toy.message /\
    skipn 128 m = skipn 128 Toy.message /\
    (@Some (list byte) [] = None \/ 0 = 0 ->
     r = None /\
     firstn 128 m = strncpy_image (cstr "Empty pattern") 128) /\
    (@Some (list byte) [] <> None -> 0 <> 0 ->
     forall w1, ghargdup (Toy.one_arg "") 0 (Toy.world0 []) = Ok (None, w1) ->
     r = None /\
     firstn 128 m = strncpy_image (cstr "Out of memory") 128) /\
    (forall va text w1,
       ghargdup (Toy.one_arg "") 0 (Toy.world0 []) = Ok (Some (va, text), w1) ->
       option_map snd r
       = fst (Toy.compileRegex text 0 (NUL :: tl Toy.message) 128) /\
       m = snd (Toy.compileRegex text 0 (NUL :: tl Toy.message) 128)).
Proof.
  apply (pregCompileRegexArg_diagnostics Toy.pcre Toy.compileRegex
           (Toy.one_arg "") Toy.message 128 (Toy.world0 [])).
  - exact toy_compile_bounded.
  - unfold INT_MAX. lia.
  - vm_compute. discriminate.
Defined.

(** ** Init *)

(** ** The two stores into the type array *)

Lemma set_nth_length (A : Type) (i : nat) (x : A) (l : list A) :
  List.length (set_nth i x l) = List.length l.
Proof.
  revert i. induction l as [|y l IH]; intros i; [destruct i; reflexivity|].
  destruct i; cbn [set_nth List.length]; [reflexivity|]. rewrite IH. reflexivity.
Qed.

(** With room for two entries both stores land, and pregInit goes on with the
    two types set. *)
Lemma store_types_room (a : UDF_ARGS) (t : Item_result) (B : Type)
    (k : UDF_ARGS -> M B) (w : world) :
  (2 <= List.length (arg_type a))%nat ->
  bind (stored (store_arg_type a 0 t))
       (fun a0 => bind (stored (store_arg_type a0 1 t)) k) w
  = k (set_arg_type (set_arg_type a 0 t) 1 t) w.
Proof.
  intros H. unfold bind, stored, store_arg_type.
  destruct (Nat.ltb_spec 0 (List.length (arg_type a))); [|lia].
  cbn [ret set_arg_type arg_type]. rewrite set_nth_length.
  destruct (Nat.ltb_spec 1 (List.length (arg_type a))); [|lia].
  reflexivity.
Qed.

(** Without it one of the stores goes past the array. *)
Lemma store_types_no_room (a : UDF_ARGS) (t : Item_result) (B : Type)
    (k : UDF_ARGS -> M B) (w : world) :
  (List.length (arg_type a) < 2)%nat ->
  bind (stored (store_arg_type a 0 t))
       (fun a0 => bind (stored (store_arg_type a0 1 t)) k) w
  = Fault.
Proof.
  intros H. unfold bind, stored, store_arg_type.
  destruct (Nat.ltb_spec 0 (List.length (arg_type a))); [|reflexivity].
  cbn [ret set_arg_type arg_type]. rewrite set_nth_length.
  destruct (Nat.ltb_spec 1 (List.length (arg_type a))); [lia|reflexivity].
Qed.

(** So a run that came back had the room. *)
Lemma store_types_ok (a : UDF_ARGS) (t : Item_result) (B : Type)
    (k : UDF_ARGS -> M B) (w : world) (x : B * world) :
  bind (stored (store_arg_type a 0 t))
       (fun a0 => bind (stored (store_arg_type a0 1 t)) k) w
  = Ok x ->
  (2 <= List.length (arg_type a))%nat /\
  k (set_arg_type (set_arg_type a 0 t) 1 t) w = Ok x.
Proof.
  intros H.
  destruct (Nat.le_gt_cases 2 (List.length (arg_type a))) as [Hroom|Hno].
  - rewrite (store_types_room a t B k w Hroom) in H. split; assumption.
  - rewrite (store_types_no_room a t B k w Hno) in H. discriminate.
Qed.

(** In a goal [pregInit's stores and what follows = Ok x -> _]: both stores
    landed. *)
Ltac stores_landed :=
  let H := fresh "H" in
  intros H; apply store_types_ok in H; destruct H as [_ H]; revert H; cbv beta.

Section InitFacts.

Variable pcre : Type.
Variable compileRegex : list byte -> Z -> list byte -> Z -> option pcre * list byte.
Variable ghargIsNullConstant : UDF_ARGS -> nat -> bool.
Variable GH_1_0_NULL_HANDLING : bool.

Implicit Types (i : UDF_INIT pcre) (p : preg_s pcre) (w : world).

Lemma init_size_nonneg i : 0 <= init_size i.
Proof.
  unfold init_size, to_ulong. destruct (wrap32 (max_length i) >? 0); [|lia].
  apply Z.mod_pos_bound. lia.
Qed.

(** The tail of pregInit always returns: with a fresh block of [init_size]
    bytes, or with NULL for a buffer when the allocator refuses. *)
Lemma init_return_buffer_run i ca p w :
  (hd true (w_oracle w) = true /\
   init_return_buffer i ca p w
   = Ok (set_ptr i (Some (ca, set_return_buffer
                               (set_return_buffer_size p (init_size i))
                               (Some (w_next w,
                                      repeat (w_fill w) (Z.to_nat (init_size i)))))),
         logged (granted w) [EvMalloc (init_size i) (Some (w_next w))])) \/
  (hd true (w_oracle w) = false /\
   init_return_buffer i ca p w
   = Ok (set_ptr i (Some (ca, set_return_buffer
                               (set_return_buffer_size p (init_size i)) None)),
         logged (refused w) [EvMalloc (init_size i) None])).
Proof.
  unfold init_return_buffer, bind. fold (init_size i).
  destruct (hd true (w_oracle w)) eqn:Horacle.
  - left. rewrite (malloc_granted _ w Horacle). split; reflexivity.
  - right. rewrite (malloc_refused _ w Horacle). split; reflexivity.
Qed.

(** A successful pregInit leaves a context whose capacity is [init_size], and
    whose buffer, when it could be allocated, has that many bytes. *)
Lemma pregInit_success_size i a msg w i' a' m' w' :
  pregInit compileRegex ghargIsNullConstant GH_1_0_NULL_HANDLING i a msg w
  = Ok ((0, i', a', m'), w') ->
  exists ca p,
    ptr i' = Some (ca, p) /\
    return_buffer_size p = init_size i /\
    match return_buffer p with
    | Some (_, buf) => Z.of_nat (List.length buf) = init_size i
    | None => True
    end.
Proof.
  unfold pregInit. unfold bind at 1. unfold bind at 1.
  destruct (alloc w) as [[[ca|] w1]| |]; try discriminate; cbn [emit].
  2:{ unfold bind, stored. destruct (strcpy msg _); discriminate. }
  destruct (ghargIsNullConstant a 0 && GH_1_0_NULL_HANDLING).
  { unfold bind, stored. destruct (strcpy msg _); discriminate. }
  assert (Hfin : forall p0 m0 a0 w0,
             bind (init_return_buffer i ca p0) (fun i0 => ret (0, i0, a0, m0)) w0
             = Ok (0, i', a', m', w') ->
             exists ca p,
               ptr i' = Some (ca, p) /\
               return_buffer_size p = init_size i /\
               match return_buffer p with
               | Some (_, buf) => Z.of_nat (List.length buf) = init_size i
               | None => True
               end).
  { intros p0 m0 a0 w0. unfold bind.
    destruct (init_return_buffer_run i ca p0 w0) as [[_ E]|[_ E]]; rewrite E;
      unfold ret; intros H; inversion H; subst; eexists _, _;
      (split; [reflexivity|]); (split; [reflexivity|]); cbn [return_buffer
        set_return_buffer]; trivial.
    rewrite repeat_length. pose proof (init_size_nonneg i). lia. }
  stores_landed.
  destruct (negb (arg_count _ =? 0) && is_some _).
  - unfold bind at 1. unfold initPtrInfo. unfold bind at 1.
    destruct (pregCompileRegexArg _ _ _ _ _) as [[[r m] w2]| |]; try discriminate.
    destruct (is_some r); cbn [ret negb Z.eqb]; [|discriminate].
    apply Hfin.
  - apply Hfin.
Qed.

End InitFacts.

(** C8, as the code has it.  After a successful pregInit the capacity is
    [max_length + 1] when [(int)max_length] is positive, which covers every
    [max_length] from 1 to INT_MAX, and the default 1024000 otherwise, which
    covers [max_length = 0] and every length whose conversion to [int] is not
    positive; the buffer, when allocated, has exactly that many bytes. *)
Theorem pregInit_buffer_capacity :
  forall (pcre : Type)
         (compileRegex : list byte -> Z -> list byte -> Z -> option pcre * list byte)
         (ghargIsNullConstant : UDF_ARGS -> nat -> bool)
         (GH_1_0_NULL_HANDLING : bool)
         (i : UDF_INIT pcre) (a : UDF_ARGS) (msg : list byte) (w : world)
         (i' : UDF_INIT pcre) (a' : UDF_ARGS) (m' : list byte) (w' : world),
    pregInit compileRegex ghargIsNullConstant GH_1_0_NULL_HANDLING i a msg w
    = Ok ((0, i', a', m'), w') ->
    exists ca p,
      ptr i' = Some (ca, p) /\
      return_buffer_size p
      = (if wrap32 (max_length i) >? 0
         then to_ulong (max_length i + 1) else 1024000) /\
      (0 < max_length i <= INT_MAX -> return_buffer_size p = max_length i + 1) /\
      (max_length i = 0 -> return_buffer_size p = 1024000) /\
      (wrap32 (max_length i) <= 0 -> return_buffer_size p = 1024000) /\
      match return_buffer p with
      | Some (_, buf) => Z.of_nat (List.length buf) = return_buffer_size p
      | None => True
      end.
Proof.
  intros pcre compileRegex nullc gh i a msg w i' a' m' w' Hrun.
  destruct (pregInit_success_size pcre compileRegex nullc gh i a msg w
                                  i' a' m' w' Hrun) as [ca [p [Hptr [Hsize Hbuf]]]].
  exists ca, p. split; [exact Hptr|]. split; [exact Hsize|].
  rewrite Hsize. unfold init_size in *.
  split; [|split; [|split]].
  - intros Hlen. rewrite wrap32_id by (unfold INT_MIN, INT_MAX in *; lia).
    destruct (Z.gtb_spec (max_length i) 0); [|lia].
    apply to_ulong_id. unfold INT_MAX in *. lia.
  - intros ->. reflexivity.
  - intros Hint. destruct (Z.gtb_spec (wrap32 (max_length i)) 0); [lia|reflexivity].
  - exact Hbuf.
Qed.

(** A host that declares ten bytes, no constant pattern: capacity eleven. *)
Lemma pregInit_buffer_capacity_witness :
  exists ca p,
    ptr (mkInit 1 10 (Some (0%nat, mkPreg (@None (addr * Toy.pcre)) 0
                                      (Some (1%nat, repeat xff 11)) 11)))
    = Some (ca, p) /\
    return_buffer_size p = 11 /\
    (0 < 10 <= INT_MAX -> return_buffer_size p = 10 + 1) /\
    (10 = 0 -> return_buffer_size p = 1024000) /\
    (10 <= 0 -> return_buffer_size p = 1024000) /\
    match return_buffer p with
    | Some (_, buf) => Z.of_nat (List.length buf) = return_buffer_size p
    | None => True
    end.
Proof.
  apply (pregInit_buffer_capacity Toy.pcre Toy.compileRegex
           Toy.ghargIsNullConstant false
           (mkInit 1 10 None)
           (mkArgs 2 [INT_RESULT; INT_RESULT] [None; None] [0; 0])
           Toy.message (Toy.world0 [])
           (mkInit 1 10 (Some (0%nat, mkPreg None 0
                                         (Some (1%nat, repeat xff 11)) 11)))
           (mkArgs 2 [STRING_RESULT; STRING_RESULT] [None; None] [0; 0])
           Toy.message
           (mkWorld 2%nat [1; 0]%nat [] xff
                    [EvCalloc (Some 0%nat); EvMalloc 11 (Some 1%nat)])).
  reflexivity.
Defined.

(** C8 as stated fails.  A host that declares 4294967295 bytes, a positive
    length: [(int)4294967295] is -1, so a successful init settles on 1024000,
    not on 4294967296. *)
Lemma pregInit_huge_max_length_gets_default :
  match pregInit Toy.compileRegex Toy.ghargIsNullConstant false
                 (mkInit 1 4294967295 None) (Toy.two_args "/abc/" "abc")
                 Toy.message (Toy.world0 []) with
  | Ok ((r, i', _, _), _) =>
    r = 0 /\
    option_map (fun cp => return_buffer_size (snd cp)) (ptr i') = Some 1024000 /\
    1024000 <> 4294967295 + 1
  | Fault => False
  | Timeout => False
  end.
Proof. lazy. repeat split. discriminate. Qed.

Lemma strcpy_fits (dst src : list byte) :
  (List.length src + 1 <= List.length dst)%nat ->
  exists m, strcpy dst src = Some m /\ List.length m = List.length dst.
Proof.
  intros H. unfold strcpy, store_bytes. rewrite length_app. simpl List.length.
  destruct (Nat.leb_spec (List.length src + 1) (List.length dst)); [|lia].
  eexists. split; [reflexivity|].
  rewrite !length_app, length_skipn. simpl List.length. lia.
Qed.

Section InitReturns.

Variable pcre : Type.
Variable compileRegex : list byte -> Z -> list byte -> Z -> option pcre * list byte.
Variable ghargIsNullConstant : UDF_ARGS -> nat -> bool.
Variable GH_1_0_NULL_HANDLING : bool.
Hypothesis compileRegex_bounded : compile_bounded compileRegex.

(** Given a message buffer of at least 128 bytes and a type array with room
    for two entries, pregInit always returns, with 0 or 1. *)
Lemma pregInit_returns (i : UDF_INIT pcre) (a : UDF_ARGS) (msg : list byte)
    (w : world) :
  128 <= Z.of_nat (List.length msg) ->
  (2 <= List.length (arg_type a))%nat ->
  exists r i' a' m' w',
    pregInit compileRegex ghargIsNullConstant GH_1_0_NULL_HANDLING i a msg w
    = Ok ((r, i', a', m'), w') /\
    (r = 0 \/ r = 1).
Proof.
  intros Hmsg Hroom. unfold pregInit. unfold bind at 1. unfold bind at 1.
  destruct (hd true (w_oracle w)) eqn:Horacle.
  - rewrite (alloc_granted w Horacle). cbn [emit].
    destruct (ghargIsNullConstant a 0 && GH_1_0_NULL_HANDLING).
    { destruct (strcpy_fits msg (cstr "NULL pattern")) as [m [Hm _]];
        [simpl; lia|].
      unfold bind, stored. rewrite Hm. eexists _, _, _, _, _.
      split; [reflexivity|right; reflexivity]. }
    assert (Hfin : forall (p0 : preg_s pcre) (m0 : list byte) (a0 : UDF_ARGS)
                          (w0 : world),
               exists (r : Z) (i' : UDF_INIT pcre) (a' : UDF_ARGS)
                      (m' : list byte) (w' : world),
                 bind (init_return_buffer i (w_next w) p0)
                      (fun i0 => ret (0, i0, a0, m0)) w0
                 = Ok ((r, i', a', m'), w') /\ (r = 0 \/ r = 1)).
    { intros p0 m0 a0 w0. unfold bind.
      destruct (init_return_buffer_run pcre i (w_next w) p0 w0)
        as [[_ E]|[_ E]]; rewrite E; eexists _, _, _, _, _;
        (split; [reflexivity|left; reflexivity]). }
    rewrite store_types_room by exact Hroom.
    destruct (negb (arg_count _ =? 0) && is_some _); [|apply Hfin].
    unfold bind at 1. unfold initPtrInfo. unfold bind at 1.
    match goal with
    | |- context [pregCompileRegexArg compileRegex ?a1 msg 128 ?w1] =>
      destruct (pregCompileRegexArg_outcome pcre compileRegex a1 msg 128 w1
                  compileRegex_bounded)
        as [r [m [w2 [Hrun _]]]]; [unfold INT_MAX; lia|lia|rewrite Hrun]
    end.
    destruct r as [c|]; cbn [is_some ret negb Z.eqb].
    + apply Hfin.
    + eexists _, _, _, _, _. split; [reflexivity|right; reflexivity].
  - rewrite (alloc_refused w Horacle). cbn [emit].
    destruct (strcpy_fits msg (cstr "not enough memory")) as [m [Hm _]];
      [simpl; lia|].
    unfold bind, stored. rewrite Hm. eexists _, _, _, _, _.
    split; [reflexivity|right; reflexivity].
Qed.

End InitReturns.

(** C10.  Given the host's message buffer (at least MYSQL_ERRMSG_SIZE bytes),
    a compileRegex that keeps to the size it is given and, when there is one
    argument, a type array with room for the two entries pregInit stores,
    preg_check_init always returns; it returns 1 exactly when [arg_count] is
    not 1; with one argument it returns 0 and leaves [initid], [args] and
    [message] as pregInit left them, whichever of 0 and 1 pregInit itself
    returned. *)
Theorem preg_check_init_ignores_pregInit :
  forall (pcre : Type)
         (compileRegex : list byte -> Z -> list byte -> Z -> option pcre * list byte)
         (ghargIsNullConstant : UDF_ARGS -> nat -> bool)
         (GH_1_0_NULL_HANDLING : bool)
         (i : UDF_INIT pcre) (a : UDF_ARGS) (msg : list byte) (w : world),
    compile_bounded compileRegex ->
    MYSQL_ERRMSG_SIZE <= Z.of_nat (List.length msg) ->
    (arg_count a = 1 -> (2 <= List.length (arg_type a))%nat) ->
    exists r i' a' m' w',
      preg_check_init compileRegex ghargIsNullConstant GH_1_0_NULL_HANDLING
                      i a msg w = Ok ((r, i', a', m'), w') /\
      (r = 1 <-> arg_count a <> 1) /\
      (arg_count a = 1 ->
       r = 0 /\
       exists r0,
         pregInit compileRegex ghargIsNullConstant GH_1_0_NULL_HANDLING
                  (set_maybe_null i 0) a msg w = Ok ((r0, i', a', m'), w') /\
         (r0 = 0 \/ r0 = 1)).
Proof.
  intros pcre compileRegex nullc gh i a msg w Hbounded Hmsg Hroom.
  unfold MYSQL_ERRMSG_SIZE in Hmsg. unfold preg_check_init.
  destruct (Z.eqb_spec (arg_count a) 1) as [Hone|Hnot]; cbn [negb].
  - destruct (pregInit_returns pcre compileRegex nullc gh Hbounded
                               (set_maybe_null i 0) a msg w)
      as [r0 [i' [a' [m' [w' [Hrun Hr0]]]]]]; [lia|exact (Hroom Hone)|].
    unfold bind. rewrite Hrun. exists 0, i', a', m', w'.
    split; [reflexivity|]. split; [split; [discriminate|contradiction]|].
    intros _. split; [reflexivity|]. exists r0. split; [reflexivity|exact Hr0].
  - destruct (strncpy_bounded msg
                (cstr "preg_check: needs exactly one argument") 512)
      as [m [Hm _]]; [lia|].
    unfold bind, stored, MYSQL_ERRMSG_SIZE. rewrite Hm.
    exists 1, i, a, m, w. split; [reflexivity|].
    split; [split; [intros _; exact Hnot|reflexivity]|].
    intros E. contradiction.
Qed.

(** A bad constant pattern: pregInit reports 1 and its diagnostic,
    preg_check_init reports 0. *)
Example preg_check_init_bad_pattern :
  match pregInit Toy.compileRegex Toy.ghargIsNullConstant false
                 (mkInit 0 0 None) (Toy.one_arg_spare "/abc") Toy.message
                 (Toy.world0 []),
        preg_check_init Toy.compileRegex Toy.ghargIsNullConstant false
                 (mkInit 1 0 None) (Toy.one_arg_spare "/abc") Toy.message
                 (Toy.world0 []) with
  | Ok ((r0, _, _, m0), _), Ok ((r, _, _, m), _) =>
    r0 = 1 /\ r = 0 /\ m = m0 /\
    firstn 19 m = cstr "No ending delimiter"
  | _, _ => False
  end.
Proof. vm_compute. repeat split. Qed.

(** One argument, a pattern without its closing delimiter, in a type array
    of two entries. *)
Lemma preg_check_init_ignores_pregInit_witness :
  exists r i' a' m' w',
    preg_check_init Toy.compileRegex Toy.ghargIsNullConstant false
                    (mkInit 1 0 None) (Toy.one_arg_spare "/abc") Toy.message
                    (Toy.world0 []) = Ok ((r, i', a', m'), w') /\
    (r = 1 <-> 1 <> 1) /\
    (1 = 1 ->
     r = 0 /\
     exists r0,
       pregInit Toy.compileRegex Toy.ghargIsNullConstant false
                (mkInit 0 0 None) (Toy.one_arg_spare "/abc") Toy.message
                (Toy.world0 []) = Ok ((r0, i', a', m'), w') /\
       (r0 = 0 \/ r0 = 1)).
Proof.
  apply (preg_check_init_ignores_pregInit Toy.pcre Toy.compileRegex
           Toy.ghargIsNullConstant false (mkInit 1 0 None)
           (Toy.one_arg_spare "/abc") Toy.message (Toy.world0 [])).
  - exact toy_compile_bounded.
  - vm_compute. discriminate.
  - intros _. simpl. lia.
Defined.

(** ** Deinit *)

Lemma released_freed (w : world) (a : addr) (e : event) :
  freed [e] = [a] ->
  freed (w_trace (logged (released w a) [e])) = freed (w_trace w) ++ [a].
Proof. intros H. cbn [w_trace logged released]. rewrite freed_app, H. reflexivity. Qed.

Lemma logged_released_live (w : world) (a x : addr) (es : list event) :
  In x (w_live (logged (released w a) es)) <-> In x (w_live w) /\ a <> x.
Proof. cbn [w_live logged]. apply released_live. Qed.

Section DeinitFacts.

Variable pcre : Type.
Implicit Types (i : UDF_INIT pcre) (p : preg_s pcre) (w : world).

(** destroyPtrInfo on live, distinct resources: both are given back, in
    order, and both pointers are left NULL. *)
Lemma destroyPtrInfo_run p w :
  NoDup (owned_preg p) ->
  (forall x, In x (owned_preg p) -> In x (w_live w)) ->
  exists w1,
    destroyPtrInfo p w
    = Ok (mkPreg None (constant_pattern p) None (return_buffer_size p), w1) /\
    freed (w_trace w1) = freed (w_trace w) ++ owned_preg p /\
    (forall x, In x (w_live w1) <-> In x (w_live w) /\ ~ In x (owned_preg p)).
Proof.
  destruct p as [[[ra c]|] cp [[ba buf]|] sz]; unfold owned_preg;
    cbn [re return_buffer app]; intros Hnd Hlive; unfold destroyPtrInfo;
    cbn [re return_buffer is_some set_re set_return_buffer constant_pattern
         return_buffer_size].
  - assert (Hra : In ra (w_live w)) by (apply Hlive; simpl; auto).
    assert (Hba : In ba (w_live w)) by (apply Hlive; simpl; auto).
    assert (Hne : ra <> ba).
    { inversion Hnd as [|? ? Hnot _]; subst. simpl in Hnot.
      intuition congruence. }
    unfold bind. rewrite (pcre_free_live ra c w Hra). cbn [ret is_some
      return_buffer set_re set_return_buffer re constant_pattern
      return_buffer_size].
    unfold block.
    rewrite (free_live ba buf (logged (released w ra) [EvPcreFree ra]))
      by (apply logged_released_live; auto).
    eexists. split; [reflexivity|]. split.
    + rewrite released_freed by reflexivity.
      cbn [w_trace logged released]. rewrite freed_app, <- app_assoc.
      reflexivity.
    + intros x. rewrite !logged_released_live. simpl. intuition congruence.
  - assert (Hra : In ra (w_live w)) by (apply Hlive; simpl; auto).
    unfold bind. rewrite (pcre_free_live ra c w Hra). cbn [ret is_some
      return_buffer set_re set_return_buffer re constant_pattern
      return_buffer_size].
    eexists. split; [reflexivity|]. split.
    + apply released_freed. reflexivity.
    + intros x. rewrite logged_released_live. simpl. intuition congruence.
  - assert (Hba : In ba (w_live w)) by (apply Hlive; simpl; auto).
    unfold bind. cbn [ret is_some return_buffer set_re set_return_buffer re
      constant_pattern return_buffer_size].
    unfold block. rewrite (free_live ba buf w Hba).
    eexists. split; [reflexivity|]. split.
    + apply released_freed. reflexivity.
    + intros x. rewrite logged_released_live. simpl. intuition congruence.
  - exists w. split; [reflexivity|]. split; [symmetry; apply app_nil_r|].
    intros x. simpl. tauto.
Qed.

(** pregDeInit on a well-formed context. *)
Lemma pregDeInit_run i w :
  wf_init i w ->
  exists w',
    pregDeInit i w = Ok (set_ptr i None, w') /\
    freed (w_trace w') = freed (w_trace w) ++ owned i /\
    (forall x, In x (w_live w') <-> In x (w_live w) /\ ~ In x (owned i)) /\
    (ptr i = None -> w' = w).
Proof.
  intros [Hnd Hlive]. destruct i as [mn ml pt].
  unfold pregDeInit, owned, set_ptr in *. cbn [ptr maybe_null max_length] in *.
  destruct pt as [[ca p]|].
  - destruct (destroyPtrInfo_run p w) as [w1 [Hrun [Hfreed Hlive1]]].
    + apply NoDup_app_remove_r in Hnd. exact Hnd.
    + intros x Hx. apply Hlive. apply in_or_app. left. exact Hx.
    + assert (Hca : In ca (w_live w1)).
      { apply Hlive1. split.
        - apply Hlive. apply in_or_app. right. simpl. auto.
        - apply NoDup_remove_2 in Hnd. rewrite app_nil_r in Hnd. exact Hnd. }
      unfold bind. rewrite Hrun. rewrite (free_live ca _ w1 Hca).
      eexists. split; [reflexivity|]. split; [|split].
      * rewrite released_freed by reflexivity. rewrite Hfreed.
        symmetry. apply app_assoc.
      * intros x. rewrite logged_released_live, Hlive1, in_app_iff. simpl.
        intuition congruence.
      * discriminate.
  - exists w. split; [reflexivity|]. split; [symmetry; apply app_nil_r|].
    split; [intros x; simpl; tauto|reflexivity].
Qed.

End DeinitFacts.

(** ** From init to deinit *)

Lemma filter_keep (a x : addr) (l : list addr) :
  In x (filter (fun b => negb (Nat.eqb a b)) l) <-> In x l /\ a <> x.
Proof. rewrite filter_In, negb_true_iff, Nat.eqb_neq. reflexivity. Qed.

Section InitWorld.

Variable pcre : Type.
Variable compileRegex : list byte -> Z -> list byte -> Z -> option pcre * list byte.
Variable ghargIsNullConstant : UDF_ARGS -> nat -> bool.
Variable GH_1_0_NULL_HANDLING : bool.

(** What pregCompileRegexArg does to the heap: blocks that were live stay
    live, the pattern it returns is a new live block, and the allocator's
    addresses stay fresh. *)
Lemma pregCompileRegexArg_world (a : UDF_ARGS) (msg : list byte) (msglen : Z)
    (w : world) (r : pcre_ptr pcre) (m : list byte) (w' : world) :
  wf_world w ->
  pregCompileRegexArg compileRegex a msg msglen w = Ok ((r, m), w') ->
  wf_world w' /\
  (forall x, In x (w_live w) -> In x (w_live w')) /\
  match r with
  | Some (ra, _) => In ra (w_live w') /\ ~ In ra (w_live w)
  | None => True
  end.
Proof.
  intros Hwf. unfold pregCompileRegexArg.
  unfold bind at 1. unfold stored at 1.
  destruct (poke0 msg NUL) as [msg0|]; [|discriminate].
  unfold ret at 1. unfold bind at 1.
  destruct (ghargdup_outcome a w)
    as [Hnone|[_ [_ [[text Hdup]|[_ Hdup]]]]].
  - rewrite Hnone.
    destruct (negb (length_at a 0 =? 0) && is_some (arg_at a 0));
      unfold bind, stored; destruct (strncpy msg0 _ _); try discriminate;
      unfold ret; intros H; inversion H; subst; auto.
  - rewrite Hdup. unfold compile.
    destruct (compileRegex text (length_at a 0) msg0 msglen) as [[c|] m1].
    + unfold bind at 1. unfold bind at 1. unfold engine_alloc. unfold ret at 1.
      unfold bind at 1. rewrite free_live by (simpl; auto).
      unfold ret. intros H. inversion H; subst. clear H.
      unfold wf_world in *.
      cbn [w_live w_next logged released granted]. repeat split.
      * intros x. rewrite filter_keep. simpl. intros [[E|[E|Hx]] Hne];
          [lia|lia|]. specialize (Hwf x Hx). lia.
      * intros x Hx. apply filter_keep. specialize (Hwf x Hx). simpl.
        split; [auto|lia].
      * apply filter_keep. simpl. split; [auto|lia].
      * intros Hx. specialize (Hwf _ Hx). lia.
    + unfold bind at 1. unfold ret at 1. unfold bind at 1.
      rewrite free_live by (simpl; auto).
      unfold ret. intros H. inversion H; subst. clear H.
      unfold wf_world in *.
      cbn [w_live w_next logged released granted]. repeat split.
      * intros x. rewrite filter_keep. simpl. intros [[E|Hx] Hne]; [lia|].
        specialize (Hwf x Hx). lia.
      * intros x Hx. apply filter_keep. specialize (Hwf x Hx). simpl.
        split; [auto|lia].
  - rewrite Hdup.
    destruct (negb (length_at a 0 =? 0) && is_some (arg_at a 0));
      unfold bind, stored; destruct (strncpy msg0 _ _); try discriminate;
      unfold ret; intros H; inversion H; subst; auto.
Qed.

(** The tail of pregInit returns 0: it cannot be where a 1 came from. *)
Ltac tail_returns_zero :=
  match goal with
  | |- context [init_return_buffer ?i ?ca ?p0 ?w0] =>
    let E := fresh "E" in
    destruct (init_return_buffer_run _ i ca p0 w0) as [[_ E]|[_ E]];
    rewrite E; discriminate
  end.

(** A pregInit that reports failure leaves no resource behind: its context,
    if there is one, holds neither a pattern nor a buffer. *)
Lemma pregInit_failure_state (i : UDF_INIT pcre) (a : UDF_ARGS)
    (msg : list byte) (w : world) (i' : UDF_INIT pcre) (a' : UDF_ARGS)
    (m' : list byte) (w' : world) :
  pregInit compileRegex ghargIsNullConstant GH_1_0_NULL_HANDLING i a msg w
  = Ok ((1, i', a', m'), w') ->
  owned i' = context_block i'.
Proof.
  unfold pregInit. unfold bind at 1. unfold bind at 1.
  destruct (alloc w) as [[[ca|] w1]| |]; try discriminate; cbn [emit].
  2:{ unfold bind, stored. destruct (strcpy msg _); try discriminate.
      unfold ret. intros H. inversion H; subst. reflexivity. }
  destruct (ghargIsNullConstant a 0) eqn:Hnull; cbn [andb].
  - destruct GH_1_0_NULL_HANDLING.
    { unfold bind, stored. destruct (strcpy msg _); try discriminate.
      unfold ret. intros H. inversion H; subst. reflexivity. }
    stores_landed.
    destruct (negb (arg_count _ =? 0) && is_some _).
    + unfold bind at 1. unfold initPtrInfo. unfold bind at 1.
      destruct (pregCompileRegexArg _ _ _ _ _) as [[[r m] w2]| |];
        try discriminate.
      destruct r as [c|]; cbn [is_some ret negb Z.eqb].
      * unfold bind.
        tail_returns_zero.
      * intros H. inversion H; subst. reflexivity.
    + unfold bind.
      tail_returns_zero.
  - stores_landed.
    destruct (negb (arg_count _ =? 0) && is_some _).
    + unfold bind at 1. unfold initPtrInfo. unfold bind at 1.
      destruct (pregCompileRegexArg _ _ _ _ _) as [[[r m] w2]| |];
        try discriminate.
      destruct r as [c|]; cbn [is_some ret negb Z.eqb].
      * unfold bind.
        tail_returns_zero.
      * intros H. inversion H; subst. reflexivity.
    + unfold bind.
      tail_returns_zero.
Qed.

End InitWorld.

Section InitInvariant.

Variable pcre : Type.
Variable compileRegex : list byte -> Z -> list byte -> Z -> option pcre * list byte.
Variable ghargIsNullConstant : UDF_ARGS -> nat -> bool.
Variable GH_1_0_NULL_HANDLING : bool.

(** Adding the return buffer keeps the context well formed. *)
Lemma init_return_buffer_wf (i : UDF_INIT pcre) (ca : addr) (r : pcre_ptr pcre)
    (cp sz : Z) (w : world) (i' : UDF_INIT pcre) (w' : world) :
  wf_world w ->
  In ca (w_live w) ->
  (forall x, In x (pattern_block r) -> In x (w_live w) /\ x <> ca) ->
  init_return_buffer i ca (mkPreg r cp None sz) w = Ok (i', w') ->
  wf_init i' w'.
Proof.
  intros Hwf Hca Hr.
  destruct (init_return_buffer_run pcre i ca (mkPreg r cp None sz) w)
    as [[_ E]|[_ E]]; rewrite E; intros H; inversion H; subst; clear H E;
    unfold wf_init, owned, owned_preg;
    cbn [ptr set_ptr re return_buffer set_return_buffer set_return_buffer_size
         w_live logged granted refused];
    destruct r as [[ra c]|]; cbn [pattern_block app] in *.
  - destruct (Hr ra) as [Hra Hne]; [simpl; auto|].
    pose proof (Hwf _ Hra). pose proof (Hwf _ Hca). split.
    + repeat constructor; simpl; intuition lia.
    + simpl. intuition (subst; auto).
  - pose proof (Hwf _ Hca). split.
    + repeat constructor; simpl; intuition lia.
    + simpl. intuition (subst; auto).
  - destruct (Hr ra) as [Hra Hne]; [simpl; auto|]. split.
    + repeat constructor; simpl; intuition congruence.
    + simpl. intuition (subst; auto).
  - split.
    + repeat constructor; simpl; tauto.
    + simpl. intuition (subst; auto).
Qed.

(** From a world whose allocator hands out fresh addresses, pregInit leaves a
    context that pregDeInit can take: what it owns is live and pairwise
    distinct, whether it reports success or failure. *)
Lemma pregInit_wf (i : UDF_INIT pcre) (a : UDF_ARGS) (msg : list byte)
    (w : world) (r : Z) (i' : UDF_INIT pcre) (a' : UDF_ARGS) (m' : list byte)
    (w' : world) :
  wf_world w ->
  pregInit compileRegex ghargIsNullConstant GH_1_0_NULL_HANDLING i a msg w
  = Ok ((r, i', a', m'), w') ->
  wf_init i' w'.
Proof.
  intros Hwf. unfold pregInit. unfold bind at 1. unfold bind at 1.
  destruct (hd true (w_oracle w)) eqn:Horacle.
  2:{ rewrite (alloc_refused w Horacle). cbn [emit].
      unfold bind, stored. destruct (strcpy msg _); try discriminate.
      unfold ret. intros H. inversion H; subst.
      split; [constructor|intros x []]. }
  rewrite (alloc_granted w Horacle). cbn [emit].
  set (w1 := mkWorld _ _ _ _ _).
  assert (Hwf1 : wf_world w1).
  { intros x [E|Hx]; [subst; simpl; lia|]. specialize (Hwf x Hx). simpl. lia. }
  assert (Hca : In (w_next w) (w_live w1)) by (simpl; auto).
  assert (Honly : forall p0 w0,
             In (w_next w) (w_live w0) ->
             owned_preg p0 = [] ->
             wf_init (set_ptr i (Some (w_next w, p0))) w0).
  { intros p0 w0 Hin Hown. unfold wf_init, owned. cbn [ptr set_ptr].
    rewrite Hown. split; [repeat constructor; simpl; tauto|].
    simpl. intuition (subst; auto). }
  destruct (ghargIsNullConstant a 0 && GH_1_0_NULL_HANDLING).
  { unfold bind, stored. destruct (strcpy msg _); try discriminate.
    unfold ret. intros H. inversion H; subst. apply Honly; [exact Hca|].
    destruct (ghargIsNullConstant _ 0); reflexivity. }
  set (p1 := if ghargIsNullConstant a 0 then _ else _).
  assert (Hp1 : exists cp, p1 = mkPreg None cp None 0).
  { subst p1. destruct (ghargIsNullConstant a 0); eexists; reflexivity. }
  destruct Hp1 as [cp Hp1]. rewrite Hp1. clear Hp1 p1.
  stores_landed.
  destruct (negb (arg_count _ =? 0) && is_some _).
  - unfold bind at 1. unfold initPtrInfo. unfold bind at 1.
    destruct (pregCompileRegexArg _ _ _ _ _) as [[[rp m] w2]| |] eqn:Hrun;
      try discriminate.
    destruct (pregCompileRegexArg_world pcre compileRegex _ _ _ _ _ _ _
                Hwf1 Hrun) as [Hwf2 [Hkeep Hnew]].
    destruct rp as [[ra c]|]; cbn [is_some ret negb Z.eqb].
    + unfold bind.
      destruct (init_return_buffer _ _ _ _) as [[i2 w3]| |] eqn:Hbuf;
        try discriminate.
      unfold ret. intros H. inversion H; subst.
      apply (init_return_buffer_wf i (w_next w) (Some (ra, c)) 1 0 w2 i' w');
        [exact Hwf2|apply Hkeep; exact Hca| |exact Hbuf].
      intros x [E|[]]. subst x. destruct Hnew as [Hin Hnot].
      split; [exact Hin|]. intros E. apply Hnot. rewrite E. exact Hca.
    + intros H. inversion H; subst. apply Honly; [|reflexivity].
      apply Hkeep. exact Hca.
  - unfold bind.
    destruct (init_return_buffer _ _ _ _) as [[i2 w3]| |] eqn:Hbuf;
      try discriminate.
    unfold ret. intros H. inversion H; subst.
    apply (init_return_buffer_wf i (w_next w) None 0 0 w1 i' w');
      [exact Hwf1|exact Hca| |exact Hbuf].
    intros x [].
Qed.

End InitInvariant.

(** C7, as the code has it.  On a context whose owned blocks are live and
    distinct, pregDeInit returns with [initid->ptr] NULL, having given back
    exactly what the context owned, each block once and in this order: the
    compiled pattern (if any), the return buffer (if any), the context block;
    destroyPtrInfo leaves both resource pointers NULL before the context
    block goes.  A second call changes nothing and frees nothing, and neither
    does a call on a context that was never set up ([ptr] NULL).  A call on a
    context left by a pregInit that failed frees the context block alone, if
    there is one: no pattern, no buffer, nothing twice. *)
Theorem pregDeInit_frees_once :
  forall (pcre : Type) (i : UDF_INIT pcre) (w : world),
    wf_init i w ->
    exists w',
      pregDeInit i w = Ok (set_ptr i None, w') /\
      freed (w_trace w') = freed (w_trace w) ++ owned i /\
      NoDup (owned i) /\
      (forall x, In x (w_live w') <-> In x (w_live w) /\ ~ In x (owned i)) /\
      (forall ca p,
          ptr i = Some (ca, p) ->
          exists w1,
            destroyPtrInfo p w
            = Ok (mkPreg None (constant_pattern p) None (return_buffer_size p),
                  w1)) /\
      pregDeInit (set_ptr i None) w' = Ok (set_ptr i None, w') /\
      (ptr i = None -> pregDeInit i w = Ok (i, w)) /\
      (forall (compileRegex :
                 list byte -> Z -> list byte -> Z -> option pcre * list byte)
              (ghargIsNullConstant : UDF_ARGS -> nat -> bool)
              (GH_1_0_NULL_HANDLING : bool)
              (i0 : UDF_INIT pcre) (a : UDF_ARGS) (m : list byte) (w0 : world)
              (a' : UDF_ARGS) (m' : list byte),
          pregInit compileRegex ghargIsNullConstant GH_1_0_NULL_HANDLING
                   i0 a m w0 = Ok ((1, i, a', m'), w) ->
          owned i = context_block i).
Proof.
  intros pcre i w Hwf.
  destruct (pregDeInit_run pcre i w Hwf) as [w' [Hrun [Hfreed [Hlive Hnone]]]].
  exists w'. split; [exact Hrun|]. split; [exact Hfreed|].
  split; [exact (proj1 Hwf)|]. split; [exact Hlive|].
  split; [|split; [reflexivity|split]].
  - intros ca p Hptr. destruct Hwf as [Hnd Hin]. unfold owned in *.
    rewrite Hptr in *.
    destruct (destroyPtrInfo_run pcre p w) as [w1 [E _]].
    + apply NoDup_app_remove_r in Hnd. exact Hnd.
    + intros x Hx. apply Hin. apply in_or_app. left. exact Hx.
    + exists w1. exact E.
  - intros Hptr. unfold pregDeInit. rewrite Hptr. reflexivity.
  - intros compileRegex nullc gh i0 a m w0 a' m' Hinit.
    exact (pregInit_failure_state pcre compileRegex nullc gh i0 a m w0
                                  i a' m' w Hinit).
Qed.

(** The context a successful init leaves for the stand-in pattern [a(b)c]:
    pattern at 2, buffer at 3, context at 0; all three go, in that order. *)
Lemma pregDeInit_frees_once_witness :
  exists w',
    pregDeInit
      (mkInit 1 10 (Some (0%nat, mkPreg (Some (2%nat, cstr "a(b)c")) 1
                                   (Some (3%nat, repeat xff 11)) 11)))
      (mkWorld 4%nat [3; 2; 0]%nat [] xff []) = Ok (mkInit 1 10 None, w') /\
    freed (w_trace w') = [2; 3; 0]%nat /\
    pregDeInit (mkInit 1 10 (@None (addr * preg_s Toy.pcre))) w'
    = Ok (mkInit 1 10 None, w').
Proof.
  destruct (pregDeInit_frees_once Toy.pcre
              (mkInit 1 10 (Some (0%nat, mkPreg (Some (2%nat, cstr "a(b)c")) 1
                                           (Some (3%nat, repeat xff 11)) 11)))
              (mkWorld 4%nat [3; 2; 0]%nat [] xff []))
    as [w' [Hrun [Hfreed [_ [_ [_ [Hagain _]]]]]]].
  - split.
    + repeat constructor; simpl; lia.
    + simpl. intros x H. lia.
  - exists w'. split; [exact Hrun|]. split; [exact Hfreed|exact Hagain].
Defined.

(** C7 as stated fails.  pregInit on a pattern without its closing delimiter
    reports failure after the context block (address 0) was allocated;
    pregDeInit on what it left frees that block: one free, not none. *)
Lemma pregDeInit_after_failed_init_frees_context :
  match pregInit Toy.compileRegex Toy.ghargIsNullConstant false
                 (mkInit 0 0 None) (Toy.two_args "/abc" "abc") Toy.message
                 (Toy.world0 []) with
  | Ok ((r, i1, _, _), w1) =>
    r = 1 /\
    match pregDeInit i1 w1 with
    | Ok (_, w2) => freed (w_trace w2) = freed (w_trace w1) ++ [0%nat]
    | Fault => False
    | Timeout => False
    end
  | Fault => False
  | Timeout => False
  end.
Proof. vm_compute. split; reflexivity. Qed.

(** Init followed by deinit, whatever init returned: deinit comes back, with
    the context pointer NULL and everything the context owned given back. *)
Corollary pregInit_then_pregDeInit :
  forall (pcre : Type)
         (compileRegex : list byte -> Z -> list byte -> Z -> option pcre * list byte)
         (ghargIsNullConstant : UDF_ARGS -> nat -> bool)
         (GH_1_0_NULL_HANDLING : bool)
         (i : UDF_INIT pcre) (a : UDF_ARGS) (msg : list byte) (w : world)
         (r : Z) (i' : UDF_INIT pcre) (a' : UDF_ARGS) (m' : list byte)
         (w' : world),
    wf_world w ->
    pregInit compileRegex ghargIsNullConstant GH_1_0_NULL_HANDLING i a msg w
    = Ok ((r, i', a', m'), w') ->
    exists w'',
      pregDeInit i' w' = Ok (set_ptr i' None, w'') /\
      freed (w_trace w'') = freed (w_trace w') ++ owned i' /\
      forall x, In x (owned i') -> ~ In x (w_live w'').
Proof.
  intros pcre compileRegex nullc gh i a msg w r i' a' m' w' Hwf Hinit.
  pose proof (pregInit_wf pcre compileRegex nullc gh i a msg w r i' a' m' w'
                          Hwf Hinit) as Hwfi.
  destruct (pregDeInit_run pcre i' w' Hwfi) as [w'' [Hrun [Hfreed [Hlive _]]]].
  exists w''. split; [exact Hrun|]. split; [exact Hfreed|].
  intros x Hx Hin. apply Hlive in Hin. tauto.
Qed.

(** * Further properties *)

(** ** Occurrence walker: cost, range and what is returned *)

Section WalkerMore.

Variable pcre : Type.
Variable pcre_exec : pcre -> list byte -> Z -> Z -> list Z -> Z -> Z * list Z.

Lemma skip_loop_in_subject (fuel : nat) :
  forall r subject subject_len oveccount occurence off ex rcv ov att
         ex' rcv' ov' att',
    skip_loop pcre_exec fuel r subject subject_len oveccount
              occurence off ex rcv ov att = Ok (ex', rcv', ov', att') ->
    Forall (in_subject subject_len) att ->
    Forall (in_subject subject_len) att'.
Proof.
  induction fuel as [|fuel IH]; intros r subject subject_len oveccount
    occurence off ex rcv ov att ex' rcv' ov' att' Hrun Hall; [discriminate|].
  cbn [skip_loop] in Hrun.
  destruct (occurence =? 0); [inversion Hrun; subst; exact Hall|].
  destruct (off <=? subject_len) eqn:Hoff; cbn [negb] in Hrun;
    [|inversion Hrun; subst; exact Hall].
  apply Z.leb_le in Hoff.
  assert (Hall' : Forall (in_subject subject_len)
                         (att ++ [(off, wrap32 (subject_len - off))])).
  { apply Forall_app. split; [exact Hall|].
    constructor; [split; [exact Hoff|reflexivity]|constructor]. }
  destruct (pcre_exec r subject off (wrap32 (subject_len - off)) ov oveccount)
    as [rc ov1].
  destruct (rc <=? 0); [inversion Hrun; subst; exact Hall'|].
  destruct (nth_error ov1 1); [|discriminate].
  exact (IH _ _ _ _ _ _ _ _ _ _ _ _ _ _ Hrun Hall').
Qed.

(** At the head of the loop [ex_subject] is where the last attempt so far
    started.  On exit: either nothing was attempted and nothing changed, or
    the last attempt succeeded and [ex_subject] is where it started, or it
    failed and [ex_subject] is where the one before it started. *)
Lemma skip_loop_last_start (fuel : nat) :
  forall r subject subject_len oveccount occurence off ex rcv ov att
         ex' rcv' ov' att',
    ex = last (map fst att) 0 ->
    skip_loop pcre_exec fuel r subject subject_len oveccount
              occurence off ex rcv ov att = Ok (ex', rcv', ov', att') ->
    exists more,
      att' = att ++ more /\
      ((more = [] /\ ex' = ex /\ rcv' = rcv /\ ov' = ov) \/
       (more <> [] /\ 0 < rcv' /\ ex' = last (map fst att') 0) \/
       (more <> [] /\ rcv' <= 0 /\
        ex' = last (map fst (removelast att')) 0)).
Proof.
  induction fuel as [|fuel IH]; intros r subject subject_len oveccount
    occurence off ex rcv ov att ex' rcv' ov' att' Hex Hrun; [discriminate|].
  cbn [skip_loop] in Hrun.
  assert (Hstay : Ok (ex, rcv, ov, att) = Ok (ex', rcv', ov', att') ->
                  exists more,
                    att' = att ++ more /\
                    ((more = [] /\ ex' = ex /\ rcv' = rcv /\ ov' = ov) \/
                     (more <> [] /\ 0 < rcv' /\ ex' = last (map fst att') 0) \/
                     (more <> [] /\ rcv' <= 0 /\
                      ex' = last (map fst (removelast att')) 0))).
  { intros H. inversion H; subst. exists []. rewrite app_nil_r.
    split; [reflexivity|]. left. repeat split; reflexivity. }
  destruct (occurence =? 0); [exact (Hstay Hrun)|].
  destruct (negb (off <=? subject_len)); [exact (Hstay Hrun)|].
  clear Hstay.
  destruct (pcre_exec r subject off (wrap32 (subject_len - off)) ov oveccount)
    as [rc ov1].
  destruct (rc <=? 0) eqn:Hrc.
  - apply Z.leb_le in Hrc. inversion Hrun; subst.
    exists [(off, wrap32 (subject_len - off))]. split; [reflexivity|].
    right. right. split; [discriminate|]. split; [exact Hrc|].
    rewrite removelast_last. reflexivity.
  - apply Z.leb_gt in Hrc.
    destruct (nth_error ov1 1); [|discriminate].
    apply IH in Hrun.
    2:{ rewrite map_app. cbn [map fst]. rewrite last_last. reflexivity. }
    destruct Hrun as [more [Hatt Hcases]].
    exists ((off, wrap32 (subject_len - off)) :: more).
    split; [rewrite Hatt, <- app_assoc; reflexivity|].
    right. destruct Hcases as [[Hm [He [Hr _]]]|[[Hm H]|[Hm H]]].
    + left. split; [discriminate|]. subst more. rewrite app_nil_r in Hatt.
      subst. split; [exact Hrc|]. rewrite map_app. cbn [map fst].
      rewrite last_last. reflexivity.
    + left. split; [discriminate|exact H].
    + right. split; [discriminate|exact H].
Qed.

End WalkerMore.


Lemma skip_loop_returns (pcre : Type)
    (pcre_exec : pcre -> list byte -> Z -> Z -> list Z -> Z -> Z * list Z)
    (fuel : nat) :
  fills_vector pcre_exec ->
  forall r subject subject_len oveccount occurence off ex rcv ov att,
    0 <= occurence <= INT_MAX ->
    (Z.to_nat occurence < fuel)%nat ->
    exists out,
      skip_loop pcre_exec fuel r subject subject_len oveccount
                occurence off ex rcv ov att = Ok out.
Proof.
  intros Hfill.
  induction fuel as [|fuel IH]; intros r subject subject_len oveccount
    occurence off ex rcv ov att Hocc Hfuel; [lia|].
  cbn [skip_loop].
  destruct (occurence =? 0) eqn:E0; [eexists; reflexivity|].
  apply Z.eqb_neq in E0.
  destruct (negb (off <=? subject_len)); [eexists; reflexivity|].
  pose proof (Hfill r subject off (wrap32 (subject_len - off)) ov oveccount)
    as Hlen.
  destruct (pcre_exec r subject off (wrap32 (subject_len - off)) ov oveccount)
    as [rc ov1]. cbn [fst snd] in Hlen.
  destruct (rc <=? 0) eqn:Hrc; [eexists; reflexivity|].
  apply Z.leb_gt in Hrc. specialize (Hlen Hrc).
  destruct ov1 as [|s [|e ov2]]; try (simpl in Hlen; lia).
  cbn [nth_error].
  assert (Hdec : wrap32 (occurence - 1) = occurence - 1).
  { apply wrap32_id. unfold INT_MIN, INT_MAX in *. lia. }
  rewrite Hdec. apply IH; unfold INT_MAX in *; lia.
Qed.

(** X1.  For [0 <= occurence <= INT_MAX], a cell for [rc] and an engine that
    fills the vector when it matches, the walker returns after at most
    [occurence] engine calls, and every call starts at an offset no greater
    than [subject_len], on exactly what is left of the subject from there. *)
Theorem walker_cost_and_range :
  forall (pcre : Type)
         (pcre_exec : pcre -> list byte -> Z -> Z -> list Z -> Z -> Z * list Z)
         (fuel : nat) (r : pcre) (subject : list byte) (subject_len : Z)
         (ovector : list Z) (oveccount occurence rcv : Z),
    fills_vector pcre_exec ->
    0 <= occurence <= INT_MAX ->
    (Z.to_nat occurence < fuel)%nat ->
    exists out,
      pregSkipToOccurence pcre_exec fuel r subject subject_len ovector
                          oveccount occurence (Some rcv) = Ok out /\
      Z.of_nat (List.length (wk_attempts out)) <= occurence /\
      Forall (in_subject subject_len) (wk_attempts out).
Proof.
  intros pcre pcre_exec fuel r subject subject_len ovector oveccount occurence
         rcv Hfill Hocc Hfuel.
  unfold pregSkipToOccurence.
  destruct (skip_loop_returns pcre pcre_exec fuel Hfill r subject subject_len
              oveccount occurence 0 0 rcv ovector [] Hocc Hfuel)
    as [[[[ex rcv'] ov'] att'] Hrun].
  rewrite Hrun. eexists. split; [reflexivity|]. cbn [wk_attempts]. split.
  - destruct (skip_loop_attempts pcre pcre_exec fuel _ _ _ _ _ _ _ _ _ _ _ _ _ _
                Hocc Hrun) as [more [Hatt Hlen]].
    simpl in Hatt. subst. exact Hlen.
  - exact (skip_loop_in_subject pcre pcre_exec fuel _ _ _ _ _ _ _ _ _ _ _ _ _ _
             Hrun (Forall_nil _)).
Qed.

Lemma toy_fills_vector : fills_vector Toy.pcre_exec.
Proof.
  intros r subject off len ov oveccount. unfold Toy.pcre_exec.
  destruct (Toy.find r _ 0); simpl; intros H; lia.
Qed.

(** The third comma of [a,b,c,d]: three calls. *)
Lemma walker_cost_and_range_witness :
  exists out,
    pregSkipToOccurence Toy.pcre_exec 4 (cstr ",") (cstr "a,b,c,d") 7
                        [0; 0; 0] 3 3 (Some 0) = Ok out /\
    Z.of_nat (List.length (wk_attempts out)) <= 3 /\
    Forall (in_subject 7) (wk_attempts out).
Proof.
  apply (walker_cost_and_range Toy.pcre Toy.pcre_exec 4 (cstr ",")
           (cstr "a,b,c,d") 7 [0; 0; 0] 3 3 0).
  - exact toy_fills_vector.
  - unfold INT_MAX. lia.
  - simpl. lia.
Defined.

(** X2.  What the walker returns, for a caller that passed a cell for [rc],
    [0 <= occurence <= INT_MAX] and an engine that fills the vector when it
    matches: the walker returns, and when no engine call was made it returns
    [subject] itself, with [*rc] and the vector as they were; when the last
    call matched ([*rc > 0]), the place where that call started; when the
    last call did not match ([*rc <= 0]), the place where the call before it
    started, [subject] if it was the first. *)
Theorem walker_returns_last_successful_start :
  forall (pcre : Type)
         (pcre_exec : pcre -> list byte -> Z -> Z -> list Z -> Z -> Z * list Z)
         (fuel : nat) (r : pcre) (subject : list byte) (subject_len : Z)
         (ovector : list Z) (oveccount occurence rcv : Z),
    fills_vector pcre_exec ->
    0 <= occurence <= INT_MAX ->
    (Z.to_nat occurence < fuel)%nat ->
    exists out c,
      pregSkipToOccurence pcre_exec fuel r subject subject_len ovector
                          oveccount occurence (Some rcv) = Ok out /\
      wk_rc out = Some c /\
      ((wk_attempts out = [] /\ c = rcv /\ wk_ret out = Some 0 /\
        wk_ovector out = ovector) \/
       (wk_attempts out <> [] /\ 0 < c /\
        wk_ret out = Some (last (map fst (wk_attempts out)) 0)) \/
       (wk_attempts out <> [] /\ c <= 0 /\
        wk_ret out
        = Some (last (map fst (removelast (wk_attempts out))) 0))).
Proof.
  intros pcre pcre_exec fuel r subject subject_len ovector oveccount occurence
         rcv Hfill Hocc Hfuel.
  unfold pregSkipToOccurence.
  destruct (skip_loop_returns pcre pcre_exec fuel Hfill r subject subject_len
              oveccount occurence 0 0 rcv ovector [] Hocc Hfuel)
    as [[[[ex rcv'] ov'] att'] Hrun].
  rewrite Hrun.
  destruct (skip_loop_last_start pcre pcre_exec fuel r subject subject_len
              oveccount occurence 0 0 rcv ovector [] ex rcv' ov' att'
              eq_refl Hrun) as [more [Hatt Hcases]].
  simpl in Hatt. subst att'. eexists _, rcv'. split; [reflexivity|].
  split; [reflexivity|].
  cbn [wk_attempts wk_ret wk_ovector].
  destruct Hcases as [[Hm [He [Hr Hov]]]|[[Hm [Hc He]]|[Hm [Hc He]]]].
  - left. subst. auto.
  - right. left. subst. auto.
  - right. right. subst. auto.
Qed.

(** The second comma of [a,b]: the first call matches at the start, the
    second, from offset 2, does not. *)
Lemma walker_returns_last_successful_start_witness :
  exists out c,
    pregSkipToOccurence Toy.pcre_exec 3 (cstr ",") (cstr "a,b") 3
                        [0; 0; 0] 3 2 (Some 0) = Ok out /\
    wk_rc out = Some c /\
    ((wk_attempts out = [] /\ c = 0 /\ wk_ret out = Some 0 /\
      wk_ovector out = [0; 0; 0]) \/
     (wk_attempts out <> [] /\ 0 < c /\
      wk_ret out = Some (last (map fst (wk_attempts out)) 0)) \/
     (wk_attempts out <> [] /\ c <= 0 /\
      wk_ret out
      = Some (last (map fst (removelast (wk_attempts out))) 0))).
Proof.
  apply (walker_returns_last_successful_start Toy.pcre Toy.pcre_exec 3
           (cstr ",") (cstr "a,b") 3 [0; 0; 0] 3 2 0).
  - exact toy_fills_vector.
  - unfold INT_MAX. lia.
  - simpl. lia.
Defined.

Section WalkerEmptyMatch.

Variable pcre : Type.
Variable pcre_exec : pcre -> list byte -> Z -> Z -> list Z -> Z -> Z * list Z.

(** Once the engine has answered at offset 0 with a match that ends at 0,
    every further turn of the loop asks the same question again. *)
Lemma skip_loop_stays (r : pcre) (subject : list byte)
    (subject_len oveccount c : Z) (ovf : list Z) :
  0 <= subject_len ->
  0 < c ->
  nth_error ovf 1 = Some 0 ->
  pcre_exec r subject 0 (wrap32 (subject_len - 0)) ovf oveccount = (c, ovf) ->
  forall (m : nat) (occurence : Z) (att : list (Z * Z)),
    occurence = Z.of_nat m ->
    occurence <= INT_MAX ->
    skip_loop pcre_exec (S m) r subject subject_len oveccount
              occurence 0 0 c ovf att
    = Ok (0, c, ovf, att ++ repeat (0, wrap32 (subject_len - 0)) m).
Proof.
  intros Hlen Hc Hend Hexec.
  induction m as [|m IH]; intros occurence att Hocc Hm.
  - subst occurence. simpl. rewrite app_nil_r. reflexivity.
  - remember (S m) as fuel eqn:Hfuel. cbn [skip_loop].
    destruct (Z.eqb_spec occurence 0) as [E|_]; [lia|].
    destruct (Z.leb_spec 0 subject_len) as [_|]; [|lia]. cbn [negb].
    rewrite Hexec.
    destruct (Z.leb_spec c 0) as [|_]; [lia|]. rewrite Hend.
    rewrite (wrap32_id (occurence - 1))
      by (unfold INT_MIN, INT_MAX in *; lia).
    change (wrap32 (0 + 0)) with 0. subst fuel.
    rewrite IH by lia. rewrite <- app_assoc. reflexivity.
Qed.

End WalkerEmptyMatch.

(** X3.  A pattern that matches the empty string at the start of the subject
    (the engine answers with a match whose end offset is 0, whatever vector
    it is handed): the walker makes no progress.  Asked for occurrence
    [n >= 1] it calls the engine [n] times at offset 0 and returns [subject],
    the place of the first occurrence. *)
Theorem walker_empty_match_makes_no_progress :
  forall (pcre : Type)
         (pcre_exec : pcre -> list byte -> Z -> Z -> list Z -> Z -> Z * list Z)
         (r : pcre) (subject : list byte) (subject_len oveccount c : Z)
         (ovector ovf : list Z) (n : nat) (rcv : Z),
    0 <= subject_len ->
    0 < c ->
    nth_error ovf 1 = Some 0 ->
    pcre_exec r subject 0 (wrap32 (subject_len - 0)) ovector oveccount = (c, ovf) ->
    pcre_exec r subject 0 (wrap32 (subject_len - 0)) ovf oveccount = (c, ovf) ->
    (1 <= n)%nat ->
    Z.of_nat n <= INT_MAX ->
    pregSkipToOccurence pcre_exec (S n) r subject subject_len ovector
                        oveccount (Z.of_nat n) (Some rcv)
    = Ok (mkWalk (Some 0) (Some c) ovf
                 (repeat (0, wrap32 (subject_len - 0)) n)).
Proof.
  intros pcre pcre_exec r subject subject_len oveccount c ovector ovf n rcv
         Hlen Hc Hend Hfirst Hnext Hn Hmax.
  destruct n as [|m]; [lia|].
  remember (Z.of_nat (S m)) as occurence eqn:Hocc.
  remember (S m) as fuel eqn:Hfuel.
  unfold pregSkipToOccurence. cbn [skip_loop].
  destruct (Z.eqb_spec occurence 0) as [E|_]; [lia|].
  destruct (Z.leb_spec 0 subject_len) as [_|]; [|lia]. cbn [negb].
  rewrite Hfirst.
  destruct (Z.leb_spec c 0) as [|_]; [lia|]. rewrite Hend.
  rewrite (wrap32_id (occurence - 1)) by (unfold INT_MIN, INT_MAX in *; lia).
  change (wrap32 (0 + 0)) with 0. subst fuel.
  rewrite (skip_loop_stays pcre pcre_exec r subject subject_len oveccount c ovf
             Hlen Hc Hend Hnext m (occurence - 1)) by lia.
  reflexivity.
Qed.

(** The empty literal in [abc], fourth occurrence: four calls at offset 0. *)
Lemma walker_empty_match_makes_no_progress_witness :
  pregSkipToOccurence Toy.pcre_exec 5 [] (cstr "abc") 3 [0; 0; 0] 3 4 (Some 0)
  = Ok (mkWalk (Some 0) (Some 1) [0; 0; 0] [(0, 3); (0, 3); (0, 3); (0, 3)]).
Proof.
  apply (walker_empty_match_makes_no_progress Toy.pcre Toy.pcre_exec []
           (cstr "abc") 3 3 1 [0; 0; 0] [0; 0; 0] 4 0).
  - lia.
  - lia.
  - reflexivity.
  - reflexivity.
  - reflexivity.
  - lia.
  - unfold INT_MAX. lia.
Defined.

(** ** Heap balance *)

Section HeapBalance.

Variable pcre : Type.
Variable compileRegex : list byte -> Z -> list byte -> Z -> option pcre * list byte.

(** The heap after pregCompileRegexArg: what was live, and the returned
    pattern, which is new; the duplicate of the argument is gone. *)
Lemma pregCompileRegexArg_heap (a : UDF_ARGS) (msg : list byte) (msglen : Z)
    (w : world) (r : pcre_ptr pcre) (m : list byte) (w' : world) :
  wf_world w ->
  pregCompileRegexArg compileRegex a msg msglen w = Ok ((r, m), w') ->
  wf_world w' /\
  (forall x, In x (w_live w') <-> In x (w_live w) \/ In x (pattern_block r)) /\
  (forall x, In x (pattern_block r) -> ~ In x (w_live w)).
Proof.
  intros Hwf. unfold pregCompileRegexArg.
  unfold bind at 1. unfold stored at 1.
  destruct (poke0 msg NUL) as [msg0|]; [|discriminate].
  unfold ret at 1. unfold bind at 1.
  assert (Hsame : forall w0, Ok (@None (addr * pcre), m, w0) = Ok (r, m, w') ->
                  w_live w0 = w_live w -> w_next w0 = w_next w ->
                  wf_world w' /\
                  (forall x, In x (w_live w') <->
                             In x (w_live w) \/ In x (pattern_block r)) /\
                  (forall x, In x (pattern_block r) -> ~ In x (w_live w))).
  { intros w0 H Hl Hn. inversion H; subst. unfold wf_world. rewrite Hl, Hn.
    split; [exact Hwf|]. split; [intros x; simpl; tauto|intros x []]. }
  destruct (ghargdup_outcome a w)
    as [Hnone|[_ [_ [[text Hdup]|[_ Hdup]]]]].
  - rewrite Hnone.
    destruct (negb (length_at a 0 =? 0) && is_some (arg_at a 0));
      unfold bind, stored; destruct (strncpy msg0 _ _); try discriminate;
      unfold ret; intros H; inversion H; subst;
      apply (Hsame w' eq_refl); reflexivity.
  - clear Hsame. rewrite Hdup. unfold compile.
    destruct (compileRegex text (length_at a 0) msg0 msglen) as [[c|] m1].
    + unfold bind at 1. unfold bind at 1. unfold engine_alloc. unfold ret at 1.
      unfold bind at 1. rewrite free_live by (simpl; auto).
      unfold ret. intros H. inversion H; subst. clear H.
      unfold wf_world in *.
      cbn [w_live w_next logged released granted pattern_block]. repeat split.
      * intros x. rewrite filter_keep. simpl. intros [[E|[E|Hx]] Hne];
          [lia|lia|]. specialize (Hwf x Hx). lia.
      * rewrite filter_keep. simpl.
        intros [[E|[E|Hx]] Hne];
          [right; left; exact E|exfalso; apply Hne; exact E|left; exact Hx].
      * rewrite filter_keep. simpl. intros [Hx|[E|[]]].
        -- specialize (Hwf x Hx). split; [auto|lia].
        -- split; [auto|lia].
      * intros x [E|[]] Hx. specialize (Hwf _ Hx). lia.
    + unfold bind at 1. unfold ret at 1. unfold bind at 1.
      rewrite free_live by (simpl; auto).
      unfold ret. intros H. inversion H; subst. clear H.
      unfold wf_world in *.
      cbn [w_live w_next logged released granted pattern_block]. repeat split.
      * intros x. rewrite filter_keep. simpl. intros [[E|Hx] Hne]; [lia|].
        specialize (Hwf x Hx). lia.
      * rewrite filter_keep. simpl.
        intros [[E|Hx] Hne]; [exfalso; apply Hne; exact E|left; exact Hx].
      * rewrite filter_keep. simpl. intros [Hx|[]].
        specialize (Hwf x Hx). split; [auto|lia].
      * intros x [].
  - rewrite Hdup.
    destruct (negb (length_at a 0 =? 0) && is_some (arg_at a 0));
      unfold bind, stored; destruct (strncpy msg0 _ _); try discriminate;
      unfold ret; intros H; inversion H; subst;
      apply (Hsame _ eq_refl); reflexivity.
Qed.

End HeapBalance.

Section InitHeap.

Variable pcre : Type.
Variable compileRegex : list byte -> Z -> list byte -> Z -> option pcre * list byte.
Variable ghargIsNullConstant : UDF_ARGS -> nat -> bool.
Variable GH_1_0_NULL_HANDLING : bool.

(** The tail of pregInit adds the buffer block, when it gets one, and
    nothing else. *)
Lemma init_return_buffer_heap (i : UDF_INIT pcre) (ca : addr) (p : preg_s pcre)
    (w : world) (i' : UDF_INIT pcre) (w' : world) :
  wf_world w ->
  init_return_buffer i ca p w = Ok (i', w') ->
  exists buf,
    i' = set_ptr i (Some (ca, set_return_buffer
                                (set_return_buffer_size p (init_size i)) buf)) /\
    wf_world w' /\
    (forall x, In x (w_live w') <-> In x (w_live w) \/ In x (buffer_block buf)) /\
    (forall x, In x (buffer_block buf) -> ~ In x (w_live w)).
Proof.
  intros Hwf.
  destruct (init_return_buffer_run pcre i ca p w) as [[_ E]|[_ E]]; rewrite E;
    intros H; inversion H; subst; clear H E; eexists; (split; [reflexivity|]);
    unfold wf_world in *;
    cbn [w_live w_next logged granted refused buffer_block]; repeat split.
  - intros x [E|Hx]; [lia|]. specialize (Hwf x Hx). lia.
  - simpl. tauto.
  - simpl. tauto.
  - intros x [E|[]] Hx. specialize (Hwf x Hx). lia.
  - exact Hwf.
  - simpl. tauto.
  - simpl. tauto.
  - intros x [].
Qed.

(** The heap after pregInit, whatever it returned: what was live, and what
    the context owns, all of which is new. *)
Lemma pregInit_heap (i : UDF_INIT pcre) (a : UDF_ARGS) (msg : list byte)
    (w : world) (r : Z) (i' : UDF_INIT pcre) (a' : UDF_ARGS) (m' : list byte)
    (w' : world) :
  wf_world w ->
  pregInit compileRegex ghargIsNullConstant GH_1_0_NULL_HANDLING i a msg w
  = Ok ((r, i', a', m'), w') ->
  wf_world w' /\
  (forall x, In x (w_live w') <-> In x (w_live w) \/ In x (owned i')) /\
  (forall x, In x (owned i') -> ~ In x (w_live w)).
Proof.
  intros Hwf. unfold pregInit. unfold bind at 1. unfold bind at 1.
  destruct (hd true (w_oracle w)) eqn:Horacle.
  2:{ rewrite (alloc_refused w Horacle). cbn [emit].
      unfold bind, stored. destruct (strcpy msg _); try discriminate.
      unfold ret. intros H. inversion H; subst.
      split; [exact Hwf|]. split; [intros x; simpl; tauto|intros x []]. }
  rewrite (alloc_granted w Horacle). cbn [emit].
  set (w1 := mkWorld _ _ _ _ _).
  assert (Hwf1 : wf_world w1).
  { intros x [E|Hx]; [subst; simpl; lia|]. specialize (Hwf x Hx). simpl. lia. }
  assert (Hlive1 : forall x, In x (w_live w1) <-> w_next w = x \/ In x (w_live w))
    by (intros x; simpl; tauto).
  assert (Hfresh : ~ In (w_next w) (w_live w)).
  { intros Hx. specialize (Hwf _ Hx). lia. }
  assert (Honly : forall p0 w0,
             wf_world w0 ->
             (forall x, In x (w_live w0) <-> In x (w_live w1)) ->
             owned_preg p0 = [] ->
             wf_world w0 /\
             (forall x, In x (w_live w0) <->
                        In x (w_live w) \/
                        In x (owned (set_ptr i (Some (w_next w, p0))))) /\
             (forall x, In x (owned (set_ptr i (Some (w_next w, p0)))) ->
                        ~ In x (w_live w))).
  { intros p0 w0 Hwf0 Hl Hown. unfold owned. cbn [ptr set_ptr]. rewrite Hown.
    split; [exact Hwf0|]. split.
    - intros x. rewrite Hl, Hlive1. simpl. tauto.
    - intros x [E|[]]. subst x. exact Hfresh. }
  destruct (ghargIsNullConstant a 0 && GH_1_0_NULL_HANDLING).
  { unfold bind, stored. destruct (strcpy msg _); try discriminate.
    unfold ret. intros H. inversion H; subst.
    apply Honly; [exact Hwf1|intros x; reflexivity|].
    destruct (ghargIsNullConstant _ 0); reflexivity. }
  set (p1 := if ghargIsNullConstant a 0 then _ else _).
  assert (Hp1 : exists cp, p1 = mkPreg None cp None 0).
  { subst p1. destruct (ghargIsNullConstant a 0); eexists; reflexivity. }
  destruct Hp1 as [cp Hp1]. rewrite Hp1. clear Hp1 p1.
  stores_landed.
  destruct (negb (arg_count _ =? 0) && is_some _).
  - unfold bind at 1. unfold initPtrInfo. unfold bind at 1.
    destruct (pregCompileRegexArg _ _ _ _ _) as [[[rp m] w2]| |] eqn:Hrun;
      try discriminate.
    destruct (pregCompileRegexArg_heap pcre compileRegex _ _ _ _ _ _ _
                Hwf1 Hrun) as [Hwf2 [Hlive2 Hnew]].
    destruct rp as [[ra c]|]; cbn [is_some ret negb Z.eqb].
    + unfold bind.
      destruct (init_return_buffer _ _ _ _) as [[i2 w3]| |] eqn:Hbuf;
        try discriminate.
      unfold ret. intros H. inversion H; subst.
      destruct (init_return_buffer_heap _ _ _ _ _ _ Hwf2 Hbuf)
        as [buf [Hi [Hwf3 [Hlive3 Hnewb]]]].
      subst i'. split; [exact Hwf3|].
      unfold owned, owned_preg.
      cbn [ptr set_ptr re return_buffer set_return_buffer
           set_return_buffer_size set_re set_constant_pattern pattern_block] in *.
      fold (buffer_block buf). split.
      * intros x. rewrite Hlive3, Hlive2, Hlive1, !in_app_iff. simpl. tauto.
      * intros x. rewrite !in_app_iff. simpl. intros [[[E|[]]|Hx]|[E|[]]].
        -- subst x. intros Hx. apply (Hnew ra); [simpl; auto|].
           apply Hlive1. right. exact Hx.
        -- intros Hx'. apply (Hnewb x Hx). apply Hlive2. left.
           apply Hlive1. right. exact Hx'.
        -- subst x. exact Hfresh.
    + intros H. inversion H; subst.
      apply Honly; [exact Hwf2| |reflexivity].
      intros x. rewrite Hlive2. simpl. tauto.
  - unfold bind.
    destruct (init_return_buffer _ _ _ _) as [[i2 w3]| |] eqn:Hbuf;
      try discriminate.
    unfold ret. intros H. inversion H; subst.
    destruct (init_return_buffer_heap _ _ _ _ _ _ Hwf1 Hbuf)
      as [buf [Hi [Hwf3 [Hlive3 Hnewb]]]].
    subst i'. split; [exact Hwf3|].
    unfold owned, owned_preg.
    cbn [ptr set_ptr re return_buffer set_return_buffer
         set_return_buffer_size set_re set_constant_pattern app] in *.
    fold (buffer_block buf). split.
    + intros x. rewrite Hlive3, Hlive1, !in_app_iff. simpl. tauto.
    + intros x. rewrite !in_app_iff. simpl. intros [Hx|[E|[]]].
      * intros Hx'. apply (Hnewb x Hx). apply Hlive1. right. exact Hx'.
      * subst x. exact Hfresh.
Qed.

End InitHeap.

(** X4.  pregCompileRegexArg gives the duplicate of the argument back on
    every path.  Given a message buffer of at least [msglen >= 1] bytes, a
    compileRegex that keeps to it and an allocator that hands out fresh
    addresses, the call returns with the heap holding exactly what it held
    before and, when a pattern is returned, the one new block of that
    pattern. *)
Theorem pregCompileRegexArg_no_leak :
  forall (pcre : Type)
         (compileRegex : list byte -> Z -> list byte -> Z -> option pcre * list byte)
         (a : UDF_ARGS) (msg : list byte) (msglen : Z) (w : world),
    compile_bounded compileRegex ->
    0 < msglen <= INT_MAX ->
    msglen <= Z.of_nat (List.length msg) ->
    wf_world w ->
    exists r m w',
      pregCompileRegexArg compileRegex a msg msglen w = Ok ((r, m), w') /\
      wf_world w' /\
      (forall x, In x (w_live w') <-> In x (w_live w) \/ In x (pattern_block r)) /\
      (forall x, In x (pattern_block r) -> ~ In x (w_live w)).
Proof.
  intros pcre compileRegex a msg msglen w Hb Hmsglen Hmsg Hwf.
  destruct (pregCompileRegexArg_outcome pcre compileRegex a msg msglen w
              Hb Hmsglen Hmsg) as [r [m [w' [Hrun _]]]].
  exists r, m, w'. split; [exact Hrun|].
  exact (pregCompileRegexArg_heap pcre compileRegex a msg msglen w r m w'
           Hwf Hrun).
Qed.

Lemma toy_world0_wf (oracle : list bool) : wf_world (Toy.world0 oracle).
Proof. intros x []. Qed.

(** The stand-in pattern [/ab/]: one new block, the pattern's, at address 1
    (the duplicate was at 0). *)
Lemma pregCompileRegexArg_no_leak_witness :
  exists r m w',
    pregCompileRegexArg Toy.compileRegex (Toy.one_arg "/ab/") Toy.message 128
                        (Toy.world0 []) = Ok ((r, m), w') /\
    wf_world w' /\
    (forall x, In x (w_live w') <-> In x [] \/ In x (pattern_block r)) /\
    (forall x, In x (pattern_block r) -> ~ In x []).
Proof.
  apply (pregCompileRegexArg_no_leak Toy.pcre Toy.compileRegex
           (Toy.one_arg "/ab/") Toy.message 128 (Toy.world0 [])).
  - exact toy_compile_bounded.
  - unfold INT_MAX. lia.
  - vm_compute. discriminate.
  - exact (toy_world0_wf []).
Defined.

(** X5.  pregInit followed by pregDeInit, on a type array with room for the
    two entries pregInit stores, whatever pregInit returned and whichever of
    its allocations were refused: both calls return, pregDeInit frees exactly
    the blocks the context owns, each once, none of which was live before
    pregInit, and the heap ends up holding exactly the blocks it held before
    pregInit. *)
Theorem pregInit_pregDeInit_restores_heap :
  forall (pcre : Type)
         (compileRegex : list byte -> Z -> list byte -> Z -> option pcre * list byte)
         (ghargIsNullConstant : UDF_ARGS -> nat -> bool)
         (GH_1_0_NULL_HANDLING : bool)
         (i : UDF_INIT pcre) (a : UDF_ARGS) (msg : list byte) (w : world),
    compile_bounded compileRegex ->
    128 <= Z.of_nat (List.length msg) ->
    (2 <= List.length (arg_type a))%nat ->
    wf_world w ->
    exists r i' a' m' w' w'',
      pregInit compileRegex ghargIsNullConstant GH_1_0_NULL_HANDLING i a msg w
      = Ok ((r, i', a', m'), w') /\
      pregDeInit i' w' = Ok (set_ptr i' None, w'') /\
      freed (w_trace w'') = freed (w_trace w') ++ owned i' /\
      NoDup (owned i') /\
      (forall x, In x (owned i') -> ~ In x (w_live w)) /\
      same_blocks (w_live w'') (w_live w).
Proof.
  intros pcre compileRegex nullc gh i a msg w Hb Hmsg Hroom Hwf.
  destruct (pregInit_returns pcre compileRegex nullc gh Hb i a msg w Hmsg Hroom)
    as [r [i' [a' [m' [w' [Hinit _]]]]]].
  pose proof (pregInit_wf pcre compileRegex nullc gh i a msg w r i' a' m' w'
                          Hwf Hinit) as Hwfi.
  destruct (pregInit_heap pcre compileRegex nullc gh i a msg w r i' a' m' w'
                          Hwf Hinit) as [_ [Hlive Hnew]].
  destruct (pregDeInit_run pcre i' w' Hwfi) as [w'' [Hrun [Hfreed [Hlive' _]]]].
  exists r, i', a', m', w', w''.
  split; [exact Hinit|]. split; [exact Hrun|]. split; [exact Hfreed|].
  split; [exact (proj1 Hwfi)|]. split; [exact Hnew|].
  intros x. rewrite Hlive', Hlive. split.
  - intros [[Hx|Hx] Hnot]; [exact Hx|contradiction].
  - intros Hx. split; [left; exact Hx|]. intros Hown. exact (Hnew x Hown Hx).
Qed.

(** A constant pattern that compiles, then deinit: the heap is empty again. *)
Lemma pregInit_pregDeInit_restores_heap_witness :
  exists r i' a' m' w' w'',
    pregInit Toy.compileRegex Toy.ghargIsNullConstant false
             (mkInit 1 10 None) (Toy.two_args "/a(b)c/" "abc") Toy.message
             (Toy.world0 []) = Ok ((r, i', a', m'), w') /\
    pregDeInit i' w' = Ok (set_ptr i' None, w'') /\
    freed (w_trace w'') = freed (w_trace w') ++ owned i' /\
    NoDup (owned i') /\
    (forall x, In x (owned i') -> ~ In x []) /\
    same_blocks (w_live w'') [].
Proof.
  apply (pregInit_pregDeInit_restores_heap Toy.pcre Toy.compileRegex
           Toy.ghargIsNullConstant false (mkInit 1 10 None)
           (Toy.two_args "/a(b)c/" "abc") Toy.message (Toy.world0 [])).
  - exact toy_compile_bounded.
  - vm_compute. discriminate.
  - simpl. lia.
  - exact (toy_world0_wf []).
Defined.

(** ** PREG_CHECK *)

Section CheckFacts.

Variable pcre : Type.
Variable compileRegex : list byte -> Z -> list byte -> Z -> option pcre * list byte.
Variable ghargIsNullConstant : UDF_ARGS -> nat -> bool.
Variable GH_1_0_NULL_HANDLING : bool.
Hypothesis compileRegex_bounded : compile_bounded compileRegex.

(** What preg_check does, path by path. *)
Lemma preg_check_run (i : UDF_INIT pcre) (a : UDF_ARGS) (is_null0 : Z)
    (w : world) :
  wf_world w ->
  exists ret isn w',
    preg_check compileRegex ghargIsNullConstant GH_1_0_NULL_HANDLING
               i a is_null0 w = Ok ((ret, isn), w') /\
    (ret = 0 \/ ret = 1) /\
    wf_world w' /\
    same_blocks (w_live w') (w_live w) /\
    (arg_at a 0 = None \/ length_at a 0 = 0 -> ret = 0 /\ w' = w) /\
    (isn = is_null0 \/ isn = 1 /\ ret = 0 /\ w' = w) /\
    (ret = 1 ->
     exists va text w1,
       ghargdup a 0 w = Ok (Some (va, text), w1) /\
       is_some (fst (compileRegex text (length_at a 0)
                       (NUL :: tl (repeat (w_fill w) 255)) 255)) = true) /\
    (negb GH_1_0_NULL_HANDLING && ghargIsNullConstant a 0 = false ->
     forall va text w1,
       ghargdup a 0 w = Ok (Some (va, text), w1) ->
       is_some (fst (compileRegex text (length_at a 0)
                       (NUL :: tl (repeat (w_fill w) 255)) 255)) = true ->
       ret = 1).
Proof.
  intros Hwf. unfold preg_check.
  assert (Hsame : same_blocks (w_live w) (w_live w)) by (intros x; reflexivity).
  destruct (negb GH_1_0_NULL_HANDLING && ghargIsNullConstant a 0) eqn:Hnull.
  { exists 0, 1, w. split; [reflexivity|]. split; [left; reflexivity|].
    split; [exact Hwf|]. split; [exact Hsame|]. split; [auto|].
    split; [right; auto|]. split; [intros E; discriminate|].
    intros E; discriminate. }
  destruct (is_some (arg_at a 0) && negb (length_at a 0 =? 0)) eqn:Hguard.
  2:{ exists 0, is_null0, w. split; [reflexivity|]. split; [left; reflexivity|].
      split; [exact Hwf|]. split; [exact Hsame|]. split; [auto|].
      split; [left; reflexivity|]. split; [intros E; discriminate|].
      intros _ va text w1 Hdup _. exfalso.
      destruct (ghargdup_outcome a w) as [Hnone|[Hp [Hl _]]].
      - rewrite Hnone in Hdup. discriminate.
      - apply andb_false_iff in Hguard. destruct Hguard as [Hg|Hg].
        + destruct (arg_at a 0); [discriminate|contradiction].
        + apply negb_false_iff, Z.eqb_eq in Hg. contradiction. }
  apply andb_true_iff in Hguard. destruct Hguard as [Hpresent Hlen].
  apply negb_true_iff, Z.eqb_neq in Hlen.
  assert (Hp : arg_at a 0 <> None)
    by (destruct (arg_at a 0); [discriminate|discriminate Hpresent]).
  unfold bind at 1. unfold fill_byte at 1.
  destruct (pregCompileRegexArg_outcome pcre compileRegex a
              (repeat (w_fill w) 255) 255 w compileRegex_bounded)
    as [r [m [w1 [Hrun [_ [_ [_ [Hoom Hcomp]]]]]]]];
    [unfold INT_MAX; lia|rewrite repeat_length; lia|].
  destruct (pregCompileRegexArg_heap pcre compileRegex a _ _ w r m w1
              Hwf Hrun) as [Hwf1 [Hlive1 Hnew]].
  unfold bind at 1. rewrite Hrun.
  destruct r as [[ra c]|]; cbn [is_some].
  - assert (Hra : In ra (w_live w1)) by (apply Hlive1; right; simpl; auto).
    unfold bind. rewrite (pcre_free_live ra c w1 Hra).
    exists 1, is_null0, (logged (released w1 ra) [EvPcreFree ra]).
    split; [reflexivity|]. split; [right; reflexivity|]. split; [|split].
    + intros x Hx. apply logged_released_live in Hx. apply Hwf1. tauto.
    + intros x. rewrite logged_released_live, Hlive1. simpl. split.
      * intros [[Hx|[E|[]]] Hne]; [exact Hx|contradiction].
      * intros Hx. split; [left; exact Hx|]. intros E. subst x.
        apply (Hnew ra); [simpl; auto|exact Hx].
    + split; [intros [E|E]; contradiction|]. split; [left; reflexivity|].
      split; [|intros; reflexivity].
      intros _. destruct (ghargdup_outcome a w)
        as [Hnone|[_ [_ [[text Hdup]|[_ Hdup]]]]].
      * destruct (Hoom Hp Hlen w Hnone) as [E _]. discriminate.
      * do 3 eexists. split; [exact Hdup|].
        destruct (Hcomp _ _ _ Hdup) as [E _]. rewrite <- E. reflexivity.
      * destruct (Hoom Hp Hlen _ Hdup) as [E _]. discriminate.
  - exists 0, is_null0, w1. split; [reflexivity|]. split; [left; reflexivity|].
    split; [exact Hwf1|]. split.
    + intros x. rewrite Hlive1. simpl. tauto.
    + split; [intros [E|E]; contradiction|]. split; [left; reflexivity|].
      split; [intros E; discriminate|].
      intros _ va text w2 Hdup Hok. exfalso.
      destruct (Hcomp _ _ _ Hdup) as [E _]. rewrite <- E in Hok. discriminate.
Qed.

End CheckFacts.

(** X6.  preg_check, with a compileRegex that keeps to its message buffer and
    an allocator that hands out fresh addresses, always returns 0 or 1 and
    leaves the heap holding exactly the blocks it held (the duplicate and the
    compiled pattern are both given back).  It returns 0 without calling
    anything when argument 0 is NULL or has length 0.  It returns 1 exactly
    when the argument could be duplicated and compileRegex accepted the
    duplicate (and, in a build without GH_1_0_NULL_HANDLING, the argument is
    not a NULL constant).  [*is_null] is left alone except on the
    NULL-constant path, which sets it and returns 0. *)
Theorem preg_check_result_and_heap :
  forall (pcre : Type)
         (compileRegex : list byte -> Z -> list byte -> Z -> option pcre * list byte)
         (ghargIsNullConstant : UDF_ARGS -> nat -> bool)
         (GH_1_0_NULL_HANDLING : bool)
         (i : UDF_INIT pcre) (a : UDF_ARGS) (is_null0 : Z) (w : world),
    compile_bounded compileRegex ->
    wf_world w ->
    exists ret isn w',
      preg_check compileRegex ghargIsNullConstant GH_1_0_NULL_HANDLING
                 i a is_null0 w = Ok ((ret, isn), w') /\
      (ret = 0 \/ ret = 1) /\
      wf_world w' /\
      same_blocks (w_live w') (w_live w) /\
      (arg_at a 0 = None \/ length_at a 0 = 0 -> ret = 0 /\ w' = w) /\
      (isn = is_null0 \/ isn = 1 /\ ret = 0 /\ w' = w) /\
      (ret = 1 ->
       exists va text w1,
         ghargdup a 0 w = Ok (Some (va, text), w1) /\
         is_some (fst (compileRegex text (length_at a 0)
                         (NUL :: tl (repeat (w_fill w) 255)) 255)) = true) /\
      (negb GH_1_0_NULL_HANDLING && ghargIsNullConstant a 0%nat = false ->
       forall va text w1,
         ghargdup a 0 w = Ok (Some (va, text), w1) ->
         is_some (fst (compileRegex text (length_at a 0)
                         (NUL :: tl (repeat (w_fill w) 255)) 255)) = true ->
         ret = 1).
Proof.
  intros pcre compileRegex nullc gh i a is_null0 w Hb Hwf.
  exact (preg_check_run pcre compileRegex nullc gh Hb i a is_null0 w Hwf).
Qed.

(** The stand-in pattern [/fox/]: 1, and an empty heap afterwards. *)
Lemma preg_check_result_and_heap_witness :
  exists w',
    preg_check Toy.compileRegex Toy.ghargIsNullConstant false
               (mkInit 0 0 None) (Toy.one_arg "/fox/") 0 (Toy.world0 [])
    = Ok ((1, 0), w') /\
    same_blocks (w_live w') [].
Proof.
  destruct (preg_check_result_and_heap Toy.pcre Toy.compileRegex
              Toy.ghargIsNullConstant false (mkInit 0 0 None)
              (Toy.one_arg "/fox/") 0 (Toy.world0 [])
              toy_compile_bounded (toy_world0_wf []))
    as [ret [isn [w' [Hrun [_ [_ [Hsame _]]]]]]].
  exists w'. split; [|exact Hsame].
  rewrite Hrun. revert Hrun. vm_compute. intros H. inversion H. reflexivity.
Defined.

(** X7.  The life of one PREG_CHECK call with its single argument:
    preg_check_init (which reports success even when pregInit failed), one
    row of preg_check, preg_check_deinit.  Given the host's message buffer, a
    type array with room for the two entries pregInit stores, a compileRegex
    that keeps to its message buffer and an allocator that hands out fresh
    addresses, all three return, whatever the argument is and whichever
    allocations are refused, and the heap ends up holding exactly the blocks
    it held at the start. *)
Theorem preg_check_life_restores_heap :
  forall (pcre : Type)
         (compileRegex : list byte -> Z -> list byte -> Z -> option pcre * list byte)
         (ghargIsNullConstant : UDF_ARGS -> nat -> bool)
         (GH_1_0_NULL_HANDLING : bool)
         (i : UDF_INIT pcre) (a : UDF_ARGS) (msg : list byte) (is_null0 : Z)
         (w : world),
    compile_bounded compileRegex ->
    MYSQL_ERRMSG_SIZE <= Z.of_nat (List.length msg) ->
    wf_world w ->
    arg_count a = 1 ->
    (2 <= List.length (arg_type a))%nat ->
    exists i1 a1 m1 w1 ret isn w2 w3,
      preg_check_init compileRegex ghargIsNullConstant GH_1_0_NULL_HANDLING
                      i a msg w = Ok ((0, i1, a1, m1), w1) /\
      preg_check compileRegex ghargIsNullConstant GH_1_0_NULL_HANDLING
                 i1 a1 is_null0 w1 = Ok ((ret, isn), w2) /\
      (ret = 0 \/ ret = 1) /\
      preg_check_deinit i1 w2 = Ok (set_ptr i1 None, w3) /\
      same_blocks (w_live w3) (w_live w).
Proof.
  intros pcre compileRegex nullc gh i a msg is_null0 w Hb Hmsg Hwf Hone Hroom.
  unfold MYSQL_ERRMSG_SIZE in Hmsg.
  destruct (pregInit_returns pcre compileRegex nullc gh Hb
                             (set_maybe_null i 0) a msg w)
    as [r0 [i1 [a1 [m1 [w1 [Hinit _]]]]]]; [lia|exact Hroom|].
  pose proof (pregInit_wf pcre compileRegex nullc gh _ a msg w r0 i1 a1 m1 w1
                          Hwf Hinit) as [Hnd Hown].
  destruct (pregInit_heap pcre compileRegex nullc gh _ a msg w r0 i1 a1 m1 w1
                          Hwf Hinit) as [Hwf1 [Hlive1 Hnew]].
  destruct (preg_check_run pcre compileRegex nullc gh Hb i1 a1 is_null0 w1 Hwf1)
    as [ret [isn [w2 [Hrow [Hret [Hwf2 [Hsame _]]]]]]].
  assert (Hwfi : wf_init i1 w2).
  { split; [exact Hnd|]. intros x Hx. apply Hsame. apply Hown. exact Hx. }
  destruct (pregDeInit_run pcre i1 w2 Hwfi) as [w3 [Hde [_ [Hlive3 _]]]].
  exists i1, a1, m1, w1, ret, isn, w2, w3.
  split.
  { unfold preg_check_init. rewrite Hone. cbn [Z.eqb Pos.eqb negb].
    unfold bind. rewrite Hinit. reflexivity. }
  split; [exact Hrow|]. split; [exact Hret|]. split; [exact Hde|].
  intros x. rewrite Hlive3. rewrite (Hsame x), Hlive1. split.
  - intros [[Hx|Hx] Hnot]; [exact Hx|contradiction].
  - intros Hx. split; [left; exact Hx|]. intros Ho. exact (Hnew x Ho Hx).
Qed.

(** A pattern without its closing delimiter, in a type array of two entries:
    init reports 0 all the same, the row answers 0, deinit frees the context
    block; the heap is empty again. *)
Lemma preg_check_life_restores_heap_witness :
  exists i1 a1 m1 w1 ret isn w2 w3,
    preg_check_init Toy.compileRegex Toy.ghargIsNullConstant false
                    (mkInit 1 0 None) (Toy.one_arg_spare "/abc") Toy.message
                    (Toy.world0 []) = Ok ((0, i1, a1, m1), w1) /\
    preg_check Toy.compileRegex Toy.ghargIsNullConstant false
               i1 a1 0 w1 = Ok ((ret, isn), w2) /\
    (ret = 0 \/ ret = 1) /\
    preg_check_deinit i1 w2 = Ok (set_ptr i1 None, w3) /\
    same_blocks (w_live w3) [].
Proof.
  apply (preg_check_life_restores_heap Toy.pcre Toy.compileRegex
           Toy.ghargIsNullConstant false (mkInit 1 0 None)
           (Toy.one_arg_spare "/abc") Toy.message 0 (Toy.world0 [])).
  - exact toy_compile_bounded.
  - vm_compute. discriminate.
  - exact (toy_world0_wf []).
  - reflexivity.
  - simpl. lia.
Defined.

(** ** Group resolver *)

Lemma byte_of_mod (z : Z) :
  exists b, Byte.of_N (Z.to_N (z mod 256)) = Some b /\
            Z.of_N (Byte.to_N b) = z mod 256.
Proof.
  pose proof (Z.mod_pos_bound z 256 eq_refl) as Hrange.
  destruct (Byte.of_N (Z.to_N (z mod 256))) as [b|] eqn:E.
  - exists b. split; [reflexivity|].
    apply Byte.to_of_N in E. rewrite E. apply Z2N.id. lia.
  - apply Byte.of_N_None_iff in E. exfalso. lia.
Qed.

Lemma le_bytes_length (n : nat) : forall z, List.length (le_bytes n z) = n.
Proof.
  induction n as [|n IH]; intros z; [reflexivity|]. cbn [le_bytes].
  destruct (Byte.of_N (Z.to_N (z mod 256))); simpl; rewrite IH; reflexivity.
Qed.

(** Spelling a number in [n] bytes and reading it back keeps it modulo
    [256 ^ n]. *)
Lemma le_value_le_bytes (n : nat) :
  forall z, le_value (le_bytes n z) = z mod 256 ^ Z.of_nat n.
Proof.
  induction n as [|n IH]; intros z.
  - simpl. symmetry. apply Z.mod_1_r.
  - cbn [le_bytes]. destruct (byte_of_mod z) as [b [Hb Hv]]. rewrite Hb.
    cbn [le_value]. rewrite Hv, IH.
    rewrite Nat2Z.inj_succ, Z.pow_succ_r by lia.
    symmetry. apply Z.rem_mul_r; [lia|]. apply Z.pow_pos_nonneg; lia.
Qed.

Lemma read_longlong_le_bytes (v : Z) (rest : list byte) :
  -9223372036854775808 <= v < 9223372036854775808 ->
  read_longlong (le_bytes 8 v ++ rest) = Some v.
Proof.
  intros Hv. unfold read_longlong.
  rewrite length_app, le_bytes_length. cbn [Nat.leb Nat.add].
  replace (firstn 8 (le_bytes 8 v ++ rest)) with (le_bytes 8 v).
  2:{ rewrite firstn_app, le_bytes_length, Nat.sub_diag.
      rewrite firstn_all2 by (rewrite le_bytes_length; lia).
      rewrite firstn_O. symmetry. apply app_nil_r. }
  rewrite le_value_le_bytes. unfold to_longlong. f_equal.
  change (256 ^ Z.of_nat 8) with 18446744073709551616.
  rewrite Zplus_mod_idemp_l. rewrite Z.mod_small; lia.
Qed.

Lemma ghargdup_cases (a : UDF_ARGS) (n : nat) (w : world) :
  ghargdup a n w = Ok (None, w) \/
  (exists name,
      ghargdup a n w
      = Ok (Some (w_next w, name),
            logged (granted w)
                   [EvMalloc (to_ulong (length_at a n + 1)) (Some (w_next w))])) \/
  ghargdup a n w
  = Ok (None, logged (refused w)
                     [EvMalloc (to_ulong (length_at a n + 1)) None]).
Proof.
  unfold ghargdup.
  destruct (negb (Z.of_nat n <? arg_count a)); [left; reflexivity|].
  destruct (arg_at a n) as [bytes|]; [|left; reflexivity].
  destruct (length_at a n =? 0); [left; reflexivity|].
  right. unfold bind. destruct (hd true (w_oracle w)) eqn:Horacle.
  - left. rewrite (malloc_granted _ w Horacle). eexists. reflexivity.
  - right. rewrite (malloc_refused _ w Horacle). reflexivity.
Qed.

(** X8.  A numeric group reference ([arg_type[argnum]] is INT_RESULT, with
    [argnum] below [arg_count]): the result is the 64-bit integer stored in
    argument 2, converted to [int], with no check against the pattern's
    groups; for a value from 0 to INT_MAX that is the value itself.  Nothing
    is allocated, freed or logged.  When argument 2 is NULL (an SQL NULL),
    the code dereferences it. *)
Theorem pregGetGroupNum_numeric :
  forall (pcre : Type) (pcre_get_stringnumber : pcre -> list byte -> Z)
         (r : pcre) (a : UDF_ARGS) (argnum : Z) (w : world),
    to_uint argnum < arg_count a ->
    is_INT_RESULT (nth (Z.to_nat argnum) (arg_type a) STRING_RESULT) = true ->
    (forall v rest,
        -9223372036854775808 <= v < 9223372036854775808 ->
        arg_at a 2 = Some (le_bytes 8 v ++ rest) ->
        pregGetGroupNum pcre_get_stringnumber r a argnum w = Ok (wrap32 v, w) /\
        (0 <= v <= INT_MAX ->
         pregGetGroupNum pcre_get_stringnumber r a argnum w = Ok (v, w))) /\
    (arg_at a 2 = None ->
     pregGetGroupNum pcre_get_stringnumber r a argnum w = Fault).
Proof.
  intros pcre getnum r a argnum w Hin Hint. unfold pregGetGroupNum.
  rewrite (geb_false _ _ Hin), Hint. split.
  - intros v rest Hv Harg. rewrite Harg. unfold bind, stored.
    rewrite (read_longlong_le_bytes v rest Hv). split; [reflexivity|].
    intros Hsmall. unfold ret.
    rewrite wrap32_id by (unfold INT_MIN, INT_MAX in *; lia). reflexivity.
  - intros Harg. rewrite Harg. reflexivity.
Qed.

(** PREG_CAPTURE-style arguments (pattern, subject, group): group 4294967297
    reads as group 1. *)
Lemma pregGetGroupNum_numeric_witness :
  (forall v rest,
      -9223372036854775808 <= v < 9223372036854775808 ->
      Some (le_bytes 8 4294967297) = Some (le_bytes 8 v ++ rest) ->
      pregGetGroupNum (fun (_ : Toy.pcre) (_ : list byte) => -7) (cstr "a")
        (mkArgs 3 [STRING_RESULT; STRING_RESULT; INT_RESULT]
                [Some (cstr "/a/"); Some (cstr "a");
                 Some (le_bytes 8 4294967297)] [3; 1; 8])
        2 (Toy.world0 []) = Ok (wrap32 v, Toy.world0 []) /\
      (0 <= v <= INT_MAX ->
       pregGetGroupNum (fun (_ : Toy.pcre) (_ : list byte) => -7) (cstr "a")
         (mkArgs 3 [STRING_RESULT; STRING_RESULT; INT_RESULT]
                 [Some (cstr "/a/"); Some (cstr "a");
                  Some (le_bytes 8 4294967297)] [3; 1; 8])
         2 (Toy.world0 []) = Ok (v, Toy.world0 []))) /\
  pregGetGroupNum (fun (_ : Toy.pcre) (_ : list byte) => -7) (cstr "a")
    (mkArgs 3 [STRING_RESULT; STRING_RESULT; INT_RESULT]
            [Some (cstr "/a/"); Some (cstr "a");
             Some (le_bytes 8 4294967297)] [3; 1; 8])
    2 (Toy.world0 []) = Ok (1, Toy.world0 []).
Proof.
  split.
  - apply (pregGetGroupNum_numeric Toy.pcre (fun _ _ => -7) (cstr "a")
             (mkArgs 3 [STRING_RESULT; STRING_RESULT; INT_RESULT]
                     [Some (cstr "/a/"); Some (cstr "a");
                      Some (le_bytes 8 4294967297)] [3; 1; 8])
             2 (Toy.world0 [])); reflexivity.
  - vm_compute. reflexivity.
Defined.

(** X9.  With an allocator that hands out fresh addresses, pregGetGroupNum
    always returns when the group is omitted or named, and leaves the heap
    holding exactly the blocks it held.  An omitted group ([argnum] not below
    [arg_count] in the unsigned comparison) is group 0, with nothing called;
    a negative [argnum] is such a one whenever [arg_count] is at most
    2147483648.  A named group is looked up under the duplicate of argument
    2, whatever [argnum] is, and the duplicate is given back; when argument 2
    cannot be duplicated the result is -1 and one line goes to stderr. *)
Theorem pregGetGroupNum_named_or_omitted :
  forall (pcre : Type) (pcre_get_stringnumber : pcre -> list byte -> Z)
         (r : pcre) (a : UDF_ARGS) (argnum : Z) (w : world),
    wf_world w ->
    (arg_count a <= to_uint argnum ->
     pregGetGroupNum pcre_get_stringnumber r a argnum w = Ok (0, w)) /\
    (INT_MIN <= argnum < 0 ->
     arg_count a <= 2147483648 ->
     pregGetGroupNum pcre_get_stringnumber r a argnum w = Ok (0, w)) /\
    (to_uint argnum < arg_count a ->
     is_INT_RESULT (nth (Z.to_nat argnum) (arg_type a) STRING_RESULT) = false ->
     exists groupnum w',
       pregGetGroupNum pcre_get_stringnumber r a argnum w = Ok (groupnum, w') /\
       same_blocks (w_live w') (w_live w) /\
       wf_world w' /\
       (forall w1, ghargdup a 2 w = Ok (None, w1) ->
                   groupnum = -1 /\ w_trace w' = w_trace w1 ++ [EvStderr]) /\
       (forall va name w1,
           ghargdup a 2 w = Ok (Some (va, name), w1) ->
           groupnum = pcre_get_stringnumber r name)).
Proof.
  intros pcre getnum r a argnum w Hwf. unfold pregGetGroupNum.
  split; [|split].
  - intros Hout. rewrite (geb_true _ _ Hout). reflexivity.
  - intros Hneg Hcount.
    assert (Huint : to_uint argnum = argnum + 4294967296).
    { unfold to_uint. symmetry. apply Z.mod_unique_pos with (q := -1);
        unfold INT_MIN in *; lia. }
    rewrite geb_true by (rewrite Huint; unfold INT_MIN in *; lia).
    reflexivity.
  - intros Hin Hnamed. rewrite (geb_false _ _ Hin), Hnamed.
    unfold bind at 1.
    destruct (ghargdup_cases a 2 w) as [E|[[name E]|E]]; rewrite E.
    + exists (-1), (logged w [EvStderr]). split; [reflexivity|].
      split; [intros x; reflexivity|]. split; [exact Hwf|].
      split; [intros w1 H; inversion H; subst; auto|].
      intros va n w1 H. discriminate.
    + unfold bind. rewrite free_live by (simpl; auto).
      eexists _, _. split; [reflexivity|]. split; [|split; [|split]].
      * intros x. rewrite logged_released_live. simpl. split.
        -- intros [[Ex|Hx] Hne]; [contradiction|exact Hx].
        -- intros Hx. split; [right; exact Hx|]. specialize (Hwf x Hx). lia.
      * intros x Hx. apply logged_released_live in Hx. simpl in *.
        destruct Hx as [[Ex|Hx] Hne]; [contradiction|].
        specialize (Hwf x Hx). lia.
      * intros w1 H. discriminate.
      * intros va n w1 H. inversion H; subst. reflexivity.
    + eexists _, _. split; [reflexivity|]. split; [intros x; reflexivity|].
      split; [exact Hwf|].
      split; [intros w1 H; inversion H; subst; auto|].
      intros va n w1 H. discriminate.
Qed.

(** The group named [color], with a stand-in name table that knows it as
    group 1: the duplicate comes and goes. *)
Lemma pregGetGroupNum_named_or_omitted_witness :
  exists w',
    pregGetGroupNum
      (fun (_ : Toy.pcre) name =>
         if list_eq_dec Byte.byte_eq_dec name (cstr "color" ++ [NUL])
         then 1 else -7)
      (cstr "x")
      (mkArgs 3 [STRING_RESULT; STRING_RESULT; STRING_RESULT]
              [Some (cstr "/x/"); Some (cstr "blue car"); Some (cstr "color")]
              [3; 8; 5])
      2 (Toy.world0 []) = Ok (1, w') /\
    same_blocks (w_live w') [].
Proof.
  destruct (proj2 (proj2 (pregGetGroupNum_named_or_omitted Toy.pcre
              (fun (_ : Toy.pcre) name =>
                 if list_eq_dec Byte.byte_eq_dec name (cstr "color" ++ [NUL])
                 then 1 else -7)
              (cstr "x")
              (mkArgs 3 [STRING_RESULT; STRING_RESULT; STRING_RESULT]
                      [Some (cstr "/x/"); Some (cstr "blue car");
                       Some (cstr "color")] [3; 8; 5])
              2 (Toy.world0 []) (toy_world0_wf []))) eq_refl eq_refl)
    as [groupnum [w' [Hrun [Hsame _]]]].
  exists w'. split; [|exact Hsame].
  rewrite Hrun. revert Hrun. vm_compute. intros H. inversion H. reflexivity.
Defined.

(** ** Output materializer: every path *)

Section MoveFacts.

Variable pcre : Type.
Implicit Types (i : UDF_INIT pcre) (p : preg_s pcre) (w : world).

Lemma move_negative i is_null0 s s_len w ca p ba b0 rest :
  ptr i = Some (ca, p) ->
  return_buffer p = Some (ba, b0 :: rest) ->
  s_len < 0 ->
  pregMoveToReturnValues i is_null0 s s_len w
  = Ok (mkMoved (ret_default i is_null0 ba) 0 (is_null_default i is_null0) 1
                (set_ptr i (Some (ca, set_return_buffer p (Some (ba, NUL :: rest))))),
        logged w [EvLog s_len]).
Proof.
  intros Hptr Hbuf Hneg. unfold pregMoveToReturnValues. rewrite Hptr, Hbuf.
  rewrite (geb_false s_len 0 Hneg). reflexivity.
Qed.

Lemma move_absent i is_null0 s_len w ca p ba b0 rest :
  ptr i = Some (ca, p) ->
  return_buffer p = Some (ba, b0 :: rest) ->
  0 <= s_len ->
  pregMoveToReturnValues i is_null0 None s_len w
  = Ok (mkMoved (Some ba) 0 0 0
                (set_ptr i (Some (ca, set_return_buffer p (Some (ba, NUL :: rest))))),
        w).
Proof.
  intros Hptr Hbuf Hpos. unfold pregMoveToReturnValues. rewrite Hptr, Hbuf.
  rewrite (geb_true s_len 0 Hpos). reflexivity.
Qed.

Lemma move_fits i is_null0 sa src s_len w ca p ba b0 rest :
  ptr i = Some (ca, p) ->
  return_buffer p = Some (ba, b0 :: rest) ->
  Z.of_nat (List.length (b0 :: rest)) = return_buffer_size p ->
  In sa (w_live w) ->
  0 <= s_len < INT_MAX ->
  s_len <= Z.of_nat (List.length src) ->
  s_len + 1 <= return_buffer_size p ->
  pregMoveToReturnValues i is_null0 (Some (sa, src)) s_len w
  = Ok (mkMoved (Some ba) s_len 0 0
                (set_ptr i (Some (ca, set_return_buffer p
                   (Some (ba, firstn (Z.to_nat s_len) src
                              ++ NUL :: skipn (S (Z.to_nat s_len)) (NUL :: rest)))))),
        logged (released w sa) [EvFree sa]).
Proof.
  intros Hptr Hbuf Hcap Hsa Hl Hsrc Hfit.
  unfold pregMoveToReturnValues. rewrite Hptr, Hbuf.
  unfold bind at 1. unfold stored at 1. rewrite poke0_cons. unfold ret at 1.
  rewrite (geb_true s_len 0 (proj1 Hl)). cbn [is_some]. unfold bind.
  rewrite (copy_fits pcre (set_return_buffer p (Some (ba, NUL :: rest)))
                     sa src s_len w ba (NUL :: rest) eq_refl Hcap Hl Hsrc Hfit).
  rewrite free_live by exact Hsa.
  rewrite (geb_true s_len 0 (proj1 Hl)). unfold ret.
  rewrite to_ulong_id by (unfold INT_MAX in *; lia). reflexivity.
Qed.

Lemma move_grows i is_null0 sa src s_len w ca p ba b0 rest :
  ptr i = Some (ca, p) ->
  return_buffer p = Some (ba, b0 :: rest) ->
  In ba (w_live w) ->
  In sa (w_live w) ->
  sa <> ba ->
  0 <= s_len < INT_MAX ->
  s_len <= Z.of_nat (List.length src) ->
  return_buffer_size p < s_len + 1 ->
  hd true (w_oracle w) = true ->
  pregMoveToReturnValues i is_null0 (Some (sa, src)) s_len w
  = Ok (mkMoved (Some (w_next w)) s_len 0 0
                (set_ptr i (Some (ca, mkPreg (re p) (constant_pattern p)
                   (Some (w_next w, firstn (Z.to_nat s_len) src ++ [NUL]))
                   (s_len + 1)))),
        logged (released
                  (logged (released
                             (logged (granted w)
                                     [EvMalloc (s_len + 1) (Some (w_next w))])
                             ba)
                          [EvFree ba])
                  sa)
               [EvFree sa]).
Proof.
  intros Hptr Hbuf Hba Hsa Hne Hl Hsrc Hsmall Horacle.
  unfold pregMoveToReturnValues. rewrite Hptr, Hbuf.
  unfold bind at 1. unfold stored at 1. rewrite poke0_cons. unfold ret at 1.
  rewrite (geb_true s_len 0 (proj1 Hl)). cbn [is_some]. unfold bind.
  rewrite (copy_grows pcre (set_return_buffer p (Some (ba, NUL :: rest)))
                      sa src s_len w ba (NUL :: rest) eq_refl Hba Hl Hsrc
                      Hsmall Horacle).
  rewrite free_live.
  2:{ cbn [w_live logged]. apply released_live. split; [|congruence].
      cbn [w_live logged granted]. right. exact Hsa. }
  rewrite (geb_true s_len 0 (proj1 Hl)). unfold ret.
  rewrite to_ulong_id by (unfold INT_MAX in *; lia). reflexivity.
Qed.

Lemma move_refused i is_null0 sa src s_len w ca p ba b0 rest :
  ptr i = Some (ca, p) ->
  return_buffer p = Some (ba, b0 :: rest) ->
  In sa (w_live w) ->
  0 <= s_len < INT_MAX ->
  return_buffer_size p < s_len + 1 ->
  hd true (w_oracle w) = false ->
  pregMoveToReturnValues i is_null0 (Some (sa, src)) s_len w
  = Ok (mkMoved (ret_default i is_null0 ba) 0 (is_null_default i is_null0) 1
                (set_ptr i (Some (ca, set_return_buffer p (Some (ba, NUL :: rest))))),
        logged (released
                  (logged (logged (refused w) [EvMalloc (s_len + 1) None])
                          [EvStderr])
                  sa)
               [EvFree sa]).
Proof.
  intros Hptr Hbuf Hsa Hl Hsmall Horacle.
  unfold pregMoveToReturnValues. rewrite Hptr, Hbuf.
  unfold bind at 1. unfold stored at 1. rewrite poke0_cons. unfold ret at 1.
  rewrite (geb_true s_len 0 (proj1 Hl)). cbn [is_some]. unfold bind.
  rewrite (copy_refused pcre (set_return_buffer p (Some (ba, NUL :: rest)))
                        (Some (sa, src)) s_len w Hl Hsmall Horacle).
  rewrite free_live by (cbn [w_live logged refused]; exact Hsa).
  rewrite (geb_false (-1) 0) by lia. reflexivity.
Qed.

End MoveFacts.

(** X10.  A successful move hands the host the string it was given.  With the
    return buffer in place, a live string [s] of at least [s_len] bytes
    ([0 <= s_len < INT_MAX]) and either room in the buffer or an allocator
    that grants the request: [*error = 0], [*is_null = 0],
    [*length = s_len], and the pointer returned is the return buffer, which
    now starts with the first [s_len] bytes of [s] followed by NUL.  When the
    string fitted, the buffer is the block it was, with the capacity it
    had. *)
Theorem pregMoveToReturnValues_value :
  forall (pcre : Type) (i : UDF_INIT pcre) (is_null0 : Z) (sa : addr)
         (src : list byte) (s_len : Z) (w : world) (ca : addr)
         (p : preg_s pcre) (ba : addr) (buf : list byte),
    ptr i = Some (ca, p) ->
    return_buffer p = Some (ba, buf) ->
    wf_buffer p w ->
    In sa (w_live w) ->
    sa <> ba ->
    0 <= s_len < INT_MAX ->
    s_len <= Z.of_nat (List.length src) ->
    s_len + 1 <= return_buffer_size p \/ hd true (w_oracle w) = true ->
    exists out w' p' ba' rest,
      pregMoveToReturnValues i is_null0 (Some (sa, src)) s_len w = Ok (out, w') /\
      mv_error out = 0 /\ mv_is_null out = 0 /\ mv_length out = s_len /\
      mv_ret out = Some ba' /\
      mv_initid out = set_ptr i (Some (ca, p')) /\
      return_buffer p'
      = Some (ba', firstn (Z.to_nat s_len) src ++ NUL :: rest) /\
      (s_len + 1 <= return_buffer_size p ->
       ba' = ba /\ return_buffer_size p' = return_buffer_size p).
Proof.
  intros pcre i is_null0 sa src s_len w ca p ba buf Hptr Hbuf Hwf Hsa Hne Hl
         Hsrc Hroom.
  unfold wf_buffer in Hwf. rewrite Hbuf in Hwf. destruct Hwf as [Hba [Hcap Hone]].
  destruct buf as [|b0 rest0]; [simpl in Hcap; lia|].
  destruct (Z.le_gt_cases (s_len + 1) (return_buffer_size p)) as [Hfit|Hsmall].
  - eexists _, _, _, _, _. split.
    { apply (move_fits pcre i is_null0 sa src s_len w ca p ba b0 rest0);
        assumption. }
    cbn [mv_error mv_is_null mv_length mv_ret mv_initid].
    do 6 (split; [reflexivity|]). intros _. split; reflexivity.
  - destruct Hroom as [Hfit|Horacle]; [lia|].
    eexists _, _, _, _, _. split.
    { apply (move_grows pcre i is_null0 sa src s_len w ca p ba b0 rest0);
        try assumption; lia. }
    cbn [mv_error mv_is_null mv_length mv_ret mv_initid].
    do 6 (split; [reflexivity|]). intros Hfit. lia.
Qed.

(** [hello] into a buffer of four bytes, with an allocator that grants. *)
Lemma pregMoveToReturnValues_value_witness :
  exists out w' p' ba' rest,
    pregMoveToReturnValues
      (mkInit 1 3 (Some (0%nat, mkPreg (@None (addr * Toy.pcre)) 0
                                   (Some (1%nat, repeat xff 4)) 4)))
      0 (Some (2%nat, cstr "hello")) 5
      (mkWorld 3%nat [2; 1; 0]%nat [] xff []) = Ok (out, w') /\
    mv_error out = 0 /\ mv_is_null out = 0 /\ mv_length out = 5 /\
    mv_ret out = Some ba' /\
    mv_initid out = mkInit 1 3 (Some (0%nat, p')) /\
    return_buffer p' = Some (ba', cstr "hello" ++ NUL :: rest) /\
    (5 + 1 <= 4 -> ba' = 1%nat /\ return_buffer_size p' = 4).
Proof.
  apply (pregMoveToReturnValues_value Toy.pcre
           (mkInit 1 3 (Some (0%nat, mkPreg None 0 (Some (1%nat, repeat xff 4)) 4)))
           0 2%nat (cstr "hello") 5
           (mkWorld 3%nat [2; 1; 0]%nat [] xff [])
           0%nat (mkPreg None 0 (Some (1%nat, repeat xff 4)) 4)
           1%nat (repeat xff 4)).
  - reflexivity.
  - reflexivity.
  - unfold wf_buffer. simpl. repeat split; auto; lia.
  - simpl. auto.
  - discriminate.
  - unfold INT_MAX. lia.
  - simpl. lia.
  - right. reflexivity.
Defined.

Lemma ret_default_none {pcre : Type} (i : UDF_INIT pcre) (is_null0 : Z)
    (ba : addr) :
  ret_default i is_null0 ba = None <-> is_null_default i is_null0 <> 0.
Proof.
  unfold ret_default.
  destruct (Z.eqb_spec (is_null_default i is_null0) 0) as [E|E]; cbn [negb].
  - split; [discriminate|contradiction].
  - split; [intros _; exact E|reflexivity].
Qed.

(** X11.  pregMoveToReturnValues keeps the context fit for the next row.
    From a context whose return buffer is live and as large as its recorded
    capacity, called with any [s_len < INT_MAX] and either no string or a
    live string of at least [s_len] bytes, it returns, and afterwards the
    buffer is again live and as large as the recorded capacity; the capacity
    has not gone down (it is what it was, or [s_len + 1]); the compiled
    pattern and the constant-pattern flag are untouched; the pointer
    returned is NULL exactly when [*is_null] is set; and an error always
    comes with length 0. *)
Theorem pregMoveToReturnValues_keeps_context :
  forall (pcre : Type) (i : UDF_INIT pcre) (is_null0 : Z) (s : option block)
         (s_len : Z) (w : world) (ca : addr) (p : preg_s pcre) (ba : addr)
         (buf : list byte),
    ptr i = Some (ca, p) ->
    return_buffer p = Some (ba, buf) ->
    wf_buffer p w ->
    wf_world w ->
    source_ok s s_len ba w ->
    s_len < INT_MAX ->
    exists out w' p',
      pregMoveToReturnValues i is_null0 s s_len w = Ok (out, w') /\
      mv_initid out = set_ptr i (Some (ca, p')) /\
      wf_buffer p' w' /\
      wf_world w' /\
      return_buffer_size p <= return_buffer_size p' /\
      (return_buffer_size p' = return_buffer_size p \/
       return_buffer_size p' = s_len + 1) /\
      re p' = re p /\
      constant_pattern p' = constant_pattern p /\
      (mv_ret out = None <-> mv_is_null out <> 0) /\
      (mv_error out = 0 \/ mv_error out = 1 /\ mv_length out = 0).
Proof.
  intros pcre i is_null0 s s_len w ca p ba buf Hptr Hbuf Hwfb Hwf Hs Hmax.
  unfold wf_buffer in Hwfb. rewrite Hbuf in Hwfb.
  destruct Hwfb as [Hba [Hcap Hone]].
  destruct buf as [|b0 rest]; [simpl in Hcap; lia|].
  assert (Hemptied : forall w0,
             (forall x, In x (w_live w0) -> In x (w_live w)) ->
             In ba (w_live w0) -> w_next w0 = w_next w ->
             wf_buffer (set_return_buffer p (Some (ba, NUL :: rest))) w0 /\
             wf_world w0).
  { intros w0 Hsub Hin Hnext. split.
    - unfold wf_buffer. cbn [return_buffer set_return_buffer return_buffer_size].
      split; [exact Hin|]. split; [exact Hcap|exact Hone].
    - intros x Hx. rewrite Hnext. apply Hwf. apply Hsub. exact Hx. }
  destruct (Z.lt_ge_cases s_len 0) as [Hneg|Hpos].
  { (* the error path *)
    eexists _, _, _. split.
    { apply (move_negative pcre i is_null0 s s_len w ca p ba b0 rest);
        assumption. }
    cbn [mv_initid mv_ret mv_is_null mv_error mv_length].
    split; [reflexivity|].
    destruct (Hemptied (logged w [EvLog s_len])) as [H1 H2]; auto.
    split; [exact H1|]. split; [exact H2|].
    cbn [return_buffer_size set_return_buffer re constant_pattern].
    split; [lia|]. split; [left; reflexivity|].
    split; [reflexivity|]. split; [reflexivity|].
    split; [apply ret_default_none|right; auto]. }
  destruct s as [[sa src]|].
  2:{ (* no string: an empty value *)
      eexists _, _, _. split.
      { apply (move_absent pcre i is_null0 s_len w ca p ba b0 rest);
          assumption. }
      cbn [mv_initid mv_ret mv_is_null mv_error mv_length].
      split; [reflexivity|].
      destruct (Hemptied w) as [H1 H2]; auto.
      split; [exact H1|]. split; [exact H2|].
      cbn [return_buffer_size set_return_buffer re constant_pattern].
      split; [lia|]. split; [left; reflexivity|].
      split; [reflexivity|]. split; [reflexivity|].
      split; [split; [discriminate|intros H; contradiction]|left; reflexivity]. }
  destruct Hs as [Hsa [Hne Hsrc]].
  assert (Hl : 0 <= s_len < INT_MAX) by lia.
  destruct (Z.le_gt_cases (s_len + 1) (return_buffer_size p)) as [Hfit|Hsmall].
  - (* the string fits *)
    eexists _, _, _. split.
    { apply (move_fits pcre i is_null0 sa src s_len w ca p ba b0 rest);
        assumption. }
    cbn [mv_initid mv_ret mv_is_null mv_error mv_length].
    split; [reflexivity|]. split; [|split].
    + unfold wf_buffer.
      cbn [return_buffer set_return_buffer return_buffer_size].
      split; [apply logged_released_live; split; [exact Hba|exact Hne]|].
      split; [|exact Hone].
      rewrite length_app, (firstn_src_length src s_len (proj1 Hl) Hsrc).
      change (List.length (NUL :: skipn (S (Z.to_nat s_len)) (NUL :: rest)))
        with (S (List.length (skipn (S (Z.to_nat s_len)) (NUL :: rest)))).
      rewrite length_skipn. simpl List.length in *. lia.
    + intros x Hx. apply logged_released_live in Hx.
      cbn [w_next logged released]. apply Hwf. tauto.
    + cbn [return_buffer_size set_return_buffer re constant_pattern].
      split; [lia|]. split; [left; reflexivity|].
      split; [reflexivity|]. split; [reflexivity|].
      split; [split; [discriminate|intros H; contradiction]|left; reflexivity].
  - destruct (hd true (w_oracle w)) eqn:Horacle.
    + (* the buffer grows *)
      pose proof (Hwf _ Hba) as Hba_lt. pose proof (Hwf _ Hsa) as Hsa_lt.
      eexists _, _, _. split.
      { apply (move_grows pcre i is_null0 sa src s_len w ca p ba b0 rest);
          try assumption; lia. }
      cbn [mv_initid mv_ret mv_is_null mv_error mv_length].
      split; [reflexivity|]. split; [|split].
      * unfold wf_buffer. cbn [return_buffer return_buffer_size].
        split; [|split; [|lia]].
        -- apply logged_released_live. split; [|lia].
           apply logged_released_live. split; [|lia].
           cbn [w_live logged granted]. left. reflexivity.
        -- rewrite length_app,
             (firstn_src_length src s_len (proj1 Hl) Hsrc). simpl. lia.
      * intros x Hx. apply logged_released_live in Hx. destruct Hx as [Hx _].
        apply logged_released_live in Hx. destruct Hx as [Hx _].
        cbn [w_live w_next logged released granted] in *.
        destruct Hx as [E|Hx]; [lia|]. specialize (Hwf x Hx). lia.
      * cbn [return_buffer_size re constant_pattern].
        split; [lia|]. split; [right; reflexivity|].
        split; [reflexivity|]. split; [reflexivity|].
        split; [split; [discriminate|intros H; contradiction]|left; reflexivity].
    + (* the buffer cannot grow *)
      eexists _, _, _. split.
      { apply (move_refused pcre i is_null0 sa src s_len w ca p ba b0 rest);
          try assumption; lia. }
      cbn [mv_initid mv_ret mv_is_null mv_error mv_length].
      split; [reflexivity|].
      match goal with
      | |- wf_buffer _ ?w0 /\ _ => destruct (Hemptied w0) as [H1 H2]
      end.
      * intros x Hx. apply logged_released_live in Hx. tauto.
      * apply logged_released_live. split; [exact Hba|exact Hne].
      * reflexivity.
      * split; [exact H1|]. split; [exact H2|].
        cbn [return_buffer_size set_return_buffer re constant_pattern].
        split; [lia|]. split; [left; reflexivity|].
        split; [reflexivity|]. split; [reflexivity|].
        split; [apply ret_default_none|right; auto].
Qed.

(** A row that fails with the code -1, on a context that is not nullable. *)
Lemma pregMoveToReturnValues_keeps_context_witness :
  exists out w' p',
    pregMoveToReturnValues
      (mkInit 0 3 (Some (0%nat, mkPreg (@None (addr * Toy.pcre)) 0
                                   (Some (1%nat, repeat xff 4)) 4)))
      0 None (-1) (mkWorld 2%nat [1; 0]%nat [] xff []) = Ok (out, w') /\
    mv_initid out = mkInit 0 3 (Some (0%nat, p')) /\
    wf_buffer p' w' /\
    wf_world w' /\
    4 <= return_buffer_size p' /\
    (return_buffer_size p' = 4 \/ return_buffer_size p' = -1 + 1) /\
    re p' = None /\
    constant_pattern p' = 0 /\
    (mv_ret out = None <-> mv_is_null out <> 0) /\
    (mv_error out = 0 \/ mv_error out = 1 /\ mv_length out = 0).
Proof.
  apply (pregMoveToReturnValues_keeps_context Toy.pcre
           (mkInit 0 3 (Some (0%nat, mkPreg None 0 (Some (1%nat, repeat xff 4)) 4)))
           0 None (-1) (mkWorld 2%nat [1; 0]%nat [] xff [])
           0%nat (mkPreg None 0 (Some (1%nat, repeat xff 4)) 4)
           1%nat (repeat xff 4)).
  - reflexivity.
  - reflexivity.
  - unfold wf_buffer. simpl. repeat split; auto; lia.
  - intros x Hx. simpl in *. lia.
  - exact I.
  - unfold INT_MAX. lia.
Defined.

(** ** Init and the rows after it *)

(** X12.  The buffer pregInit sizes from the host's [max_length] is enough
    for every row that keeps to it.  After a successful pregInit with
    [0 < max_length < INT_MAX] whose buffer was allocated, moving any live
    string of [s_len <= max_length] bytes, in whatever state the heap is by
    then, succeeds without a single allocation: the only thing the call does
    to the heap is free [s], and the value is returned in the very block
    pregInit allocated. *)
Theorem pregInit_buffer_suffices :
  forall (pcre : Type)
         (compileRegex : list byte -> Z -> list byte -> Z -> option pcre * list byte)
         (ghargIsNullConstant : UDF_ARGS -> nat -> bool)
         (GH_1_0_NULL_HANDLING : bool)
         (i : UDF_INIT pcre) (a : UDF_ARGS) (msg : list byte) (w : world)
         (i' : UDF_INIT pcre) (a' : UDF_ARGS) (m' : list byte) (w' : world)
         (ca : addr) (p : preg_s pcre) (ba : addr) (buf : list byte)
         (is_null0 : Z) (sa : addr) (src : list byte) (s_len : Z)
         (w2 : world),
    pregInit compileRegex ghargIsNullConstant GH_1_0_NULL_HANDLING i a msg w
    = Ok ((0, i', a', m'), w') ->
    ptr i' = Some (ca, p) ->
    return_buffer p = Some (ba, buf) ->
    0 < max_length i < INT_MAX ->
    0 <= s_len <= max_length i ->
    s_len <= Z.of_nat (List.length src) ->
    In sa (w_live w2) ->
    exists out w3,
      pregMoveToReturnValues i' is_null0 (Some (sa, src)) s_len w2
      = Ok (out, w3) /\
      mv_error out = 0 /\ mv_is_null out = 0 /\ mv_length out = s_len /\
      mv_ret out = Some ba /\
      w_trace w3 = w_trace w2 ++ [EvFree sa] /\
      w_next w3 = w_next w2.
Proof.
  intros pcre compileRegex nullc gh i a msg w i' a' m' w' ca p ba buf
         is_null0 sa src s_len w2 Hinit Hptr Hbuf Hmax Hlen Hsrc Hsa.
  destruct (pregInit_success_size pcre compileRegex nullc gh i a msg w
                                  i' a' m' w' Hinit)
    as [ca0 [p0 [Hptr0 [Hsize Hblock]]]].
  rewrite Hptr in Hptr0. inversion Hptr0; subst ca0 p0. clear Hptr0.
  rewrite Hbuf in Hblock.
  assert (Hcap : return_buffer_size p = max_length i + 1).
  { rewrite Hsize. unfold init_size.
    rewrite wrap32_id by (unfold INT_MIN, INT_MAX in *; lia).
    destruct (Z.gtb_spec (max_length i) 0); [|lia].
    apply to_ulong_id. unfold INT_MAX in *. lia. }
  rewrite <- Hsize in Hblock.
  destruct buf as [|b0 rest]; [simpl in Hblock; lia|].
  eexists _, _. split.
  { apply (move_fits pcre i' is_null0 sa src s_len w2 ca p ba b0 rest);
      try assumption; lia. }
  cbn [mv_error mv_is_null mv_length mv_ret w_trace w_next logged released].
  repeat split; reflexivity.
Qed.

(** Ten bytes declared, then a row of five whose string sits at address 2. *)
Lemma pregInit_buffer_suffices_witness :
  exists out w3,
    pregMoveToReturnValues
      (mkInit 1 10 (Some (0%nat, mkPreg (@None (addr * Toy.pcre)) 0
                                    (Some (1%nat, repeat xff 11)) 11)))
      0 (Some (2%nat, cstr "hello")) 5
      (mkWorld 3%nat [2; 1; 0]%nat [] xff []) = Ok (out, w3) /\
    mv_error out = 0 /\ mv_is_null out = 0 /\ mv_length out = 5 /\
    mv_ret out = Some 1%nat /\
    w_trace w3 = [] ++ [EvFree 2%nat] /\
    w_next w3 = 3%nat.
Proof.
  apply (pregInit_buffer_suffices Toy.pcre Toy.compileRegex
           Toy.ghargIsNullConstant false
           (mkInit 1 10 None)
           (mkArgs 2 [INT_RESULT; INT_RESULT] [None; None] [0; 0])
           Toy.message (Toy.world0 [])
           (mkInit 1 10 (Some (0%nat, mkPreg None 0
                                         (Some (1%nat, repeat xff 11)) 11)))
           (mkArgs 2 [STRING_RESULT; STRING_RESULT] [None; None] [0; 0])
           Toy.message
           (mkWorld 2%nat [1; 0]%nat [] xff
                    [EvCalloc (Some 0%nat); EvMalloc 11 (Some 1%nat)])
           0%nat (mkPreg None 0 (Some (1%nat, repeat xff 11)) 11)
           1%nat (repeat xff 11) 0 2%nat (cstr "hello") 5
           (mkWorld 3%nat [2; 1; 0]%nat [] xff [])).
  - reflexivity.
  - reflexivity.
  - reflexivity.
  - unfold INT_MAX. simpl. lia.
  - simpl. lia.
  - simpl. lia.
  - simpl. auto.
Defined.

(** X13.  pregInit does not check the allocation of the return buffer.  When
    the context block is granted and the buffer is refused (no constant
    pattern to compile in between, and a type array with room for the two
    entries pregInit stores), pregInit still returns 0, leaving a NULL buffer
    under a non-zero capacity; every pregMoveToReturnValues on that context
    then writes through the NULL pointer. *)
Theorem pregInit_buffer_allocation_unchecked :
  forall (pcre : Type)
         (compileRegex : list byte -> Z -> list byte -> Z -> option pcre * list byte)
         (ghargIsNullConstant : UDF_ARGS -> nat -> bool)
         (GH_1_0_NULL_HANDLING : bool)
         (i : UDF_INIT pcre) (a : UDF_ARGS) (msg : list byte) (w : world),
    hd true (w_oracle w) = true ->
    hd true (tl (w_oracle w)) = false ->
    arg_at a 0 = None ->
    ghargIsNullConstant a 0%nat && GH_1_0_NULL_HANDLING = false ->
    (2 <= List.length (arg_type a))%nat ->
    exists i' a' w',
      pregInit compileRegex ghargIsNullConstant GH_1_0_NULL_HANDLING i a msg w
      = Ok ((0, i', a', msg), w') /\
      (exists ca p,
          ptr i' = Some (ca, p) /\ return_buffer p = None /\
          return_buffer_size p = init_size i /\ 0 < return_buffer_size p) /\
      forall is_null0 s s_len,
        pregMoveToReturnValues i' is_null0 s s_len w' = Fault.
Proof.
  intros pcre compileRegex nullc gh i a msg w Hfirst Hsecond Harg Hnull Hroom.
  unfold pregInit. unfold bind at 1. unfold bind at 1.
  rewrite (alloc_granted w Hfirst). cbn [emit]. rewrite Hnull.
  rewrite store_types_room by exact Hroom.
  assert (Hno : is_some (arg_at (set_arg_type (set_arg_type a 0 STRING_RESULT)
                                              1 STRING_RESULT) 0) = false).
  { unfold arg_at, set_arg_type. cbn [args]. fold (arg_at a 0).
    rewrite Harg. reflexivity. }
  rewrite Hno, andb_false_r. unfold bind.
  match goal with
  | |- context [init_return_buffer i ?ca ?p0 ?w0] =>
    destruct (init_return_buffer_run pcre i ca p0 w0) as [[Hyes _]|[_ E]];
      [cbn [w_oracle granted] in Hyes; rewrite Hyes in Hsecond; discriminate|
       rewrite E]
  end.
  eexists _, _, _. split; [reflexivity|]. split.
  - eexists _, _. split; [reflexivity|]. split; [reflexivity|].
    split; [reflexivity|].
    cbn [return_buffer_size set_return_buffer set_return_buffer_size].
    unfold init_size, to_ulong.
    destruct (Z.gtb_spec (wrap32 (max_length i)) 0) as [Hpos|_]; [|lia].
    pose proof (Z.mod_pos_bound (max_length i + 1) 18446744073709551616
                                eq_refl) as Hb.
    destruct (Z.eq_dec ((max_length i + 1) mod 18446744073709551616) 0)
      as [E0|]; [|lia].
    exfalso. apply Z.mod_divide in E0; [|lia]. destruct E0 as [k Hk].
    unfold wrap32 in Hpos.
    replace (max_length i + 2147483648)
      with (2147483647 + (k * 4294967296) * 4294967296) in Hpos by lia.
    rewrite Z.mod_add in Hpos by lia. simpl in Hpos. lia.
  - intros is_null0 s s_len. reflexivity.
Qed.

(** A non-constant pattern, the context block granted, the buffer refused. *)
Lemma pregInit_buffer_allocation_unchecked_witness :
  exists i' a' w',
    pregInit Toy.compileRegex Toy.ghargIsNullConstant false
             (mkInit 1 10 None) (mkArgs 2 [STRING_RESULT; STRING_RESULT]
                                        [None; None] [0; 0])
             Toy.message (Toy.world0 [true; false])
    = Ok ((0, i', a', Toy.message), w') /\
    (exists ca p,
        ptr i' = Some (ca, p) /\ return_buffer p = None /\
        return_buffer_size p = 11 /\ 0 < return_buffer_size p) /\
    forall is_null0 s s_len,
      pregMoveToReturnValues i' is_null0 s s_len w' = Fault.
Proof.
  apply (pregInit_buffer_allocation_unchecked Toy.pcre Toy.compileRegex
           Toy.ghargIsNullConstant false (mkInit 1 10 None)
           (mkArgs 2 [STRING_RESULT; STRING_RESULT] [None; None] [0; 0])
           Toy.message (Toy.world0 [true; false])); reflexivity.
Defined.

Section InitFlag.

Variable pcre : Type.
Variable compileRegex : list byte -> Z -> list byte -> Z -> option pcre * list byte.
Variable ghargIsNullConstant : UDF_ARGS -> nat -> bool.
Variable GH_1_0_NULL_HANDLING : bool.

(** What a successful pregInit leaves in the context and in [args]. *)
Lemma pregInit_success_state (i : UDF_INIT pcre) (a : UDF_ARGS)
    (msg : list byte) (w : world) (i' : UDF_INIT pcre) (a' : UDF_ARGS)
    (m' : list byte) (w' : world) :
  pregInit compileRegex ghargIsNullConstant GH_1_0_NULL_HANDLING i a msg w
  = Ok ((0, i', a', m'), w') ->
  exists ca p,
    ptr i' = Some (ca, p) /\
    maybe_null i' = maybe_null i /\ max_length i' = max_length i /\
    a' = set_arg_type (set_arg_type a 0 STRING_RESULT) 1 STRING_RESULT /\
    ((arg_count a <> 0 /\ arg_at a 0 <> None) /\
     constant_pattern p = 1 /\ is_some (re p) = true \/
     (arg_count a = 0 \/ arg_at a 0 = None) /\
     constant_pattern p = 0 /\ re p = None /\ m' = msg).
Proof.
  unfold pregInit. unfold bind at 1. unfold bind at 1.
  destruct (alloc w) as [[[ca|] w1]| |]; try discriminate; cbn [emit].
  2:{ unfold bind, stored. destruct (strcpy msg _); discriminate. }
  destruct (ghargIsNullConstant a 0 && GH_1_0_NULL_HANDLING).
  { unfold bind, stored. destruct (strcpy msg _); discriminate. }
  set (p1 := if ghargIsNullConstant a 0 then _ else _).
  assert (Hp1 : exists cp, p1 = mkPreg None cp None 0).
  { subst p1. destruct (ghargIsNullConstant a 0); eexists; reflexivity. }
  destruct Hp1 as [cp Hp1]. rewrite Hp1. clear Hp1 p1.
  stores_landed.
  assert (Hargs : arg_at (set_arg_type (set_arg_type a 0 STRING_RESULT)
                                       1 STRING_RESULT) 0 = arg_at a 0)
    by reflexivity.
  rewrite Hargs. cbn [arg_count set_arg_type].
  destruct (Z.eqb_spec (arg_count a) 0) as [Hzero|Hcount]; cbn [negb andb].
  - unfold bind.
    match goal with
    | |- context [init_return_buffer i ca ?p0 ?w0] =>
      destruct (init_return_buffer_run pcre i ca p0 w0) as [[_ E]|[_ E]];
        rewrite E
    end; unfold ret; intros H; inversion H; subst; eexists _, _;
      (split; [reflexivity|]); (split; [reflexivity|]);
      (split; [reflexivity|]); (split; [reflexivity|]); right;
      (split; [left; exact Hzero|]); repeat split; reflexivity.
  - destruct (arg_at a 0) as [bytes|] eqn:Harg; cbn [is_some].
    + unfold bind at 1. unfold initPtrInfo. unfold bind at 1.
      destruct (pregCompileRegexArg _ _ _ _ _) as [[[r m] w2]| |];
        try discriminate.
      destruct r as [c|]; cbn [is_some ret negb Z.eqb]; [|discriminate].
      unfold bind.
      match goal with
      | |- context [init_return_buffer i ca ?p0 ?w0] =>
        destruct (init_return_buffer_run pcre i ca p0 w0) as [[_ E]|[_ E]];
          rewrite E
      end; unfold ret; intros H; inversion H; subst; eexists _, _;
        (split; [reflexivity|]); (split; [reflexivity|]);
        (split; [reflexivity|]); (split; [reflexivity|]); left;
        (split; [split; [exact Hcount|discriminate]|]); split; reflexivity.
    + unfold bind.
      match goal with
      | |- context [init_return_buffer i ca ?p0 ?w0] =>
        destruct (init_return_buffer_run pcre i ca p0 w0) as [[_ E]|[_ E]];
          rewrite E
      end; unfold ret; intros H; inversion H; subst; eexists _, _;
        (split; [reflexivity|]); (split; [reflexivity|]);
        (split; [reflexivity|]); (split; [reflexivity|]); right;
        (split; [right; reflexivity|]); repeat split; reflexivity.
Qed.

End InitFlag.

(** X14.  After a successful pregInit the constant-pattern flag tells whether
    a compiled pattern is stored: when [arg_count] is not 0 and argument 0 is
    not NULL, the flag is 1 and [ptr->re] holds a compiled pattern;
    otherwise the flag is 0, [ptr->re] is NULL and the message buffer was not
    touched.  Either way the types of the first two arguments have been set
    to STRING_RESULT and nothing else in [args] or [initid] (but [ptr]) has
    changed. *)
Theorem pregInit_constant_pattern_flag :
  forall (pcre : Type)
         (compileRegex : list byte -> Z -> list byte -> Z -> option pcre * list byte)
         (ghargIsNullConstant : UDF_ARGS -> nat -> bool)
         (GH_1_0_NULL_HANDLING : bool)
         (i : UDF_INIT pcre) (a : UDF_ARGS) (msg : list byte) (w : world)
         (i' : UDF_INIT pcre) (a' : UDF_ARGS) (m' : list byte) (w' : world),
    pregInit compileRegex ghargIsNullConstant GH_1_0_NULL_HANDLING i a msg w
    = Ok ((0, i', a', m'), w') ->
    exists ca p,
      ptr i' = Some (ca, p) /\
      maybe_null i' = maybe_null i /\ max_length i' = max_length i /\
      a' = set_arg_type (set_arg_type a 0 STRING_RESULT) 1 STRING_RESULT /\
      ((arg_count a <> 0 /\ arg_at a 0 <> None) /\
       constant_pattern p = 1 /\ is_some (re p) = true \/
       (arg_count a = 0 \/ arg_at a 0 = None) /\
       constant_pattern p = 0 /\ re p = None /\ m' = msg).
Proof.
  intros pcre compileRegex nullc gh i a msg w i' a' m' w' Hinit.
  exact (pregInit_success_state pcre compileRegex nullc gh i a msg w
                                i' a' m' w' Hinit).
Qed.

(** A REAL-typed second argument and no constant pattern. *)
Lemma pregInit_constant_pattern_flag_witness :
  exists ca p,
    ptr (mkInit 1 10 (Some (0%nat, mkPreg (@None (addr * Toy.pcre)) 0
                                      (Some (1%nat, repeat xff 11)) 11)))
    = Some (ca, p) /\
    1 = 1 /\ 10 = 10 /\
    mkArgs 2 [STRING_RESULT; STRING_RESULT] [None; Some (cstr "1.5")] [0; 3]
    = set_arg_type (set_arg_type
                      (mkArgs 2 [INT_RESULT; REAL_RESULT]
                              [None; Some (cstr "1.5")] [0; 3])
                      0 STRING_RESULT) 1 STRING_RESULT /\
    ((2 <> 0 /\ @None (list byte) <> None) /\
     constant_pattern p = 1 /\ is_some (re p) = true \/
     (2 = 0 \/ @None (list byte) = None) /\
     constant_pattern p = 0 /\ re p = None /\ Toy.message = Toy.message).
Proof.
  apply (pregInit_constant_pattern_flag Toy.pcre Toy.compileRegex
           Toy.ghargIsNullConstant false (mkInit 1 10 None)
           (mkArgs 2 [INT_RESULT; REAL_RESULT] [None; Some (cstr "1.5")] [0; 3])
           Toy.message (Toy.world0 [])
           (mkInit 1 10 (Some (0%nat, mkPreg None 0
                                         (Some (1%nat, repeat xff 11)) 11)))
           (mkArgs 2 [STRING_RESULT; STRING_RESULT]
                   [None; Some (cstr "1.5")] [0; 3])
           Toy.message
           (mkWorld 2%nat [1; 0]%nat [] xff
                    [EvCalloc (Some 0%nat); EvMalloc 11 (Some 1%nat)])).
  reflexivity.
Defined.

(** ** The message buffer *)

Lemma store_bytes_bounded (dst pre m : list byte) (n : nat) :
  store_bytes dst pre = Some m ->
  (List.length pre <= n)%nat ->
  List.length m = List.length dst /\ skipn n m = skipn n dst.
Proof.
  unfold store_bytes.
  destruct (Nat.leb_spec (List.length pre) (List.length dst)) as [Hle|];
    [|discriminate].
  intros H Hn. inversion H; subst. split.
  - rewrite length_app, length_skipn. lia.
  - rewrite skipn_app, (skipn_all2 pre) by lia. rewrite app_nil_l.
    rewrite skipn_skipn. f_equal. lia.
Qed.

Section InitMessage.

Variable pcre : Type.
Variable compileRegex : list byte -> Z -> list byte -> Z -> option pcre * list byte.
Variable ghargIsNullConstant : UDF_ARGS -> nat -> bool.
Variable GH_1_0_NULL_HANDLING : bool.
Hypothesis compileRegex_bounded : compile_bounded compileRegex.

Lemma pregInit_message (i : UDF_INIT pcre) (a : UDF_ARGS) (msg : list byte)
    (w : world) (r : Z) (i' : UDF_INIT pcre) (a' : UDF_ARGS) (m' : list byte)
    (w' : world) :
  128 <= Z.of_nat (List.length msg) ->
  pregInit compileRegex ghargIsNullConstant GH_1_0_NULL_HANDLING i a msg w
  = Ok ((r, i', a', m'), w') ->
  List.length m' = List.length msg /\ skipn 128 m' = skipn 128 msg.
Proof.
  intros Hmsg. unfold pregInit. unfold bind at 1. unfold bind at 1.
  assert (Hcpy : forall src (x : Z * UDF_INIT pcre * UDF_ARGS) w0,
             (List.length src < 128)%nat ->
             bind (stored (strcpy msg src))
                  (fun m => ret (x, m)) w0 = Ok ((r, i', a', m'), w') ->
             List.length m' = List.length msg /\ skipn 128 m' = skipn 128 msg).
  { intros src x w0 Hsrc. unfold bind, stored, strcpy.
    destruct (store_bytes msg (src ++ [NUL])) as [m|] eqn:E; [|discriminate].
    unfold ret. intros H. inversion H; subst.
    apply (store_bytes_bounded msg (src ++ [NUL]) m' 128 E).
    rewrite length_app. simpl. lia. }
  destruct (alloc w) as [[[ca|] w1]| |]; try discriminate; cbn [emit].
  2:{ intros H.
      match type of H with
      | bind _ (fun m => ret (?x, m)) ?w0 = _ =>
        apply (Hcpy (cstr "not enough memory") x w0); [simpl; lia|exact H]
      end. }
  destruct (ghargIsNullConstant a 0 && GH_1_0_NULL_HANDLING).
  { intros H.
    match type of H with
    | bind _ (fun m => ret (?x, m)) ?w0 = _ =>
      apply (Hcpy (cstr "NULL pattern") x w0); [simpl; lia|exact H]
    end. }
  clear Hcpy.
  assert (Hfin : forall p0 m0 a0 w0,
             bind (init_return_buffer i ca p0) (fun i0 => ret (0, i0, a0, m0)) w0
             = Ok ((r, i', a', m'), w') -> m' = m0).
  { intros p0 m0 a0 w0. unfold bind.
    destruct (init_return_buffer_run pcre i ca p0 w0) as [[_ E]|[_ E]];
      rewrite E; unfold ret; intros H; inversion H; reflexivity. }
  stores_landed.
  destruct (negb (arg_count _ =? 0) && is_some _).
  - unfold bind at 1. unfold initPtrInfo. unfold bind at 1.
    match goal with
    | |- context [pregCompileRegexArg compileRegex ?a1 msg 128 ?w1] =>
      destruct (pregCompileRegexArg_outcome pcre compileRegex a1 msg 128 w1
                  compileRegex_bounded)
        as [rp [m [w2 [Hrun [Hlen [Hskip _]]]]]];
        [unfold INT_MAX; lia|lia|rewrite Hrun]
    end.
    change (Z.to_nat 128) with 128%nat in Hskip.
    destruct rp as [c|]; cbn [is_some ret negb Z.eqb].
    + intros H. apply Hfin in H. subst m'. split; assumption.
    + intros H. inversion H; subst. split; assumption.
  - intros H. apply Hfin in H. subst m'. split; reflexivity.
Qed.

End InitMessage.

(** X15.  pregInit keeps to the first 128 bytes of the host's message buffer.
    Given a buffer of at least 128 bytes, a type array with room for the two
    entries pregInit stores and a compileRegex that keeps to the size it is
    given, pregInit returns 0 or 1, and the buffer afterwards has the extent
    it had and the same bytes from index 128 on, whichever diagnostic was
    written. *)
Theorem pregInit_message_bounded :
  forall (pcre : Type)
         (compileRegex : list byte -> Z -> list byte -> Z -> option pcre * list byte)
         (ghargIsNullConstant : UDF_ARGS -> nat -> bool)
         (GH_1_0_NULL_HANDLING : bool)
         (i : UDF_INIT pcre) (a : UDF_ARGS) (msg : list byte) (w : world),
    compile_bounded compileRegex ->
    128 <= Z.of_nat (List.length msg) ->
    (2 <= List.length (arg_type a))%nat ->
    exists r i' a' m' w',
      pregInit compileRegex ghargIsNullConstant GH_1_0_NULL_HANDLING i a msg w
      = Ok ((r, i', a', m'), w') /\
      (r = 0 \/ r = 1) /\
      List.length m' = List.length msg /\
      skipn 128 m' = skipn 128 msg.
Proof.
  intros pcre compileRegex nullc gh i a msg w Hb Hmsg Hroom.
  destruct (pregInit_returns pcre compileRegex nullc gh Hb i a msg w Hmsg Hroom)
    as [r [i' [a' [m' [w' [Hrun Hr]]]]]].
  exists r, i', a', m', w'. split; [exact Hrun|]. split; [exact Hr|].
  exact (pregInit_message pcre compileRegex nullc gh Hb i a msg w r i' a' m' w'
                          Hmsg Hrun).
Qed.

(** A pattern without its closing delimiter and a message buffer of 512
    bytes holding [0xff]: bytes 128 to 511 still hold it. *)
Lemma pregInit_message_bounded_witness :
  exists r i' a' m' w',
    pregInit Toy.compileRegex Toy.ghargIsNullConstant false
             (mkInit 1 10 None) (Toy.two_args "/abc" "abc") (repeat xff 512)
             (Toy.world0 []) = Ok ((r, i', a', m'), w') /\
    (r = 0 \/ r = 1) /\
    List.length m' = List.length (repeat xff 512) /\
    skipn 128 m' = skipn 128 (repeat xff 512).
Proof.
  apply (pregInit_message_bounded Toy.pcre Toy.compileRegex
           Toy.ghargIsNullConstant false (mkInit 1 10 None)
           (Toy.two_args "/abc" "abc") (repeat xff 512) (Toy.world0 [])).
  - exact toy_compile_bounded.
  - vm_compute. discriminate.
  - simpl. lia.
Defined.

(** ** Capture scratch allocator: heap and message *)

Lemma strncpy_image_short (text : list byte) (n : Z) :
  0 <= n <= Z.of_nat (List.length text) ->
  strncpy_image text n = firstn (Z.to_nat n) text.
Proof.
  intros H. unfold strncpy_image.
  replace (Z.to_nat n - List.length text)%nat with 0%nat by lia.
  apply app_nil_r.
Qed.

Lemma strncpy_image_long (text : list byte) (n : Z) :
  Z.of_nat (List.length text) < n ->
  firstn (S (List.length text)) (strncpy_image text n) = text ++ [NUL].
Proof.
  intros H. unfold strncpy_image.
  rewrite (firstn_all2 text) by lia.
  destruct (Z.to_nat n - List.length text)%nat eqn:E; [lia|].
  cbn [repeat]. rewrite firstn_app, (firstn_all2 text) by lia.
  replace (S (List.length text) - List.length text)%nat with 1%nat by lia.
  reflexivity.
Qed.

Lemma no_NUL_in (text : list byte) :
  forallb (fun b => negb (Byte.eqb b NUL)) text = true -> ~ In NUL text.
Proof.
  intros H Hin. rewrite forallb_forall in H. specialize (H NUL Hin).
  vm_compute in H. discriminate.
Qed.

Lemma firstn_In (A : Type) (x : A) (k : nat) (l : list A) :
  In x (firstn k l) -> In x l.
Proof.
  intros H. rewrite <- (firstn_skipn k l). apply in_or_app. left. exact H.
Qed.

(** What a failed [strncpy(msg, text, msglen)] diagnostic leaves in the
    message buffer, for a [text] without NUL. *)
Lemma diagnostic_stored (msg text m : list byte) (msglen : Z) :
  0 <= msglen ->
  ~ In NUL text ->
  firstn (Z.to_nat msglen) m = strncpy_image text msglen ->
  (Z.of_nat (List.length text) < msglen ->
   firstn (S (List.length text)) m = text ++ [NUL]) /\
  (msglen <= Z.of_nat (List.length text) ->
   firstn (Z.to_nat msglen) m = firstn (Z.to_nat msglen) text /\
   ~ In NUL (firstn (Z.to_nat msglen) m)).
Proof.
  intros Hlen Hnul Hm. split.
  - intros Hlong. rewrite <- (strncpy_image_long text msglen Hlong), <- Hm.
    rewrite firstn_firstn. f_equal. lia.
  - intros Hshort. rewrite Hm, strncpy_image_short by lia.
    split; [reflexivity|]. intros Hin. apply Hnul.
    apply (firstn_In _ _ _ _ Hin).
Qed.

(** X16.  [pregCreateOffsetsVector] on the heap and on the message buffer.
    It returns a vector only when the engine's query succeeded; the vector is
    one new block, of [*count] entries, a multiple of three and at least
    three, and the message is untouched.  On failure the heap is as before,
    [*count] is 0, and [strncpy] leaves the diagnostic in the first [msglen]
    bytes: with its terminator when [msglen] exceeds the length of the
    text, cut and without any terminator otherwise.  Bytes from [msglen] on
    are never written. *)
Theorem pregCreateOffsetsVector_heap_and_message :
  forall (pcre : Type) (pcre_fullinfo_capturecount : pcre -> Z * Z) (r : pcre)
         (msg : list byte) (msglen : Z) (w : world) (rc n : Z),
    pcre_fullinfo_capturecount r = (rc, n) ->
    0 <= n ->
    3 * (n + 1) <= INT_MAX ->
    0 <= msglen <= INT_MAX ->
    msglen <= Z.of_nat (List.length msg) ->
    wf_world w ->
    exists v count m w',
      pregCreateOffsetsVector pcre_fullinfo_capturecount r msg msglen w
      = Ok ((v, count, m), w') /\
      List.length m = List.length msg /\
      skipn (Z.to_nat msglen) m = skipn (Z.to_nat msglen) msg /\
      match v with
      | Some (va, vec) =>
        0 <= rc /\
        ~ In va (w_live w) /\ w_live w' = va :: w_live w /\
        count = Z.of_nat (List.length vec) /\
        count = 3 * (n + 1) /\ 3 <= count /\
        m = msg
      | None =>
        w_live w' = w_live w /\ count = 0 /\
        let text :=
            if rc <? 0
            then cstr "preg: error retrieving information about pattern"
            else cstr "preg: out of memory" in
        (Z.of_nat (List.length text) < msglen ->
         firstn (S (List.length text)) m = text ++ [NUL]) /\
        (msglen <= Z.of_nat (List.length text) ->
         firstn (Z.to_nat msglen) m = firstn (Z.to_nat msglen) text /\
         ~ In NUL (firstn (Z.to_nat msglen) m))
      end.
Proof.
  intros pcre fullinfo r msg msglen w rc n Hinfo Hn Hcap Hmsglen Hmsg Hwf.
  unfold pregCreateOffsetsVector. rewrite Hinfo.
  rewrite (msglen_ulong msglen Hmsglen).
  assert (Hcount : wrap32 (wrap32 (n + 1) * 3) = 3 * (n + 1)).
  { rewrite (wrap32_id (n + 1)) by (unfold INT_MIN, INT_MAX in *; lia).
    rewrite wrap32_id by (unfold INT_MIN, INT_MAX in *; lia). lia. }
  rewrite Hcount.
  destruct (Z.ltb_spec rc 0) as [Hfail|Hok].
  - destruct (strncpy_bounded msg
                (cstr "preg: error retrieving information about pattern") msglen)
      as [m [Hm [Hlen [Hskip Hfirst]]]]; [lia|].
    unfold bind, stored. rewrite Hm.
    exists None, 0, m, w. split; [reflexivity|].
    split; [exact Hlen|]. split; [exact Hskip|].
    split; [reflexivity|]. split; [reflexivity|].
    apply (diagnostic_stored msg); [lia| |exact Hfirst].
    apply no_NUL_in. reflexivity.
  - destruct (hd true (w_oracle w)) eqn:Horacle.
    + unfold bind, malloc_raw, bind. rewrite (alloc_granted w Horacle).
      eexists _, _, _, _. split; [reflexivity|].
      split; [reflexivity|]. split; [reflexivity|].
      split; [exact Hok|].
      split; [intros Hin; apply Hwf in Hin; lia|].
      split; [reflexivity|].
      split; [rewrite repeat_length; lia|].
      split; [reflexivity|]. split; [lia|reflexivity].
    + destruct (strncpy_bounded msg (cstr "preg: out of memory") msglen)
        as [m [Hm [Hlen [Hskip Hfirst]]]]; [lia|].
      unfold bind, malloc_raw, bind. rewrite (alloc_refused w Horacle).
      cbn [emit ret]. unfold stored. rewrite Hm.
      eexists _, _, _, _. split; [reflexivity|].
      split; [exact Hlen|]. split; [exact Hskip|].
      split; [reflexivity|]. split; [reflexivity|].
      apply (diagnostic_stored msg); [lia| |exact Hfirst].
      apply no_NUL_in. reflexivity.
Qed.

(** A refused allocation and a message buffer announced as 8 bytes: the
    buffer starts with [preg: ou] and holds no terminator there. *)
Lemma pregCreateOffsetsVector_heap_and_message_witness :
  exists v count m w',
    pregCreateOffsetsVector Toy.pcre_fullinfo_capturecount (cstr "a(b)(c)")
                            (repeat xff 16) 8 (Toy.world0 [false])
    = Ok ((v, count, m), w') /\
    List.length m = List.length (repeat xff 16) /\
    skipn (Z.to_nat 8) m = skipn (Z.to_nat 8) (repeat xff 16) /\
    match v with
    | Some (va, vec) =>
      0 <= 0 /\
      ~ In va (w_live (Toy.world0 [false])) /\
      w_live w' = va :: w_live (Toy.world0 [false]) /\
      count = Z.of_nat (List.length vec) /\
      count = 3 * (2 + 1) /\ 3 <= count /\
      m = repeat xff 16
    | None =>
      w_live w' = w_live (Toy.world0 [false]) /\ count = 0 /\
      let text := cstr "preg: out of memory" in
      (Z.of_nat (List.length text) < 8 ->
       firstn (S (List.length text)) m = text ++ [NUL]) /\
      (8 <= Z.of_nat (List.length text) ->
       firstn (Z.to_nat 8) m = firstn (Z.to_nat 8) text /\
       ~ In NUL (firstn (Z.to_nat 8) m))
    end.
Proof.
  apply (pregCreateOffsetsVector_heap_and_message Toy.pcre
           Toy.pcre_fullinfo_capturecount (cstr "a(b)(c)")
           (repeat xff 16) 8 (Toy.world0 [false]) 0 2).
  - reflexivity.
  - lia.
  - unfold INT_MAX. lia.
  - unfold INT_MAX. lia.
  - simpl. lia.
  - apply toy_world0_wf.
Defined.

(** ** The type array *)

(** X17.  pregInit stores the types of the first two arguments whatever
    [arg_count] is.  Once the context block is granted and the call is not
    turned away as a NULL pattern, a type array of fewer than two entries is
    written past its end; preg_check_init, called with its one argument in
    such an array, does just that. *)
Theorem pregInit_stores_two_types :
  forall (pcre : Type)
         (compileRegex : list byte -> Z -> list byte -> Z -> option pcre * list byte)
         (ghargIsNullConstant : UDF_ARGS -> nat -> bool)
         (GH_1_0_NULL_HANDLING : bool)
         (i : UDF_INIT pcre) (a : UDF_ARGS) (msg : list byte) (w : world),
    hd true (w_oracle w) = true ->
    ghargIsNullConstant a 0%nat && GH_1_0_NULL_HANDLING = false ->
    (List.length (arg_type a) < 2)%nat ->
    pregInit compileRegex ghargIsNullConstant GH_1_0_NULL_HANDLING i a msg w
    = Fault /\
    (arg_count a = 1 ->
     preg_check_init compileRegex ghargIsNullConstant GH_1_0_NULL_HANDLING
                     i a msg w = Fault).
Proof.
  intros pcre compileRegex nullc gh i a msg w Hgrant Hnull Hno.
  assert (Hfault : forall i0,
             pregInit compileRegex nullc gh i0 a msg w = Fault).
  { intros i0. unfold pregInit. unfold bind at 1. unfold bind at 1.
    rewrite (alloc_granted w Hgrant). cbn [emit]. rewrite Hnull.
    apply store_types_no_room. exact Hno. }
  split; [apply Hfault|].
  intros Hone. unfold preg_check_init. rewrite Hone.
  cbn [Z.eqb Pos.eqb negb]. unfold bind. rewrite Hfault. reflexivity.
Qed.

(** One constant argument in a type array of one entry. *)
Lemma pregInit_stores_two_types_witness :
  pregInit Toy.compileRegex Toy.ghargIsNullConstant false
           (mkInit 1 0 None) (Toy.one_arg "/abc/") Toy.message
           (Toy.world0 []) = Fault /\
  preg_check_init Toy.compileRegex Toy.ghargIsNullConstant false
                  (mkInit 1 0 None) (Toy.one_arg "/abc/") Toy.message
                  (Toy.world0 []) = Fault.
Proof.
  destruct (pregInit_stores_two_types Toy.pcre Toy.compileRegex
              Toy.ghargIsNullConstant false (mkInit 1 0 None)
              (Toy.one_arg "/abc/") Toy.message (Toy.world0 []))
    as [Hinit Hcheck].
  - reflexivity.
  - reflexivity.
  - simpl. lia.
  - split; [exact Hinit|exact (Hcheck eq_refl)].
Defined.
